(** * internet-monitor: probe parsing, query API, reports, dashboard

    A shallow embedding of the repository's code:
    - [backend/server-sqlite3.js] and [backend/server.js]: the ping output
      parser [runPingCommand], the three query handlers, and the ping
      loop [startPingLoop] of [server.js];
    - [frontend/public/app.js]: [buildAggregatedTimeline]/[renderTimeline],
      [renderFailures], [renderGlobalIndicator] and the data flow of
      [refreshAll];
    - [scripts/export_daily_csv.sh]: the script from its here-document
      on, with [sqlite3] as a parameter;
    - [scripts/generate-failures-report.sh]: its SQL statement and its
      retry loop;
    - [prune.sh] as [scripts/install.sh] writes it.

    Conventions.  JavaScript numbers are IEEE doubles: a finite number is
    given as the rational it denotes ([Q]), with NaN and the infinities
    kept apart ([jsnum]), and a numeral is rounded to the nearest double
    when it is read ([to_double]).  Products and differences ([js_mul],
    [js_sub]) are those of the rationals; a computation on doubles
    rounds each result, which changes nothing where the results are
    integers of magnitude below [2^53], as with a time in milliseconds
    and a window of whole hours.  Module [Binary64] checks [to_double]
    and the thresholds of the timeline against the standard library's
    binary64.  Strings are sequences of 8-bit code units ([string]).  A
    table is the list of its rows in scan order. *)

From stdpp Require Import gmap strings list.
From Stdlib Require Import ZArith QArith Lia Lqa Ascii String.
From Stdlib Require Import Sorting.Sorted Sorting.Permutation List.
From Stdlib Require Import DecimalString Floats.SpecFloat.
Import ListNotations.
Open Scope Z_scope.

(* ================================================================== *)
(** * Part I. Definitions *)
(* ================================================================== *)

(** ** JavaScript numbers *)

Inductive jsnum : Type :=
| NaN
| NegInf
| PosInf
| Fin (q : Q).

(** ToBoolean on a number: NaN, +0 and -0 are falsy. *)
Definition truthy (x : jsnum) : bool :=
  match x with
  | NaN => false
  | Fin q => negb (Qeq_bool q 0)
  | _ => true
  end.

(** [x || d] on numbers. *)
Definition js_or (x d : jsnum) : jsnum := if truthy x then x else d.

(** [Math.max(a, b)]. *)
Definition js_max (a b : jsnum) : jsnum :=
  match a, b with
  | NaN, _ | _, NaN => NaN
  | PosInf, _ | _, PosInf => PosInf
  | NegInf, y => y
  | x, NegInf => x
  | Fin p, Fin q => if Qle_bool p q then Fin q else Fin p
  end.

Definition js_sign (x : jsnum) : Z :=
  match x with
  | NaN => 0
  | NegInf => -1
  | PosInf => 1
  | Fin q => Z.sgn (Qnum q)
  end.

Definition js_inf (s : Z) : jsnum :=
  if s =? 0 then NaN else if s <? 0 then NegInf else PosInf.

(** [a * b]. *)
Definition js_mul (a b : jsnum) : jsnum :=
  match a, b with
  | NaN, _ | _, NaN => NaN
  | Fin p, Fin q => Fin (p * q)
  | _, _ => js_inf (js_sign a * js_sign b)
  end.

(** [a - b]. *)
Definition js_sub (a b : jsnum) : jsnum :=
  match a, b with
  | NaN, _ | _, NaN => NaN
  | Fin p, Fin q => Fin (p - q)
  | PosInf, PosInf | NegInf, NegInf => NaN
  | PosInf, _ | _, NegInf => PosInf
  | NegInf, _ | _, PosInf => NegInf
  end.

Definition js_int (n : Z) : jsnum := Fin (inject_Z n).

(** Equality of numbers as values (rationals up to [Qeq]). *)
Definition js_eq (a b : jsnum) : Prop :=
  match a, b with
  | NaN, NaN | NegInf, NegInf | PosInf, PosInf => True
  | Fin p, Fin q => p == q
  | _, _ => False
  end.

(** *** Rounding to binary64

    A JavaScript number is an IEEE binary64 value.  [to_double] is the
    rounding that reading a decimal numeral performs: to the nearest
    double, a tie going to the even significand, and to an infinity past
    the largest double.  A finite result is given as the rational the
    double denotes; the two zeros are not kept apart. *)

(** The integer nearest to [n / d], for [d > 0]; a tie goes to the even one. *)
Definition round_half_even (n d : Z) : Z :=
  let q := n / d in
  let r := n mod d in
  if 2 * r <? d then q
  else if d <? 2 * r then q + 1
  else if Z.even q then q else q + 1.

(** The greatest [e] with [2^e <= n / d], for [n > 0] and [d > 0]. *)
Definition floor_log2 (n d : Z) : Z :=
  let e0 := Z.log2 n - Z.log2 d in
  let below := if 0 <=? e0 then n <? d * 2 ^ e0 else n * 2 ^ (- e0) <? d in
  if below then e0 - 1 else e0.

(** [ex] is the exponent of the last place: 52 below that of the leading
    bit, and [-1074] in the subnormal range; [m] is the significand. *)
Definition to_double (x : Q) : jsnum :=
  let n := Z.abs (Qnum x) in
  let d := Zpos (Qden x) in
  if n =? 0 then Fin 0
  else
    let e := floor_log2 n d in
    let ex := Z.max (e - 52) (-1074) in
    let m := if 0 <=? ex then round_half_even n (d * 2 ^ ex)
             else round_half_even (n * 2 ^ (- ex)) d in
    if (0 <=? ex) && (2 ^ 1024 <=? m * 2 ^ ex)
    then (if Qnum x <? 0 then NegInf else PosInf)
    else
      let mag := if 0 <=? ex then inject_Z (m * 2 ^ ex)
                 else Qmake m (Z.to_pos (2 ^ (- ex))) in
      Fin (Qred (if Qnum x <? 0 then - mag else mag)).

(** ** Characters and scanning *)

Definition code (c : ascii) : Z := Z.of_nat (nat_of_ascii c).

(** [\s] restricted to code units below 256. *)
Definition is_space (c : ascii) : bool :=
  let n := code c in
  ((9 <=? n) && (n <=? 13)) || (n =? 32) || (n =? 160).

(** [\d]. *)
Definition is_digit (c : ascii) : bool :=
  let n := code c in (48 <=? n) && (n <=? 57).

(** [[\d.]]. *)
Definition is_digit_or_dot (c : ascii) : bool :=
  is_digit c || (code c =? 46).

Definition digit_val (c : ascii) : Z := code c - 48.

(** Case folding used by the [i] flag on ASCII letters. *)
Definition lower (c : ascii) : ascii :=
  let n := code c in
  if (65 <=? n) && (n <=? 90) then ascii_of_nat (Z.to_nat (n + 32)) else c.

Definition ci_eqb (a b : ascii) : bool := Ascii.eqb (lower a) (lower b).

Fixpoint drop_while (f : ascii -> bool) (s : string) : string :=
  match s with
  | EmptyString => EmptyString
  | String c r => if f c then drop_while f r else s
  end.

Fixpoint take_while (f : ascii -> bool) (s : string) : string :=
  match s with
  | EmptyString => EmptyString
  | String c r => if f c then String c (take_while f r) else EmptyString
  end.

(** Every character of [s] is in the class [f]. *)
Fixpoint all_chars (f : ascii -> bool) (s : string) : bool :=
  match s with
  | EmptyString => true
  | String c r => f c && all_chars f r
  end.

(** [t] is empty or begins with a character outside [f]. *)
Definition stops (f : ascii -> bool) (t : string) : Prop :=
  match t with
  | EmptyString => True
  | String c _ => f c = false
  end.

(** Remainder of [s] after the literal [pat], compared case-insensitively. *)
Fixpoint ci_strip (pat s : string) : option string :=
  match pat with
  | EmptyString => Some s
  | String p pat' =>
      match s with
      | String c r => if ci_eqb p c then ci_strip pat' r else None
      | EmptyString => None
      end
  end.

(** Remainder after the literal [pat], compared exactly. *)
Fixpoint strip (pat s : string) : option string :=
  match pat with
  | EmptyString => Some s
  | String p pat' =>
      match s with
      | String c r => if Ascii.eqb p c then strip pat' r else None
      | EmptyString => None
      end
  end.

(** Leftmost position at which the anchored matcher [m] succeeds. *)
Fixpoint first_match {A : Type} (m : string -> option A) (s : string) : option A :=
  match m s with
  | Some a => Some a
  | None =>
      match s with
      | EmptyString => None
      | String _ r => first_match m r
      end
  end.

(** Value of a digit string read in base ten. *)
Fixpoint digits_val (acc : Z) (s : string) : Z :=
  match s with
  | EmptyString => acc
  | String c r => digits_val (10 * acc + digit_val c) r
  end.

Definition is_empty (s : string) : bool :=
  match s with EmptyString => true | _ => false end.

(** Optional sign: the flag is [true] for a minus. *)
Definition read_sign (s : string) : bool * string :=
  match s with
  | String c r =>
      if code c =? 45 then (true, r)
      else if code c =? 43 then (false, r)
      else (false, s)
  | EmptyString => (false, s)
  end.

(** [parseInt(s, 10)]: leading white space, a sign, the longest run of
    digits; NaN when there is no digit.  The integer read is rounded to
    a double. *)
Definition parseInt10 (s : string) : jsnum :=
  let '(neg, r) := read_sign (drop_while is_space s) in
  let ds := take_while is_digit r in
  if is_empty ds then NaN
  else to_double (inject_Z (if neg then - digits_val 0 ds else digits_val 0 ds)).

(** Exponent part of a decimal literal: [e], a sign, digits; 0 when the
    part is absent or has no digit (the longest valid prefix stops
    before it). *)
Definition read_exponent (s : string) : Z :=
  match s with
  | String c r =>
      if (code c =? 101) || (code c =? 69) then
        let '(neg, r1) := read_sign r in
        let ds := take_while is_digit r1 in
        if is_empty ds then 0
        else if neg then - digits_val 0 ds else digits_val 0 ds
      else 0
  | EmptyString => 0
  end.

Definition pow10 (e : Z) : Q :=
  if e <? 0 then 1 / inject_Z (10 ^ (- e)) else inject_Z (10 ^ e).

(** [parseFloat(s)]: leading white space, then the longest prefix that is
    a decimal literal ([Infinity], or digits with an optional fraction and
    exponent); NaN when there is none.  The value of the literal is
    rounded to a double: [1e-400] reads as 0, a run of 310 digits as
    [Infinity]. *)
Definition parseFloat (s : string) : jsnum :=
  let '(neg, r) := read_sign (drop_while is_space s) in
  match strip "Infinity" r with
  | Some _ => if neg then NegInf else PosInf
  | None =>
      let ip := take_while is_digit r in
      let r1 := drop_while is_digit r in
      let '(fp, r2) :=
        match r1 with
        | String c r' =>
            if code c =? 46
            then (take_while is_digit r', drop_while is_digit r')
            else (EmptyString, r1)
        | EmptyString => (EmptyString, r1)
        end in
      if is_empty ip && is_empty fp then NaN
      else
        let mant := inject_Z (digits_val 0 (ip ++ fp)) in
        let scale := pow10 (read_exponent r2 - Z.of_nat (String.length fp)) in
        let v := (mant * scale)%Q in
        to_double (if neg then (- v)%Q else v)
  end.

(** ** Probe executor: [runPingCommand] *)

(** [/time[=<]\s*([\d.]+)\s*ms/i] anchored at the head of [s]; the result
    is capture group 1.  The classes that follow one another are disjoint,
    so the greedy choice is the only one that can succeed. *)
Definition time_at (s : string) : option string :=
  match ci_strip "time" s with
  | Some (String c r) =>
      if (code c =? 61) || (code c =? 60) then
        let r1 := drop_while is_space r in
        let num := take_while is_digit_or_dot r1 in
        let r2 := drop_while is_digit_or_dot r1 in
        if is_empty num then None
        else
          match ci_strip "ms" (drop_while is_space r2) with
          | Some _ => Some num
          | None => None
          end
      else None
  | _ => None
  end.

(** [/ttl[=|:]\s*(\d+)/i] anchored at the head of [s]. *)
Definition ttl_at (s : string) : option string :=
  match ci_strip "ttl" s with
  | Some (String c r) =>
      if (code c =? 61) || (code c =? 124) || (code c =? 58) then
        let num := take_while is_digit (drop_while is_space r) in
        if is_empty num then None else Some num
      else None
  | _ => None
  end.

(** [/bytes from/i] anchored at the head of [s]. *)
Definition bytes_from_at (s : string) : option unit :=
  match ci_strip "bytes from" s with
  | Some _ => Some tt
  | None => None
  end.

(** [raw.match(/time.../i)], [raw.match(/ttl.../i)], [/bytes from/i.test(raw)]. *)
Definition timeMatch (raw : string) : option string := first_match time_at raw.
Definition ttlMatch (raw : string) : option string := first_match ttl_at raw.
Definition bytes_from_test (raw : string) : bool :=
  match first_match bytes_from_at raw with Some _ => true | None => false end.

(** *** What the three patterns match

    The matchers above scan greedily.  The relations below say what the
    regular expressions match, with no reference to a scanning order. *)

Fixpoint lower_string (s : string) : string :=
  match s with
  | EmptyString => EmptyString
  | String c r => String (lower c) (lower_string r)
  end.

(** [s] begins with a match of [/time[=<]\s*([\d.]+)\s*ms/i] whose
    group 1 is [g]; [rest] is what follows the match. *)
Definition time_regex (s g rest : string) : Prop :=
  exists kw sep ws1 ws2 u,
    s = (kw ++ String sep (ws1 ++ g ++ ws2 ++ u ++ rest))%string
    /\ lower_string kw = "time"%string
    /\ (code sep = 61 \/ code sep = 60)
    /\ all_chars is_space ws1 = true
    /\ g <> EmptyString
    /\ all_chars is_digit_or_dot g = true
    /\ all_chars is_space ws2 = true
    /\ lower_string u = "ms"%string.

(** [raw] contains [w], which is [bytes from] up to letter case. *)
Definition has_reply_marker (raw : string) : Prop :=
  exists pre w post,
    raw = (pre ++ w ++ post)%string /\ lower_string w = "bytes from"%string.

(** [raw] contains a match of the round-trip-time pattern. *)
Definition has_time (raw : string) : Prop :=
  exists pre suf g rest, raw = (pre ++ suf)%string /\ time_regex suf g rest.

(** The object handed to the callback: [{ raw, alive, time_ms, ttl }];
    [None] is JavaScript's [null]. *)
Record ping_result : Type := {
  pr_raw : string;
  pr_alive : Z;
  pr_time_ms : option jsnum;
  pr_ttl : option jsnum
}.

(** Body of the [exec] callback of [runPingCommand]; the two servers have
    the same text.  The [err] argument of the callback is not consulted. *)
Definition runPingCommand (stdout stderr : string) : ping_result :=
  let raw := (stdout ++ stderr)%string in
  let time_ms :=
    match timeMatch raw with
    | Some g => Some (parseFloat g)
    | None => None
    end in
  let ttl :=
    match ttlMatch raw with
    | Some g => Some (parseInt10 g)
    | None => None
    end in
  let alive :=
    if (match timeMatch raw with Some _ => true | None => false end)
       || bytes_from_test raw
    then 1 else 0 in
  {| pr_raw := raw; pr_alive := alive; pr_time_ms := time_ms; pr_ttl := ttl |}.

(** ** Time-series store *)

(** A row of table [pings]; a nullable column is an [option]. *)
Record ping_row : Type := {
  p_id : Z;
  p_ts : Z;
  p_target : string;
  p_alive : option Z;
  p_time_ms : option jsnum;
  p_ttl : option jsnum;
  p_raw : string
}.

(** A row of table [traceroutes]. *)
Record trace_row : Type := {
  t_id : Z;
  t_ts : Z;
  t_target : string;
  t_raw : string
}.

(** Binding a JavaScript number to the REAL column [time_ms] or the
    INTEGER column [ttl]: [null] and NaN are stored as NULL, any other
    number as its value, an infinity included. *)
Definition bind_number (v : option jsnum) : option jsnum :=
  match v with
  | Some NaN => None
  | _ => v
  end.

Definition next_id (tbl : list ping_row) : Z :=
  1 + fold_right (fun r m => Z.max (p_id r) m) 0 tbl.

(** [INSERT INTO pings (ts,target,alive,time_ms,ttl,raw) VALUES (?,?,?,?,?,?)]
    with [[ts, target, res.alive, res.time_ms, res.ttl, res.raw]]. *)
Definition insert_ping (tbl : list ping_row) (ts : Z) (target : string)
    (res : ping_result) : list ping_row :=
  tbl ++ [ {| p_id := next_id tbl; p_ts := ts; p_target := target;
              p_alive := Some (pr_alive res);
              p_time_ms := bind_number (pr_time_ms res);
              p_ttl := bind_number (pr_ttl res);
              p_raw := pr_raw res |} ].

(** One tick of [startPingLoop] for [target], as [server.js] has it:
    probe, then [insertPingStmt.run].  ([server-sqlite3.js] under
    [src/backend] hands [db.run] the object [db.prepare] returned where
    the driver takes the SQL text; its loop is not this function.  The
    copy of that server which [install.sh] writes passes the text.) *)
Definition ping_tick (tbl : list ping_row) (ts : Z) (target : string)
    (stdout stderr : string) : list ping_row :=
  insert_ping tbl ts target (runPingCommand stdout stderr).

(** ** SQL building blocks *)

(** [ORDER BY]: a stable insertion sort on the scan order.  (SQLite
    leaves the order of rows with equal keys to the query plan; no
    statement below depends on it.) *)
Fixpoint insert_by {A : Type} (leb : A -> A -> bool) (x : A) (l : list A) : list A :=
  match l with
  | [] => [x]
  | y :: l' => if leb x y then x :: l else y :: insert_by leb x l'
  end.

Fixpoint order_by {A : Type} (leb : A -> A -> bool) (l : list A) : list A :=
  match l with
  | [] => []
  | x :: l' => insert_by leb x (order_by leb l')
  end.

(** [LIMIT n]: a negative [n] means no upper bound. *)
Definition sql_limit {A : Type} (n : Z) (l : list A) : list A :=
  if n <? 0 then l else firstn (Z.to_nat n) l.

(** [ts >= ?] against a bound number; NaN is bound as NULL and the
    comparison is then not true. *)
Definition ts_ge (ts : Z) (bound : jsnum) : bool :=
  match bound with
  | NaN => false
  | NegInf => true
  | PosInf => false
  | Fin q => Qle_bool q (inject_Z ts)
  end.

(** The value of a bound [LIMIT ?] parameter: an integer, or no value
    when the number is not an integer (SQLite then fails the statement). *)
Definition limit_value (l : jsnum) : option Z :=
  match l with
  | Fin q => if Qnum q mod Zpos (Qden q) =? 0
             then Some (Qnum q / Zpos (Qden q)) else None
  | _ => None
  end.

Definition ts_asc (a b : ping_row) : bool := p_ts a <=? p_ts b.
Definition ts_desc (a b : ping_row) : bool := p_ts b <=? p_ts a.
Definition tr_desc (a b : trace_row) : bool := t_ts b <=? t_ts a.

(** The statements the servers run, with their bound parameters. *)
Inductive statement : Type :=
| SelectPings (since limit : jsnum)
| SelectLatest (target : string)
| SelectTraces (limit : jsnum).

(** The database as the handlers see it: the two tables and, for each
    statement, whether the engine fails it (locked, I/O error, ...). *)
Record database : Type := {
  db_pings : list ping_row;
  db_traceroutes : list trace_row;
  db_fault : statement -> option string
}.

Inductive qresult (A : Type) : Type :=
| Rows (r : A)
| Failed (msg : string).
Arguments Rows {A} r.
Arguments Failed {A} msg.

(** [SELECT * FROM pings WHERE ts >= ? ORDER BY ts ASC LIMIT ?] *)
Definition select_pings (db : database) (since limit : jsnum)
    : qresult (list ping_row) :=
  match db_fault db (SelectPings since limit) with
  | Some m => Failed m
  | None =>
      match limit_value limit with
      | None => Failed "datatype mismatch"
      | Some n =>
          Rows (sql_limit n (order_by ts_asc
                  (filter (fun p => ts_ge (p_ts p) since) (db_pings db))))
      end
  end.

(** [SELECT * FROM pings WHERE target = ? ORDER BY ts DESC LIMIT 1]:
    [None] is the driver's [undefined] for an empty result. *)
Definition select_latest (db : database) (target : string)
    : qresult (option ping_row) :=
  match db_fault db (SelectLatest target) with
  | Some m => Failed m
  | None =>
      Rows (head (sql_limit 1 (order_by ts_desc
              (filter (fun p => String.eqb (p_target p) target) (db_pings db)))))
  end.

(** [SELECT * FROM traceroutes ORDER BY ts DESC LIMIT ?] *)
Definition select_traces (db : database) (limit : jsnum)
    : qresult (list trace_row) :=
  match db_fault db (SelectTraces limit) with
  | Some m => Failed m
  | None =>
      match limit_value limit with
      | None => Failed "datatype mismatch"
      | Some n => Rows (sql_limit n (order_by tr_desc (db_traceroutes db)))
      end
  end.

(** ** Query API *)

Definition TARGETS : list string :=
  ["google.com"; "8.8.8.8"; "1.1.1.1"; "frontier.com"; "192.168.2.1"]%string.

(** The JSON bodies the handlers build, one constructor per object
    literal of the source. *)
Inductive body : Type :=
| PingsBody (since : jsnum) (rows : list ping_row)
    (* { ok:true, since, rows } *)
| StatusBody (targets : list string) (latest : gmap string (option ping_row))
    (* { ok:true, targets: TARGETS, latest } *)
| TracesBody (rows : list trace_row)
    (* { ok:true, rows } *)
| ErrorBody (err : string).
    (* { ok:false, err: err.message } *)

(** The [ok] field of a body. *)
Definition ok (b : body) : bool :=
  match b with
  | ErrorBody _ => false
  | _ => true
  end.

(** The [err] field of a body, when it has one. *)
Definition err (b : body) : option string :=
  match b with
  | ErrorBody m => Some m
  | _ => None
  end.

Record response : Type := {
  status : Z;
  res_body : body
}.

(** [res.json(b)]: no handler sets a status, so it stays 200. *)
Definition res_json (b : body) : response := {| status := 200; res_body := b |}.

(** [parseFloat(req.query.hours)]: an absent parameter is [undefined],
    which [parseFloat] reads through its string form. *)
Definition parseFloat_param (p : option string) : jsnum :=
  match p with
  | Some s => parseFloat s
  | None => parseFloat "undefined"
  end.

(** [p || d] on an optional string: [undefined] and the empty string
    are falsy. *)
Definition str_or (p : option string) (d : string) : string :=
  match p with
  | Some s => if is_empty s then d else s
  | None => d
  end.

(** [const hours = parseFloat(req.query.hours) || 24;] *)
Definition hours_of (q_hours : option string) : jsnum :=
  js_or (parseFloat_param q_hours) (js_int 24).

(** [Math.max(1, hours) * 60 * 60 * 1000] *)
Definition window_ms (hours : jsnum) : jsnum :=
  js_mul (js_mul (js_mul (js_max (js_int 1) hours) (js_int 60)) (js_int 60))
         (js_int 1000).

(** [const since = Date.now() - Math.max(1, hours) * 60 * 60 * 1000;] *)
Definition since_of (now : Z) (q_hours : option string) : jsnum :=
  js_sub (js_int now) (window_ms (hours_of q_hours)).

(** [const limit = parseInt(req.query.limit || '200000', 10);] *)
Definition pings_limit_of (q_limit : option string) : jsnum :=
  parseInt10 (str_or q_limit "200000").

(** [const limit = parseInt(req.query.limit || '10', 10);] *)
Definition traces_limit_of (q_limit : option string) : jsnum :=
  parseInt10 (str_or q_limit "10").

(** [row || null] *)
Definition row_or_null (r : qresult (option ping_row)) : option ping_row :=
  match r with
  | Rows (Some row) => Some row
  | _ => None
  end.

(** *** server-sqlite3.js: callbacks receive [(err, rows)] *)
Module Sqlite3Server.

Definition get_api_pings (db : database) (now : Z)
    (q_hours q_limit : option string) : response :=
  let since := since_of now q_hours in
  let limit := pings_limit_of q_limit in
  match select_pings db since limit with
  | Failed m => res_json (ErrorBody m)
  | Rows rows => res_json (PingsBody since rows)
  end.

Definition get_api_traceroutes (db : database) (q_limit : option string)
    : response :=
  match select_traces db (traces_limit_of q_limit) with
  | Failed m => res_json (ErrorBody m)
  | Rows rows => res_json (TracesBody rows)
  end.

(** State shared by the [db.get] callbacks of one [/api/status]
    request: the [latest] object, the [processed] counter, and the
    responses written so far. *)
Record status_state : Type := {
  latest : gmap string (option ping_row);
  processed : Z;
  sent : list response
}.

Definition status_init : status_state :=
  {| latest := ∅; processed := 0; sent := [] |}.

(** The callback of [db.get] for [target]. *)
Definition status_callback (db : database) (st : status_state)
    (target : string) : status_state :=
  let processed' := processed st + 1 in
  let latest' := <[target := row_or_null (select_latest db target)]> (latest st) in
  {| latest := latest';
     processed := processed';
     sent := if processed' =? Z.of_nat (List.length TARGETS)
             then sent st ++ [res_json (StatusBody TARGETS latest')]
             else sent st |}.

(** One request: [TARGETS.forEach] issues one [db.get] per target; the
    callbacks then run once each, in the order [completion]. *)
Definition get_api_status (db : database) (completion : list string)
    : status_state :=
  fold_left (status_callback db) completion status_init.

End Sqlite3Server.

(** *** server.js: better-sqlite3 calls return the rows or throw *)
Module BetterSqlite3Server.

(** What running a handler does: it writes a response, or an exception
    leaves the handler (no handler has a [try]). *)
Inductive outcome : Type :=
| Responded (r : response)
| Threw (msg : string).

Definition get_api_pings (db : database) (now : Z)
    (q_hours q_limit : option string) : outcome :=
  let since := since_of now q_hours in
  let limit := pings_limit_of q_limit in
  match select_pings db since limit with
  | Failed m => Threw m
  | Rows rows => Responded (res_json (PingsBody since rows))
  end.

(** The [forEach] body, threaded over the targets visited so far. *)
Fixpoint status_loop (db : database) (targets : list string)
    (result : gmap string (option ping_row))
    : qresult (gmap string (option ping_row)) :=
  match targets with
  | [] => Rows result
  | t :: rest =>
      match select_latest db t with
      | Failed m => Failed m
      | Rows row => status_loop db rest (<[t := row_or_null (Rows row)]> result)
      end
  end.

Definition get_api_status (db : database) : outcome :=
  match status_loop db TARGETS ∅ with
  | Failed m => Threw m
  | Rows result => Responded (res_json (StatusBody TARGETS result))
  end.

Definition get_api_traceroutes (db : database) (q_limit : option string)
    : outcome :=
  match select_traces db (traces_limit_of q_limit) with
  | Failed m => Threw m
  | Rows rows => Responded (res_json (TracesBody rows))
  end.

End BetterSqlite3Server.

(** ** Dashboard: [buildAggregatedTimeline] and [renderTimeline] *)

(** A timeline bucket [{ok, total}]. *)
Record bucket : Type := {
  b_ok : Z;
  b_total : Z
}.

(** The fields of an entry of [/api/pings] the timeline reads. *)
Definition entry_alive_is_1 (e : ping_row) : bool :=
  match p_alive e with
  | Some a => a =? 1
  | None => false
  end.

(** [b.total++; if (e.alive === 1) b.ok++;] *)
Definition count_entry (e : ping_row) (b : bucket) : bucket :=
  {| b_ok := if entry_alive_is_1 e then b_ok b + 1 else b_ok b;
     b_total := b_total b + 1 |}.

Definition timeline_minutes : Z := 12 * 60.
Definition bucketSize : Z := 60 * 1000.

(** The [entries.forEach] body of [buildAggregatedTimeline]: the bucket
    array of the entry's target is updated in place at [idx]. *)
Definition add_entry (start : Z) (buckets : gmap string (list bucket))
    (e : ping_row) : gmap string (list bucket) :=
  let idx := (p_ts e - start) / bucketSize in
  if (idx <? 0) || (timeline_minutes <=? idx) then buckets
  else alter (alter (count_entry e) (Z.to_nat idx)) (p_target e) buckets.

Definition buildAggregatedTimeline (now : Z) (entries : list ping_row)
    : gmap string (list bucket) :=
  let start := now - timeline_minutes * bucketSize in
  let empty_row := repeat {| b_ok := 0; b_total := 0 |} (Z.to_nat timeline_minutes) in
  let buckets0 :=
    fold_left (fun m e => <[p_target e := empty_row]> m) entries ∅ in
  fold_left (add_entry start) entries buckets0.

(** The class [renderTimeline] adds to the segment of one bucket. *)
Definition segment_class (b : bucket) : string :=
  if b_total b =? 0 then "warning"
  else
    let ratio := (inject_Z (b_ok b) / inject_Z (b_total b))%Q in
    if Qle_bool (9 # 10) ratio then "success"
    else if Qle_bool (5 # 10) ratio then "warning"
    else "fail".

(** ** Daily CSV export: [export_daily_csv.sh]

    The script runs under [set -euo pipefail].  Past the setting of its
    variables it has three commands that matter: [read -r -d '' SQL] on a
    here-document, [sqlite3 -header -csv] on the text read, its output
    redirected to [${OUTFILE}], and the summary.  [sqlite3] is a program
    outside the repository: the model takes what it does as a
    parameter. *)

(** What [$((...))] expands to: the number in base ten. *)
Definition int_digits (n : Z) : string :=
  NilZero.string_of_uint (N.to_uint (Z.to_N n)).

Definition dec (n : Z) : string :=
  if n <? 0 then String "-"%char (int_digits (- n)) else int_digits n.

(** Line 15, as the script has it: the text, outer parentheses included. *)
Definition TARGETS_SQL : string :=
  "(VALUES ('google.com'),('8.8.8.8'),('1.1.1.1'),('frontier.com'),('192.168.2.1'))".

Definition newline : ascii := ascii_of_nat 10.

Fixpoint unlines (ls : list string) : string :=
  match ls with
  | [] => EmptyString
  | l :: r => (l ++ String newline (unlines r))%string
  end.

(** The here-document of lines 35 to 84 after expansion of
    [${START_MS}], [${END_MS}] and [${TARGETS_SQL}]. *)
Definition export_sql (start_ms end_ms : Z) : string :=
  unlines
    [
      "-- header row added by sqlite3 -header -csv";
      "WITH";
      "  -- generate 1440 minutes starting from START_MS";
      "  RECURSIVE minutes(idx, ts) AS (";
      "    SELECT 0, " ++ dec start_ms;
      "    UNION ALL";
      "    SELECT idx+1, ts + 60000 FROM minutes WHERE idx < 1439";
      "  ),";
      EmptyString;
      "  -- targets set";
      "  targets(t) AS (";
      "    " ++ TARGETS_SQL;
      "  ),";
      EmptyString;
      "  -- aggregated ping stats per-minute per-target within the requested window";
      "  agg AS (";
      "    SELECT";
      "      ( (p.ts / 60000) " ++ "*" ++ " 60000 ) AS minute_ts,";
      "      p.target AS target,";
      "      COUNT(" ++ "*" ++ ") AS total,";
      "      SUM(CASE WHEN p.alive = 1 THEN 1 ELSE 0 END) AS success_count,";
      "      AVG(p.time_ms) AS avg_ms";
      "    FROM pings p";
      "    WHERE p.ts >= " ++ dec start_ms ++ " AND p.ts < " ++ dec end_ms;
      "    GROUP BY minute_ts, p.target";
      "  )";
      EmptyString;
      "SELECT";
      "  datetime(m.ts/1000, 'unixepoch', 'localtime') AS minute,";
      "  t.t AS target,";
      "  COALESCE(a.success_count, 0) AS success_count,";
      "  COALESCE(a.total, 0) AS total,";
      "  CASE";
      "    WHEN COALESCE(a.total,0) = 0 THEN '0.000'";
      "    ELSE printf('%.3f', COALESCE(a.success_count,0) " ++ "*" ++ " 1.0 / a.total)";
      "  END AS success_ratio,";
      "  CASE";
      "    WHEN a.avg_ms IS NULL THEN ''";
      "    ELSE printf('%.2f', a.avg_ms)";
      "  END AS avg_ms,";
      "  CASE";
      "    WHEN COALESCE(a.total,0) = 0 THEN 'no_data'";
      "    WHEN COALESCE(a.success_count,0) " ++ "*" ++ " 1.0 / a.total >= 0.9 THEN 'UP'";
      "    WHEN COALESCE(a.success_count,0) " ++ "*" ++ " 1.0 / a.total >= 0.5 THEN 'DEGRADED'";
      "    ELSE 'DOWN'";
      "  END AS result";
      "FROM minutes m";
      "CROSS JOIN targets t";
      "LEFT JOIN agg a ON a.minute_ts = m.ts AND a.target = t.t";
      "ORDER BY m.ts ASC, t.t ASC;"
    ]%string.

Definition is_nul (c : ascii) : bool := code c =? 0.

(** The characters of the default [IFS]: space, tab, newline. *)
Definition is_ifs (c : ascii) : bool :=
  (code c =? 32) || (code c =? 9) || (code c =? 10).

Fixpoint rev_append_string (s acc : string) : string :=
  match s with
  | EmptyString => acc
  | String c r => rev_append_string r (String c acc)
  end.

Definition rev_string (s : string) : string := rev_append_string s EmptyString.

Definition trim_ifs (s : string) : string :=
  rev_string (drop_while is_ifs (rev_string (drop_while is_ifs s))).

(** [read -r -d '' VAR] on the input [input]: the characters up to the
    first NUL are taken; the status is 0 when that delimiter was met and
    1 when the input ended before it.  The variable holds what was taken,
    without the [IFS] characters at its two ends. *)
Definition read_d_nul (input : string) : Z * string :=
  let taken := take_while (fun c => negb (is_nul c)) input in
  let rest := drop_while (fun c => negb (is_nul c)) input in
  (if is_empty rest then 1 else 0, trim_ifs taken).

(** How a run of the script ends: its exit status, and what the run
    wrote to [${OUTFILE}] ([None] when the redirection was not reached). *)
Record script_end : Type := {
  se_status : Z;
  se_outfile : option string
}.

(** The script from line 21 on, for the day that starts at [start_s]
    seconds.  [sqlite3_csv sql pings] is the exit status of [sqlite3] and
    what it prints for the text [sql] on a database with the table
    [pings].  Under [set -e] a command with a status other than 0 ends
    the script with that status. *)
Definition export_daily_csv (sqlite3_csv : string -> list ping_row -> Z * string)
    (start_s : Z) (pings : list ping_row) : script_end :=
  let start_ms := start_s * 1000 in
  let end_ms := (start_s + 24 * 60 * 60) * 1000 in
  let '(rc, SQL) := read_d_nul (export_sql start_ms end_ms) in
  if negb (rc =? 0) then {| se_status := rc; se_outfile := None |}
  else
    let '(rc', out) := sqlite3_csv SQL pings in
    if negb (rc' =? 0) then {| se_status := rc'; se_outfile := Some out |}
    else {| se_status := 0; se_outfile := Some out |}.

(** The lines of a text. *)
Fixpoint lines_from (cur : string) (s : string) : list string :=
  match s with
  | EmptyString => if is_empty cur then [] else [rev_string cur]
  | String c r =>
      if Ascii.eqb c newline then rev_string cur :: lines_from EmptyString r
      else lines_from (String c cur) r
  end.

(** The data rows of the report a run leaves: the lines below the
    header line, none when the run wrote no report. *)
Definition data_rows (e : script_end) : list string :=
  match se_outfile e with
  | None => []
  | Some out => tl (lines_from EmptyString out)
  end.

(** ** Failure report: the SQL of [generate-failures-report.sh] *)

Definition TOL_MS : Z := 1500.
Definition TARGET_KEY : string := "1.1.1.1".
Definition TARGETS_OTHER : list string :=
  ["8.8.8.8"; "google.com"; "frontier.com"; "192.168.2.1"]%string.

(** [p2.ts BETWEEN f.ts - TOL AND f.ts + TOL] *)
Definition within_tol (tol f_ts : Z) (p2 : ping_row) : bool :=
  (f_ts - tol <=? p_ts p2) && (p_ts p2 <=? f_ts + tol).

(** [p.alive = v] in a WHERE clause: not true on NULL. *)
Definition alive_is (v : Z) (p : ping_row) : bool :=
  match p_alive p with
  | Some a => a =? v
  | None => false
  end.

(** [EXISTS (SELECT 1 FROM pings p2 WHERE p2.target = tgt AND p2.ts
    BETWEEN f.ts - TOL AND f.ts + TOL AND p2.alive = v)] *)
Definition exists_near (tol : Z) (pings : list ping_row) (f_ts : Z)
    (tgt : string) (v : Z) : bool :=
  existsb (fun p2 => String.eqb (p_target p2) tgt && within_tol tol f_ts p2
                     && alive_is v p2) pings.

(** One [CASE ... END] column. *)
Definition other_case (tol : Z) (pings : list ping_row) (f_ts : Z)
    (tgt : string) : string :=
  if exists_near tol pings f_ts tgt 1 then "success"
  else if exists_near tol pings f_ts tgt 0 then "fail"
  else "no_data".

(** A data row: the argument of [datetime()], the key column, and the
    four CASE columns paired with the target each one names (the last
    one is headed "Local DNS" in the file). *)
Record failure_row : Type := {
  f_datetime : Z;
  f_key : string;
  f_others : list (string * string)
}.

(** [f.target = '1.1.1.1' AND f.alive = 0 AND f.ts >= START_MS AND
    f.ts < END_MS] *)
Definition is_key_failure (start_ms end_ms : Z) (f : ping_row) : bool :=
  String.eqb (p_target f) TARGET_KEY && alive_is 0 f
  && (start_ms <=? p_ts f) && (p_ts f <? end_ms).

(** The SELECT list, for one row [f] of the outer query. *)
Definition failure_columns (tol : Z) (pings : list ping_row) (f : ping_row)
    : failure_row :=
  {| f_datetime := Z.quot (p_ts f) 1000;
     f_key := "fail";
     f_others := map (fun t => (t, other_case tol pings (p_ts f) t))
                     TARGETS_OTHER |}.

Definition failures_select (tol start_ms end_ms : Z) (pings : list ping_row)
    : list failure_row :=
  map (failure_columns tol pings)
      (order_by ts_asc (filter (is_key_failure start_ms end_ms) pings)).

Definition generate_failures_report (start_s : Z) (pings : list ping_row)
    : list failure_row :=
  failures_select TOL_MS (start_s * 1000) ((start_s + 24 * 60 * 60) * 1000) pings.

(** ** Binary64 by the standard library

    [SpecFloat] has the IEEE operations on a representation of the
    floats.  They serve as a second opinion: on the comparison of
    [renderTimeline], computed above on rationals, and on [to_double]. *)
Module Binary64.

Definition prec : Z := 53.
Definition emax : Z := 1024.

Definition of_Z (n : Z) : spec_float := binary_normalize prec emax n 0 false.
Definition div (x y : spec_float) : spec_float := SFdiv prec emax x y.
Definition mul (x y : spec_float) : spec_float := SFmul prec emax x y.

Definition lit_0_9 : spec_float := div (of_Z 9) (of_Z 10).
Definition lit_0_5 : spec_float := div (of_Z 5) (of_Z 10).

(** [renderTimeline] on doubles: [bucket.ok / bucket.total]. *)
Definition segment_class_b64 (b : bucket) : string :=
  if b_total b =? 0 then "warning"
  else
    let ratio := div (of_Z (b_ok b)) (of_Z (b_total b)) in
    if SFleb lit_0_9 ratio then "success"
    else if SFleb lit_0_5 ratio then "warning"
    else "fail".

(** The class computed on doubles is the class computed on rationals,
    on every pair of counts [0 <= ok <= total <= n]. *)
Definition agree_upto (n : nat) : bool :=
  forallb (fun t =>
    forallb (fun s =>
      String.eqb (segment_class_b64 {| b_ok := Z.of_nat s; b_total := Z.of_nat t |})
                 (segment_class {| b_ok := Z.of_nat s; b_total := Z.of_nat t |}))
      (seq 0 (S t)))
    (seq 0 (S n)).

(** The number a float denotes. *)
Definition value (f : spec_float) : jsnum :=
  match f with
  | S754_zero _ => Fin 0
  | S754_infinity s => if s then NegInf else PosInf
  | S754_nan => NaN
  | S754_finite s m e =>
      let mag := if 0 <=? e then inject_Z (Zpos m * 2 ^ e)
                 else Qmake (Zpos m) (Z.to_pos (2 ^ (- e))) in
      Fin (Qred (if s then - mag else mag))
  end.

(** The quotient of numerator by denominator, rounded by [SFdiv]. *)
Definition round (x : Q) : jsnum :=
  match Qnum x with
  | Z0 => Fin 0
  | Zpos n => value (SFdiv prec emax (S754_finite false n 0)
                                     (S754_finite false (Qden x) 0))
  | Zneg n => value (SFdiv prec emax (S754_finite true n 0)
                                     (S754_finite false (Qden x) 0))
  end.

Definition same (a b : jsnum) : bool :=
  match a, b with
  | NaN, NaN | NegInf, NegInf | PosInf, PosInf => true
  | Fin p, Fin q => (Qnum p =? Qnum q) && Pos.eqb (Qden p) (Qden q)
  | _, _ => false
  end.

(** Numerals at which rounding is delicate: ties, the subnormal range and
    its lower edge, the largest double and the overflow threshold, a
    numeral of 23 digits, and everyday values. *)
Definition samples : list Q :=
  [ 1 # 10; 12 # 1; 200000 # 1; 1 # 3; (-1) # 3; 5 # 10; 57 # 1;
    19999999999999 # 10000000000000;
    1 # (Pos.pow 10 400); inject_Z (10 ^ 310); - inject_Z (10 ^ 310);
    inject_Z (2 ^ 53 + 1); inject_Z (2 ^ 53 + 3);
    inject_Z (2 ^ 54 + 2); inject_Z (2 ^ 54 + 6);
    inject_Z (2 ^ 1024 - 2 ^ 970); inject_Z (2 ^ 1024 - 2 ^ 970 - 1);
    inject_Z (2 ^ 1024);
    1 # (Pos.pow 2 1074); 1 # (Pos.pow 2 1075); 3 # (Pos.pow 2 1075);
    1 # (Pos.pow 2 1076); 5 # (Pos.pow 2 1076);
    (2 ^ 53 - 1) # (Pos.pow 2 1075); (2 ^ 53 + 1) # (Pos.pow 2 1126);
    49 # (Pos.pow 10 324); 25 # (Pos.pow 10 324);
    22250738585072014 # (Pos.pow 10 324);
    987 # 100; 39615 # 1000; inject_Z 99999999999999999999999;
    123456789012345678 # 1 ]%Q.

(** A result, rounded as an operation on doubles rounds it. *)
Definition rounded (x : jsnum) : jsnum :=
  match x with
  | Fin q => to_double q
  | _ => x
  end.

(** [Math.max(1, hours) * 60 * 60 * 1000] and [Date.now() - ...] with
    each product and the difference rounded. *)
Definition window_ms_b64 (hours : jsnum) : jsnum :=
  rounded (js_mul
    (rounded (js_mul (rounded (js_mul (js_max (js_int 1) hours) (js_int 60)))
                     (js_int 60)))
    (js_int 1000)).

Definition since_b64 (now : Z) (q_hours : option string) : jsnum :=
  rounded (js_sub (js_int now) (window_ms_b64 (hours_of q_hours))).

End Binary64.

(** ** Notions used in the statements *)

(** What holds of every row the ping loop stores: [alive] is 0 or 1, and
    a row with [alive = 0] has no latency. *)
Definition row_invariant (r : ping_row) : Prop :=
  (p_alive r = Some 0 \/ p_alive r = Some 1)
  /\ (p_alive r = Some 0 -> p_time_ms r = None).

(** An [hours] value that lies below 1. *)
Definition below_one (h : jsnum) : Prop :=
  match h with
  | Fin q => (q < 1)%Q
  | NegInf => True
  | _ => False
  end.

(** What a successful [/api/pings] answer of either server is. *)
Definition pings_answer (db : database) (now : Z) (q_hours q_limit : option string)
    (since : jsnum) (rows : list ping_row) : Prop :=
  Sqlite3Server.get_api_pings db now q_hours q_limit = res_json (PingsBody since rows)
  \/ BetterSqlite3Server.get_api_pings db now q_hours q_limit
     = BetterSqlite3Server.Responded (res_json (PingsBody since rows)).

(** The four health states of the specification. *)
Inductive health : Type := UP | DEGRADED | DOWN | NO_DATA.

(** The classification rule in the words of the specification: no data
    for a bucket without samples, else by the ratio of successes. *)
Definition spec_classification (success total : Z) : health :=
  if total =? 0 then NO_DATA
  else
    let ratio := (inject_Z success / inject_Z total)%Q in
    if Qle_bool (9 # 10) ratio then UP
    else if Qle_bool (5 # 10) ratio then DEGRADED
    else DOWN.

(** What holds of the timeline buckets: every target has one bucket per
    minute, and in a bucket [ok] counts some of the [total] samples. *)
Definition buckets_ok (m : gmap string (list bucket)) : Prop :=
  forall (t : string) (l : list bucket),
    m !! t = Some l ->
    List.length l = Z.to_nat timeline_minutes
    /\ Forall (fun b => 0 <= b_ok b <= b_total b) l.

(** ** Sample data *)

(** An engine that fails no statement. *)
Definition healthy (_ : statement) : option string := None.

(** A stored sample with the given columns. *)
Definition demo_row (ts : Z) (target : string) (alive : Z) (ms : option Q) : ping_row :=
  {| p_id := 0; p_ts := ts; p_target := target; p_alive := Some alive;
     p_time_ms := option_map Fin ms; p_ttl := None; p_raw := "raw" |}.

(** Two samples, stored out of timestamp order. *)
Definition demo_db : database :=
  {| db_pings := [ demo_row 1699999999000 "8.8.8.8" 1 (Some (12 # 1));
                   demo_row 1699999998000 "1.1.1.1" 0 None ];
     db_traceroutes := [];
     db_fault := healthy |}.

(** A database whose engine fails every statement. *)
Definition broken_db : database :=
  {| db_pings := db_pings demo_db;
     db_traceroutes := [];
     db_fault := fun _ => Some "database is locked"%string |}.

(** Three samples of one target in the first minute of a day. *)
Definition demo_pings : list ping_row :=
  [ demo_row 1700006400000 "8.8.8.8" 1 (Some (12 # 1));
    demo_row 1700006401000 "8.8.8.8" 1 (Some (25 # 2));
    demo_row 1700006402000 "8.8.8.8" 0 None ].

(** The scenario of the specification: a key failure at [t0], and for
    one other target a live and a dead sample at [t0 + 1000]. *)
Definition precedence_pings : list ping_row :=
  [ demo_row 1700006405000 "1.1.1.1" 0 None;
    demo_row 1700006406000 "8.8.8.8" 0 None;
    demo_row 1700006406000 "8.8.8.8" 1 (Some (9 # 1));
    demo_row 1700006402000 "google.com" 0 None;
    demo_row 1700006401000 "1.1.1.1" 0 None ].

(** * Part I, continued. Loops, dashboard rendering, script control flow *)

(** ** The ping loop over time *)

(** One completed probe of [startPingLoop] whose row was inserted: the
    time read when the interval fired, the target, and what [ping] wrote. *)
Record tick : Type := {
  k_ts : Z;
  k_target : string;
  k_stdout : string;
  k_stderr : string
}.

(** The table after the probes of [ticks] have completed, in that order. *)
Definition run_ticks (tbl : list ping_row) (ticks : list tick) : list ping_row :=
  fold_left (fun tb k => ping_tick tb (k_ts k) (k_target k) (k_stdout k) (k_stderr k))
            ticks tbl.

(** ** Dashboard: [renderFailures] and [renderGlobalIndicator] *)

(** [e.alive === 0] *)
Definition entry_alive_is_0 (e : ping_row) : bool :=
  match p_alive e with
  | Some a => a =? 0
  | None => false
  end.

(** [a.slice(-n)] on an array. *)
Definition slice_last {A : Type} (n : nat) (l : list A) : list A :=
  skipn (List.length l - n) l.

(** [entries.filter(e => e.alive === 0).slice(-50).reverse()] *)
Definition failures_shown (entries : list ping_row) : list ping_row :=
  rev (slice_last 50 (filter entry_alive_is_0 entries)).

(** One [failure-item]: the target, the timestamp handed to [Date], and
    [(f.raw || '').slice(0,800)]. *)
Record failure_item : Type := {
  fi_target : string;
  fi_ts : Z;
  fi_raw : string
}.

Definition failure_item_of (f : ping_row) : failure_item :=
  {| fi_target := p_target f; fi_ts := p_ts f;
     fi_raw := String.substring 0 800 (p_raw f) |}.

(** What [renderFailures] puts in the container: the placeholder text,
    or one item per failure shown. *)
Inductive failures_view : Type :=
| NoFailures
| FailureItems (items : list failure_item).

Definition renderFailures (entries : list ping_row) : failures_view :=
  match failures_shown entries with
  | [] => NoFailures
  | fs => FailureItems (map failure_item_of fs)
  end.

(** The two variables of [renderGlobalIndicator]. *)
Record indicator : Type := {
  anyDown : bool;
  lastTs : Z
}.

(** The body of [Object.values(latest).forEach]. *)
Definition indicator_step (st : indicator) (r : option ping_row) : indicator :=
  match r with
  | None => {| anyDown := true; lastTs := lastTs st |}
  | Some row =>
      {| anyDown := if entry_alive_is_0 row then true else anyDown st;
         lastTs := if negb (p_ts row =? 0) && (lastTs st <? p_ts row)
                   then p_ts row else lastTs st |}
  end.

Definition renderGlobalIndicator (values : list (option ping_row)) : indicator :=
  fold_left indicator_step values {| anyDown := false; lastTs := 0 |}.

(** [text.textContent] *)
Definition indicator_text (i : indicator) : string :=
  if anyDown i then "Internet: DOWN" else "Internet: UP".

(** [Object.values] of the [latest] object of a status answer. *)
Definition Object_values (latest : gmap string (option ping_row))
    : list (option ping_row) :=
  map snd (map_to_list latest).

(** ** Dashboard: [refreshAll] *)

(** [pingsResp.rows || []] on an answer of [/api/pings]: the error body
    has no [rows]. *)
Definition rows_or_empty (b : body) : list ping_row :=
  match b with
  | PingsBody _ rows => rows
  | _ => []
  end.

(** The entries [refreshAll] renders, with the sqlite3 server: the rows
    of [/api/pings?hours=12]. *)
Definition refresh_entries (db : database) (now : Z) : list ping_row :=
  rows_or_empty (res_body (Sqlite3Server.get_api_pings db now (Some "12"%string) None)).

(** The twelve hours of the request, in milliseconds. *)
Definition twelve_hours : Z := 12 * 60 * 60 * 1000.

(** The stored samples the request of [refreshAll] selects. *)
Definition refresh_window (db : database) (now : Z) : list ping_row :=
  filter (fun p => now - twelve_hours <=? p_ts p) (db_pings db).

(** ** Dashboard: the bucket of an entry *)

(** [Math.floor((e.ts - start) / bucketSize)] *)
Definition bucket_index (start : Z) (e : ping_row) : Z :=
  (p_ts e - start) / bucketSize.

(** The entry is of target [t] and falls in bucket number [i]. *)
Definition in_bucket (start : Z) (t : string) (i : nat) (e : ping_row) : bool :=
  String.eqb (p_target e) t && (bucket_index start e =? Z.of_nat i).

Definition count_if {A : Type} (f : A -> bool) (l : list A) : Z :=
  Z.of_nat (List.length (filter f l)).

(** ** Failure report: the retry loop of the script *)

(** What one run of [sqlite3] leaves: its exit status, what it wrote to
    the temporary output and to the error file. *)
Record attempt_outcome : Type := {
  o_rc : Z;
  o_stdout : string;
  o_stderr : string
}.

(** [grep -qi "database is locked"] *)
Definition says_locked (stderr : string) : bool :=
  match first_match (ci_strip "database is locked") stderr with
  | Some _ => true
  | None => false
  end.

(** How the script ends: the report is moved in place, the script exits
    with the status of a failed attempt, or it gives up with status 1.
    [slept] is the number of seconds spent in [sleep]. *)
Inductive report_end : Type :=
| Published (attempt : Z) (content : string) (slept : Z)
| Aborted (rc : Z) (slept : Z)
| GaveUp (slept : Z).

(** The [for attempt in $(seq 1 $ATTEMPTS)] loop, from attempt number
    [attempt], over the outcomes of the attempts still to run. *)
Fixpoint retry_loop (attempt : Z) (outcomes : list attempt_outcome) (slept : Z)
    : report_end :=
  match outcomes with
  | [] => GaveUp slept
  | o :: rest =>
      if o_rc o =? 0 then Published attempt (o_stdout o) slept
      else if says_locked (o_stderr o)
      then retry_loop (attempt + 1) rest (slept + attempt * 2)
      else if negb (is_empty (o_stderr o)) then Aborted (o_rc o) slept
      else retry_loop (attempt + 1) rest slept
  end.

Definition ATTEMPTS : nat := 5.

(** The loop of the script; [outcome_of i] is what run number [i + 1] of
    [sqlite3] leaves, should the loop get to it. *)
Definition run_report (outcome_of : nat -> attempt_outcome) : report_end :=
  retry_loop 1 (map outcome_of (seq 0 ATTEMPTS)) 0.

(** The report file after the script, given the file before it: [mv -f]
    is reached only past the loop with [RC] 0. *)
Definition report_file (before : option string) (e : report_end) : option string :=
  match e with
  | Published _ content _ => Some content
  | _ => before
  end.

(** The exit status of the script: [exit "${RC}"] in the loop, [exit 1]
    after it, 0 at the end. *)
Definition exit_status (e : report_end) : Z :=
  match e with
  | Published _ _ _ => 0
  | Aborted rc _ => rc
  | GaveUp _ => 1
  end.

(** ** Retention: [prune.sh] *)

(** [DELETE FROM pings WHERE ts < (now_s - 7*24*60*60)*1000] *)
Definition prune_pings (now_s : Z) (tbl : list ping_row) : list ping_row :=
  filter (fun p => negb (p_ts p <? (now_s - 7 * 24 * 60 * 60) * 1000)) tbl.

(** [DELETE FROM traceroutes WHERE ts < (now_s - 14*24*60*60)*1000] *)
Definition prune_traceroutes (now_s : Z) (tbl : list trace_row) : list trace_row :=
  filter (fun r => negb (t_ts r <? (now_s - 14 * 24 * 60 * 60) * 1000)) tbl.

(** The script: both statements run when [[[ -f "$DB" ]]] holds, each with
    its own reading of [date +%s]; otherwise nothing is done.  [$DB] is
    built from [$INSTALL_DIR] as the environment of the run has it. *)
Definition prune_sh (db_is_file : bool) (now_p now_t : Z) (db : database) : database :=
  if db_is_file
  then {| db_pings := prune_pings now_p (db_pings db);
          db_traceroutes := prune_traceroutes now_t (db_traceroutes db);
          db_fault := db_fault db |}
  else db.

(** ** Notions used in further statements *)

(** What a successful [/api/traceroutes] answer of either server is. *)
Definition traces_answer (db : database) (q_limit : option string)
    (rows : list trace_row) : Prop :=
  Sqlite3Server.get_api_traceroutes db q_limit = res_json (TracesBody rows)
  \/ BetterSqlite3Server.get_api_traceroutes db q_limit
     = BetterSqlite3Server.Responded (res_json (TracesBody rows)).

(** The rank of a report cell: no data, fail, success. *)
Definition cell_rank (v : string) : Z :=
  if String.eqb v "success" then 2 else if String.eqb v "fail" then 1 else 0.

(** An entry of [latest] that turns the indicator to DOWN: [null], or a
    row with [alive === 0]. *)
Definition is_down (r : option ping_row) : bool :=
  match r with
  | None => true
  | Some row => entry_alive_is_0 row
  end.

(** An attempt that fails without the script giving up at once: its
    error text names the lock, or it has no error text. *)
Definition retried (o : attempt_outcome) : Prop :=
  o_rc o <> 0 /\ (says_locked (o_stderr o) = true \/ o_stderr o = EmptyString).

(** ** Further sample data *)

(** Two completed probes, the later-started one first. *)
Definition demo_ticks : list tick :=
  [ {| k_ts := 1700006401200; k_target := "8.8.8.8";
       k_stdout := "64 bytes from 8.8.8.8: icmp_seq=1 ttl=117 time=9.87 ms";
       k_stderr := EmptyString |};
    {| k_ts := 1700006400400; k_target := "1.1.1.1";
       k_stdout := EmptyString;
       k_stderr := "ping: connect: Network is unreachable" |} ].

(** Two stored traces of one target, five minutes apart. *)
Definition traces_db : database :=
  {| db_pings := [];
     db_traceroutes :=
       [ {| t_id := 1; t_ts := 1700000000000; t_target := "1.1.1.1"; t_raw := "a" |};
         {| t_id := 2; t_ts := 1700000300000; t_target := "1.1.1.1"; t_raw := "b" |} ];
     db_fault := healthy |}.

(** A lock that is gone at the third attempt. *)
Definition lock_clears (i : nat) : attempt_outcome :=
  match i with
  | 0%nat => {| o_rc := 5; o_stdout := EmptyString;
                o_stderr := "Error: database is locked" |}
  | 1%nat => {| o_rc := 5; o_stdout := EmptyString;
                o_stderr := "Runtime error: Database Is Locked (5)" |}
  | _ => {| o_rc := 0; o_stdout := "datetime,1.1.1.1"; o_stderr := EmptyString |}
  end.

(** A sample of another target one second before the day of a failure. *)
Definition edge_pings : list ping_row :=
  [ demo_row 1700006399000 "8.8.8.8" 1 (Some (12 # 1));
    demo_row 1700006400000 "1.1.1.1" 0 None ].


(* ================================================================== *)
(** * Part II. Properties *)
(* ================================================================== *)

(** String concatenation is left to [simpl] in the proofs below. *)
#[local] Arguments String.append !s1 s2 : simpl nomatch.

(** ** ORDER BY and LIMIT *)

Section OrderBy.
Context {A : Type} (leb : A -> A -> bool).

Lemma insert_by_perm (x : A) (l : list A) :
  Permutation (x :: l) (insert_by leb x l).
Proof.
  induction l as [|y l IH]; simpl.
  - apply Permutation_refl.
  - destruct (leb x y).
    + apply Permutation_refl.
    + eapply perm_trans; [apply perm_swap|].
      apply perm_skip, IH.
Qed.

Lemma order_by_perm (l : list A) : Permutation l (order_by leb l).
Proof.
  induction l as [|x l IH]; simpl.
  - apply perm_nil.
  - eapply perm_trans; [apply perm_skip, IH | apply insert_by_perm].
Qed.

Lemma order_by_length (l : list A) :
  List.length (order_by leb l) = List.length l.
Proof. symmetry. apply Permutation_length, order_by_perm. Qed.

Lemma order_by_In (x : A) (l : list A) : In x (order_by leb l) <-> In x l.
Proof.
  split; intro H.
  - eapply Permutation_in; [apply Permutation_sym, order_by_perm | exact H].
  - eapply Permutation_in; [apply order_by_perm | exact H].
Qed.

Hypothesis leb_total : forall x y, leb x y = true \/ leb y x = true.
Hypothesis leb_trans :
  forall x y z, leb x y = true -> leb y z = true -> leb x z = true.

Lemma insert_by_sorted (x : A) (l : list A) :
  StronglySorted (fun x y => leb x y = true) l -> StronglySorted (fun x y => leb x y = true) (insert_by leb x l).
Proof.
  induction 1 as [|y l Hs IH Hall]; simpl.
  - constructor; constructor.
  - destruct (leb x y) eqn:Hxy.
    + constructor.
      * constructor; assumption.
      * constructor; [exact Hxy|].
        rewrite Forall_forall in *. intros z Hz.
        eapply leb_trans; [exact Hxy | apply Hall, Hz].
    + constructor; [exact IH|].
      rewrite Forall_forall in *. intros z Hz.
      apply (Permutation_in _ (Permutation_sym (insert_by_perm x l))) in Hz.
      destruct Hz as [<- | Hz].
      * destruct (leb_total x y) as [E | E]; [congruence | exact E].
      * apply Hall, Hz.
Qed.

Lemma order_by_sorted (l : list A) : StronglySorted (fun x y => leb x y = true) (order_by leb l).
Proof.
  induction l as [|x l IH]; simpl.
  - constructor.
  - apply insert_by_sorted, IH.
Qed.
End OrderBy.

Lemma firstn_In {A : Type} (n : nat) (l : list A) (x : A) :
  In x (firstn n l) -> In x l.
Proof.
  revert l. induction n as [|n IH]; intros [|y l]; simpl; try tauto.
  intros [E | H]; [left; exact E | right; apply IH, H].
Qed.

Lemma StronglySorted_firstn {A : Type} (R : A -> A -> Prop) (n : nat) (l : list A) :
  StronglySorted R l -> StronglySorted R (firstn n l).
Proof.
  intros H. revert n. induction H as [|x l Hs IH Hall]; intros [|n]; simpl;
    try constructor.
  - apply IH.
  - rewrite Forall_forall in *. intros y Hy. apply Hall.
    eapply firstn_In. exact Hy.
Qed.

Lemma sql_limit_sorted {A : Type} (R : A -> A -> Prop) (n : Z) (l : list A) :
  StronglySorted R l -> StronglySorted R (sql_limit n l).
Proof.
  intros H. unfold sql_limit. destruct (n <? 0); [exact H|].
  apply StronglySorted_firstn, H.
Qed.

Lemma sql_limit_length {A : Type} (n : Z) (l : list A) :
  0 <= n -> Z.of_nat (List.length (sql_limit n l)) <= n.
Proof.
  intros Hn. unfold sql_limit.
  destruct (n <? 0) eqn:E; [apply Z.ltb_lt in E; lia|].
  rewrite length_firstn. lia.
Qed.

Lemma sql_limit_In {A : Type} (n : Z) (l : list A) (x : A) :
  In x (sql_limit n l) -> In x l.
Proof.
  unfold sql_limit. destruct (n <? 0); [tauto|]. apply firstn_In.
Qed.

Lemma StronglySorted_weaken {A : Type} (R S : A -> A -> Prop) (l : list A) :
  (forall a b, R a b -> S a b) -> StronglySorted R l -> StronglySorted S l.
Proof.
  intros HRS. induction 1 as [|x l Hs IH Hall]; constructor; [exact IH|].
  eapply Forall_impl; [|exact Hall]. intros b. apply HRS.
Qed.

Lemma ts_asc_sorted (l : list ping_row) :
  StronglySorted (fun a b => p_ts a <= p_ts b) (order_by ts_asc l).
Proof.
  eapply StronglySorted_weaken; [| apply (order_by_sorted ts_asc)].
  - intros a b H. apply Z.leb_le, H.
  - intros x y. unfold ts_asc. rewrite !Z.leb_le. lia.
  - intros x y z. unfold ts_asc. rewrite !Z.leb_le. lia.
Qed.

(** ** The patterns of the ping parser *)

Lemma take_drop_while (f : ascii -> bool) (s : string) :
  s = (take_while f s ++ drop_while f s)%string
  /\ all_chars f (take_while f s) = true.
Proof.
  induction s as [|c s [IH1 IH2]]; simpl; [split; reflexivity|].
  destruct (f c) eqn:E; simpl.
  - rewrite <- IH1, E, IH2. split; reflexivity.
  - split; reflexivity.
Qed.

Lemma drop_while_stops (f : ascii -> bool) (s : string) : stops f (drop_while f s).
Proof.
  induction s as [|c s IH]; simpl; [exact I|].
  destruct (f c) eqn:E; [exact IH | exact E].
Qed.

Lemma span_append (f : ascii -> bool) (w t : string) :
  all_chars f w = true -> stops f t ->
  take_while f (w ++ t) = w /\ drop_while f (w ++ t) = t.
Proof.
  intros Hw Ht. induction w as [|c w IH]; simpl in *.
  - destruct t as [|c t]; simpl in *; [split; reflexivity|].
    rewrite Ht. split; reflexivity.
  - apply andb_true_iff in Hw. destruct Hw as [Hc Hw].
    rewrite Hc. destruct (IH Hw) as [-> ->]. split; reflexivity.
Qed.

Lemma ci_strip_spec (pat s r : string) :
  ci_strip pat s = Some r <->
  exists w, s = (w ++ r)%string /\ lower_string w = lower_string pat.
Proof.
  revert s. induction pat as [|p pat IH]; intros s; simpl.
  - split.
    + intros H. injection H as ->. exists EmptyString. split; reflexivity.
    + intros [w [-> Hw]]. destruct w; [reflexivity | discriminate].
  - destruct s as [|c s].
    + split; [discriminate|].
      intros [w [E Hw]]. destruct w; simpl in *; discriminate.
    + unfold ci_eqb. destruct (Ascii.eqb_spec (lower p) (lower c)) as [E | E].
      * rewrite IH. split.
        -- intros [w [-> Hw]]. exists (String c w). simpl.
           rewrite Hw, E. split; reflexivity.
        -- intros [w [Hs Hw]]. destruct w as [|c' w]; simpl in *; [discriminate|].
           injection Hs as -> ->. injection Hw as _ Hw.
           exists w. split; [reflexivity | exact Hw].
      * split; [discriminate|].
        intros [w [Hs Hw]]. destruct w as [|c' w]; simpl in *; [discriminate|].
        injection Hs as -> ->. injection Hw as Hc _. congruence.
Qed.

Lemma first_match_spec {A : Type} (m : string -> option A) (s : string) :
  first_match m s <> None <->
  exists pre suf, s = (pre ++ suf)%string /\ m suf <> None.
Proof.
  induction s as [|c s IH].
  - simpl. destruct (m EmptyString) eqn:E.
    + split; [|discriminate]. intros _. exists EmptyString, EmptyString.
      split; [reflexivity | congruence].
    + split; [intros C; contradiction|].
      intros [pre [suf [Hs Hm]]].
      destruct pre; simpl in Hs; [|discriminate]. subst suf. congruence.
  - cbn [first_match]. destruct (m (String c s)) eqn:E.
    + split; [|discriminate]. intros _. exists EmptyString, (String c s).
      split; [reflexivity | congruence].
    + rewrite IH. split.
      * intros [pre [suf [-> Hm]]]. exists (String c pre), suf.
        split; [reflexivity | exact Hm].
      * intros [pre [suf [Hs Hm]]]. destruct pre as [|c' pre]; simpl in Hs.
        -- subst suf. congruence.
        -- injection Hs as -> ->. exists pre, suf. split; [reflexivity | exact Hm].
Qed.

Lemma digit_or_dot_not_space (c : ascii) :
  is_digit_or_dot c = true -> is_space c = false.
Proof.
  destruct c as [[] [] [] [] [] [] [] []]; cbv; intros H;
    try reflexivity; discriminate H.
Qed.

Lemma lower_m_stops (c : ascii) :
  lower c = "m"%char -> is_space c = false /\ is_digit_or_dot c = false.
Proof.
  destruct c as [[] [] [] [] [] [] [] []]; cbv; intros H;
    try discriminate H; split; reflexivity.
Qed.

Lemma unit_stops (u rest : string) :
  lower_string u = "ms"%string ->
  stops is_space (u ++ rest) /\ stops is_digit_or_dot (u ++ rest).
Proof.
  intros H. destruct u as [|c u]; simpl in *; [discriminate|].
  injection H as Hc _. apply lower_m_stops in Hc. exact Hc.
Qed.

(** The greedy matcher decides the pattern, and returns its group. *)
Lemma time_at_spec (s g : string) :
  time_at s = Some g <-> exists rest, time_regex s g rest.
Proof.
  unfold time_at. split.
  - destruct (ci_strip "time" s) as [[|sep r]|] eqn:E; try discriminate.
    apply ci_strip_spec in E. destruct E as [kw [-> Hkw]].
    destruct ((code sep =? 61) || (code sep =? 60)) eqn:Hsep; [|discriminate].
    destruct (take_drop_while is_space r) as [Er Hws1].
    set (ws1 := take_while is_space r) in *.
    set (r1 := drop_while is_space r) in *.
    destruct (take_drop_while is_digit_or_dot r1) as [Er1 Hnum].
    set (num := take_while is_digit_or_dot r1) in *.
    set (r2 := drop_while is_digit_or_dot r1) in *.
    destruct (is_empty num) eqn:Hne; [discriminate|].
    destruct (take_drop_while is_space r2) as [Er2 Hws2].
    destruct (ci_strip "ms" (drop_while is_space r2)) as [rest|] eqn:Ems;
      [|discriminate].
    intros H. injection H as <-.
    apply ci_strip_spec in Ems. destruct Ems as [u [Eu Hu]].
    exists rest, kw, sep, ws1, (take_while is_space r2), u.
    split.
    { rewrite <- Eu, <- Er2, <- Er1, <- Er. reflexivity. }
    split; [exact Hkw|].
    split.
    { apply orb_true_iff in Hsep. rewrite !Z.eqb_eq in Hsep. exact Hsep. }
    split; [exact Hws1|].
    split; [intros C; rewrite C in Hne; discriminate|].
    split; [exact Hnum|]. split; [exact Hws2 | exact Hu].
  - intros [rest (kw & sep & ws1 & ws2 & u & -> & Hkw & Hsep & Hws1 & Hg & Hnum & Hws2 & Hu)].
    assert (E : ci_strip "time" (kw ++ String sep (ws1 ++ g ++ ws2 ++ u ++ rest))
                = Some (String sep (ws1 ++ g ++ ws2 ++ u ++ rest))%string).
    { apply ci_strip_spec. exists kw. split; [reflexivity | exact Hkw]. }
    rewrite E.
    assert (Hs : (code sep =? 61) || (code sep =? 60) = true).
    { apply orb_true_iff. rewrite !Z.eqb_eq. exact Hsep. }
    rewrite Hs.
    destruct (unit_stops u rest Hu) as [Hu1 Hu2].
    assert (Hstop2 : stops is_digit_or_dot (ws2 ++ u ++ rest)).
    { destruct ws2 as [|c ws2]; [exact Hu2|]. simpl in *.
      apply andb_true_iff in Hws2. destruct Hws2 as [Hc _].
      destruct (is_digit_or_dot c) eqn:Ed; [|reflexivity].
      apply digit_or_dot_not_space in Ed. congruence. }
    assert (Hstop1 : stops is_space (g ++ ws2 ++ u ++ rest)).
    { destruct g as [|c g]; [contradiction|]. simpl in *.
      apply andb_true_iff in Hnum. destruct Hnum as [Hc _].
      apply digit_or_dot_not_space, Hc. }
    destruct (span_append is_space ws1 _ Hws1 Hstop1) as [_ ->].
    destruct (span_append is_digit_or_dot g _ Hnum Hstop2) as [-> ->].
    destruct g as [|c g]; [contradiction|]. cbn [is_empty].
    destruct (span_append is_space ws2 _ Hws2 Hu1) as [_ ->].
    assert (E2 : ci_strip "ms" (u ++ rest) = Some rest).
    { apply ci_strip_spec. exists u. split; [reflexivity | exact Hu]. }
    rewrite E2. reflexivity.
Qed.

Lemma timeMatch_spec (raw : string) : timeMatch raw <> None <-> has_time raw.
Proof.
  unfold timeMatch, has_time. rewrite first_match_spec. split.
  - intros [pre [suf [-> Hm]]]. destruct (time_at suf) as [g|] eqn:E; [|contradiction].
    apply time_at_spec in E. destruct E as [rest Hr].
    exists pre, suf, g, rest. split; [reflexivity | exact Hr].
  - intros [pre [suf [g [rest [-> Hr]]]]]. exists pre, suf. split; [reflexivity|].
    rewrite (proj2 (time_at_spec suf g) (ex_intro _ rest Hr)). discriminate.
Qed.

Lemma bytes_from_test_spec (raw : string) :
  bytes_from_test raw = true <-> has_reply_marker raw.
Proof.
  unfold bytes_from_test, has_reply_marker.
  assert (H : first_match bytes_from_at raw <> None <->
              exists pre w post, raw = (pre ++ w ++ post)%string
                                 /\ lower_string w = "bytes from"%string).
  { rewrite first_match_spec. unfold bytes_from_at. split.
    - intros [pre [suf [-> Hm]]].
      destruct (ci_strip "bytes from" suf) as [post|] eqn:E; [|contradiction].
      apply ci_strip_spec in E. destruct E as [w [-> Hw]].
      exists pre, w, post. split; [reflexivity | exact Hw].
    - intros [pre [w [post [-> Hw]]]]. exists pre, (w ++ post)%string.
      split; [reflexivity|].
      rewrite (proj2 (ci_strip_spec "bytes from" (w ++ post) post)); [discriminate|].
      exists w. split; [reflexivity | exact Hw]. }
  destruct (first_match bytes_from_at raw); split; intros C.
  - apply H. discriminate.
  - reflexivity.
  - discriminate.
  - apply H in C. contradiction.
Qed.

(** ** Rounding to binary64 *)

Lemma round_half_even_nonneg (n d : Z) :
  0 <= n -> 0 < d -> 0 <= round_half_even n d.
Proof.
  intros Hn Hd. unfold round_half_even.
  assert (H : 0 <= n / d) by (apply Z.div_pos; lia).
  destruct (2 * (n mod d) <? d); [exact H|].
  destruct (d <? 2 * (n mod d)); [lia|].
  destruct (Z.even (n / d)); lia.
Qed.

Lemma round_half_even_exact (n d : Z) :
  0 < d -> round_half_even (n * d) d = n.
Proof.
  intros Hd. unfold round_half_even.
  rewrite Z.mod_mul, Z.div_mul by lia.
  assert (E : (2 * 0 <? d) = true) by (apply Z.ltb_lt; lia).
  rewrite E. reflexivity.
Qed.

Lemma round_half_even_1 (n : Z) : round_half_even n 1 = n.
Proof.
  rewrite <- (Z.mul_1_r n) at 1. apply round_half_even_exact. lia.
Qed.

(** A number that is not negative rounds to one that is not negative, or
    to [Infinity]. *)
Lemma to_double_nonneg (x : Q) :
  (0 <= x)%Q ->
  to_double x = PosInf \/ exists q, to_double x = Fin q /\ (0 <= q)%Q.
Proof.
  intros Hx.
  assert (H0 : 0 <= Qnum x) by (unfold Qle in Hx; simpl in Hx; lia).
  assert (Hs : (Qnum x <? 0) = false) by (apply Z.ltb_ge; exact H0).
  unfold to_double. rewrite Hs, (Z.abs_eq _ H0).
  destruct (Qnum x =? 0); [right; exists 0%Q; split; [reflexivity | apply Qle_refl]|].
  set (ex := Z.max (floor_log2 (Qnum x) (Zpos (Qden x)) - 52) (-1074)).
  destruct (0 <=? ex) eqn:Ee.
  - apply Z.leb_le in Ee. cbn [andb].
    destruct (2 ^ 1024 <=? _); [left; reflexivity|].
    right. eexists. split; [reflexivity|]. rewrite Qred_correct.
    assert (Hm : 0 <= round_half_even (Qnum x) (Zpos (Qden x) * 2 ^ ex)).
    { apply round_half_even_nonneg; [exact H0|].
      apply Z.mul_pos_pos; [lia | apply Z.pow_pos_nonneg; lia]. }
    assert (Hp : 0 <= 2 ^ ex) by (apply Z.pow_nonneg; lia).
    change 0%Q with (inject_Z 0). rewrite <- Zle_Qle.
    apply Z.mul_nonneg_nonneg; assumption.
  - cbn [andb]. right. eexists. split; [reflexivity|]. rewrite Qred_correct.
    apply Z.leb_gt in Ee.
    assert (Hm : 0 <= round_half_even (Qnum x * 2 ^ (- ex)) (Zpos (Qden x))).
    { apply round_half_even_nonneg; [|lia].
      apply Z.mul_nonneg_nonneg; [exact H0 | apply Z.pow_nonneg; lia]. }
    unfold Qle; simpl. lia.
Qed.

Lemma Qred_inject_Z (a : Z) : Qred (inject_Z a) = inject_Z a.
Proof.
  unfold Qred, inject_Z.
  pose proof (Z.ggcd_gcd a 1) as Hg.
  pose proof (Z.ggcd_correct_divisors a 1) as Hd.
  destruct (Z.ggcd a 1) as [g [aa bb]]. simpl in *.
  rewrite Z.gcd_1_r in Hg. subst g. destruct Hd as [H1 H2].
  assert (Ea : aa = a) by lia. assert (Eb : bb = 1) by lia.
  subst aa bb. reflexivity.
Qed.

Lemma Qred_scaled (a k : Z) :
  0 < k -> Qred (Qmake (a * k) (Z.to_pos k)) = inject_Z a.
Proof.
  intros Hk. rewrite <- (Qred_inject_Z a).
  apply Qred_complete. unfold Qeq, inject_Z; simpl.
  rewrite Z2Pos.id by exact Hk. lia.
Qed.

(** An integer of magnitude below [2^53] is a double. *)
Lemma to_double_int (n : Z) :
  Z.abs n < 2 ^ 53 -> to_double (inject_Z n) = js_int n.
Proof.
  intros Hn. unfold to_double, js_int.
  change (Qnum (inject_Z n)) with n. change (Zpos (Qden (inject_Z n))) with 1.
  destruct (Z.abs n =? 0) eqn:E0.
  { apply Z.eqb_eq in E0. assert (n = 0) by lia. subst n. reflexivity. }
  apply Z.eqb_neq in E0.
  set (a := Z.abs n) in *.
  assert (Ha : 0 < a) by (subst a; lia).
  pose proof (Z.log2_spec a Ha) as [Hlo Hhi].
  pose proof (Z.log2_nonneg a) as Hl0.
  assert (Hl52 : Z.log2 a <= 52).
  { destruct (Z_le_gt_dec (Z.log2 a) 52) as [H | H]; [exact H|]. exfalso.
    assert (2 ^ 53 <= 2 ^ Z.log2 a) by (apply Z.pow_le_mono_r; lia). lia. }
  assert (Efl : floor_log2 a 1 = Z.log2 a).
  { unfold floor_log2. change (Z.log2 1) with 0. rewrite Z.sub_0_r.
    assert (E1 : (0 <=? Z.log2 a) = true) by (apply Z.leb_le; exact Hl0).
    rewrite E1.
    assert (E2 : (a <? 1 * 2 ^ Z.log2 a) = false) by (apply Z.ltb_ge; lia).
    rewrite E2. reflexivity. }
  rewrite Efl.
  set (ex := Z.max (Z.log2 a - 52) (-1074)).
  assert (Hex : ex = Z.log2 a - 52) by (subst ex; lia).
  assert (Hsign : (if n <? 0 then - inject_Z a else inject_Z a)%Q = inject_Z n).
  { destruct (n <? 0) eqn:Es.
    - apply Z.ltb_lt in Es. unfold Qopp, inject_Z; simpl. f_equal. subst a. lia.
    - apply Z.ltb_ge in Es. f_equal. subst a. lia. }
  destruct (0 <=? ex) eqn:Ee.
  - apply Z.leb_le in Ee. assert (E : ex = 0) by lia. rewrite E.
    change (1 * 2 ^ 0) with 1.
    rewrite round_half_even_1. change (2 ^ 0) with 1. rewrite Z.mul_1_r.
    assert (Eo : (2 ^ 1024 <=? a) = false).
    { apply Z.leb_gt. assert (2 ^ 53 < 2 ^ 1024) by (apply Z.pow_lt_mono_r; lia). lia. }
    rewrite Eo. cbn [andb]. f_equal. rewrite Hsign. apply Qred_inject_Z.
  - apply Z.leb_gt in Ee. cbn [andb].
    assert (Hk : 0 < 2 ^ (- ex)) by (apply Z.pow_pos_nonneg; lia).
    rewrite round_half_even_1.
    f_equal. destruct (n <? 0) eqn:Es.
    + apply Z.ltb_lt in Es.
      change (- (a * 2 ^ (- ex) # Z.to_pos (2 ^ (- ex))))%Q
        with ((- (a * 2 ^ (- ex))) # Z.to_pos (2 ^ (- ex))).
      rewrite <- Z.mul_opp_l, Qred_scaled by exact Hk. f_equal. subst a. lia.
    + apply Z.ltb_ge in Es. rewrite Qred_scaled by exact Hk. f_equal. subst a. lia.
Qed.

(** [to_double] and the division of [SpecFloat] round alike on the
    numerals of [Binary64.samples]. *)
Lemma to_double_agrees :
  forallb (fun q => Binary64.same (to_double q) (Binary64.round q)) Binary64.samples
  = true.
Proof. vm_compute. reflexivity. Qed.

(** For a window of whole hours (the default of 24, the dashboard's 12,
    the floor of 1) and a time within the range of [Date], rounding each
    step changes nothing: the window and [since] are integers of
    magnitude below [2^53]. *)
Lemma since_b64_whole_hours (now : Z) (q_hours : option string) (n : Z) :
  Z.abs now <= 8640000000000000 ->
  js_max (js_int 1) (hours_of q_hours) = js_int n -> 1 <= n <= 100000 ->
  Binary64.since_b64 now q_hours = since_of now q_hours
  /\ since_of now q_hours = js_int (now - n * 3600000).
Proof.
  intros Hnow Hn Hr.
  assert (Hmul : forall a b, js_mul (js_int a) (js_int b) = js_int (a * b))
    by reflexivity.
  assert (Hsub : forall a b, js_sub (js_int a) (js_int b) = js_int (a - b)).
  { intros a b. unfold js_sub, js_int, inject_Z, Qminus, Qplus, Qopp. cbn.
    f_equal. f_equal. lia. }
  assert (Hrnd : forall k, Z.abs k < 2 ^ 53 ->
                           Binary64.rounded (js_int k) = js_int k).
  { intros k Hk. apply to_double_int, Hk. }
  assert (H53 : 2 ^ 53 = 9007199254740992) by reflexivity.
  assert (Hw : window_ms (hours_of q_hours) = js_int (n * 60 * 60 * 1000)).
  { unfold window_ms. rewrite Hn, !Hmul. reflexivity. }
  assert (Hwb : Binary64.window_ms_b64 (hours_of q_hours)
                = js_int (n * 60 * 60 * 1000)).
  { unfold Binary64.window_ms_b64. rewrite Hn.
    rewrite Hmul, Hrnd by lia. rewrite Hmul, Hrnd by lia.
    rewrite Hmul, Hrnd by lia. reflexivity. }
  unfold Binary64.since_b64, since_of. rewrite Hwb, Hw, Hsub.
  split; [apply Hrnd; lia | f_equal; lia].
Qed.

(** ** Probe executor *)

Lemma alive_0_or_1 (stdout stderr : string) :
  pr_alive (runPingCommand stdout stderr) = 0 \/
  pr_alive (runPingCommand stdout stderr) = 1.
Proof.
  unfold runPingCommand; simpl.
  destruct (_ || _); [right | left]; reflexivity.
Qed.

Lemma unreachable_time_null (stdout stderr : string) :
  pr_alive (runPingCommand stdout stderr) = 0 ->
  pr_time_ms (runPingCommand stdout stderr) = None.
Proof.
  unfold runPingCommand; simpl.
  destruct (timeMatch (stdout ++ stderr)); simpl; [discriminate | reflexivity].
Qed.

(** C6. The parser sets [alive] to 1 exactly when the output contains a
    match of the round-trip-time pattern or the reply marker [bytes from]
    (so also when only the marker is there), and to 0 otherwise. *)
Theorem alive_iff_reply_evidence (stdout stderr : string) :
  let raw := (stdout ++ stderr)%string in
  let res := runPingCommand stdout stderr in
  (pr_alive res = 1 <-> (timeMatch raw <> None \/ bytes_from_test raw = true))
  /\ (pr_alive res = 0 <-> ~ (timeMatch raw <> None \/ bytes_from_test raw = true))
  /\ (pr_alive res = 1 <-> (has_time raw \/ has_reply_marker raw))
  /\ (pr_alive res = 0 <-> ~ (has_time raw \/ has_reply_marker raw)).
Proof.
  intros raw res.
  assert (H1 : pr_alive res = 1 <->
               (timeMatch raw <> None \/ bytes_from_test raw = true)).
  { subst res raw. unfold runPingCommand. cbn [pr_alive].
    destruct (timeMatch (stdout ++ stderr)) as [g|];
      destruct (bytes_from_test (stdout ++ stderr)); cbn [orb]; split; intros H;
      try reflexivity; try discriminate H;
      try (left; discriminate); try (right; reflexivity);
      try (destruct H as [C | C]; [contradiction | discriminate]). }
  assert (H0 : pr_alive res = 0 <-> ~ pr_alive res = 1).
  { destruct (alive_0_or_1 stdout stderr) as [E | E]; fold res in E; rewrite E;
      split; intros H; try reflexivity; try discriminate; try contradiction;
      try (exfalso; apply H; reflexivity). }
  split; [exact H1|].
  split; [rewrite H0, H1; reflexivity|].
  rewrite <- timeMatch_spec, <- bytes_from_test_spec.
  split; [exact H1 | rewrite H0, H1; reflexivity].
Qed.

(** Marker without a timing: reachable, with no latency. *)
Example marker_only_is_alive :
  runPingCommand "64 bytes from 1.1.1.1: icmp_seq=1 ttl=57" EmptyString =
  {| pr_raw := "64 bytes from 1.1.1.1: icmp_seq=1 ttl=57";
     pr_alive := 1; pr_time_ms := None; pr_ttl := Some (js_int 57) |}.
Proof. reflexivity. Qed.

(** C7. Whatever the raw output, a result with [alive = 0] has
    [time_ms = null]. *)
Theorem unreachable_has_no_latency (stdout stderr : string) :
  pr_alive (runPingCommand stdout stderr) = 0 ->
  pr_time_ms (runPingCommand stdout stderr) = None.
Proof. apply unreachable_time_null. Qed.

Lemma unreachable_has_no_latency_witness :
  pr_alive (runPingCommand "From 192.168.2.1 icmp_seq=1 Destination Host Unreachable"
                           "ping: timeout") = 0
  /\ pr_time_ms (runPingCommand "From 192.168.2.1 icmp_seq=1 Destination Host Unreachable"
                                "ping: timeout") = None.
Proof.
  split; [reflexivity | apply unreachable_has_no_latency; reflexivity].
Defined.

Lemma ping_tick_invariant (tbl : list ping_row) (ts : Z) (target stdout stderr : string) :
  Forall row_invariant tbl ->
  Forall row_invariant (ping_tick tbl ts target stdout stderr).
Proof.
  intros H. unfold ping_tick, insert_ping.
  pose proof (alive_0_or_1 stdout stderr) as Ha.
  pose proof (unreachable_time_null stdout stderr) as Hb.
  set (res := runPingCommand stdout stderr) in *. clearbody res.
  apply Forall_app; split; [exact H|].
  constructor; [|constructor]. split; simpl.
  - destruct Ha as [E | E]; rewrite E; auto.
  - intros E. injection E as E. rewrite (Hb E). reflexivity.
Qed.

(** ** Health classification *)

Lemma Qle_bool_false (x y : Q) : Qle_bool x y = false <-> (y < x)%Q.
Proof.
  split; intros H.
  - apply Qnot_le_lt. intros C. apply Qle_bool_iff in C. congruence.
  - destruct (Qle_bool x y) eqn:E; [|reflexivity].
    apply Qle_bool_iff in E. exfalso. eapply Qlt_not_le; eassumption.
Qed.

(** C1 (as amended).  For a timeline bucket of the dashboard with
    [total > 0] and [ratio = ok / total], the segment gets the class
    success when [ratio >= 0.9], warning when [0.5 <= ratio < 0.9] and
    fail when [ratio < 0.5], which is what the specification's rule gives
    as UP, DEGRADED and DOWN.  Ratios 9/10, 5/10 and 499999/1000000 give
    success, warning and fail (also when the division and the comparison
    are done in binary64).  A bucket with [total = 0] gets the class
    warning. *)
Theorem health_classification (success total : Z) :
  let ratio := (inject_Z success / inject_Z total)%Q in
  let b := {| b_ok := success; b_total := total |} in
  (0 < total ->
     ((9 # 10 <= ratio)%Q ->
        segment_class b = "success"%string
        /\ spec_classification success total = UP)
     /\ ((5 # 10 <= ratio)%Q /\ (ratio < 9 # 10)%Q ->
        segment_class b = "warning"%string
        /\ spec_classification success total = DEGRADED)
     /\ ((ratio < 5 # 10)%Q ->
        segment_class b = "fail"%string
        /\ spec_classification success total = DOWN))
  /\ (segment_class {| b_ok := 9; b_total := 10 |} = "success"%string
      /\ segment_class {| b_ok := 5; b_total := 10 |} = "warning"%string
      /\ segment_class {| b_ok := 499999; b_total := 1000000 |} = "fail"%string)
  /\ (Binary64.segment_class_b64 {| b_ok := 9; b_total := 10 |} = "success"%string
      /\ Binary64.segment_class_b64 {| b_ok := 5; b_total := 10 |} = "warning"%string
      /\ Binary64.segment_class_b64 {| b_ok := 499999; b_total := 1000000 |}
         = "fail"%string)
  /\ (total = 0 -> segment_class b = "warning"%string).
Proof.
  intros ratio b.
  split; [|split; [|split]].
  - intros Ht.
    assert (Hne : (total =? 0) = false) by (apply Z.eqb_neq; lia).
    assert (HS : segment_class b =
                 if Qle_bool (9 # 10) ratio then "success"%string
                 else if Qle_bool (5 # 10) ratio then "warning"%string
                 else "fail"%string).
    { unfold segment_class, b; simpl. rewrite Hne. reflexivity. }
    assert (HC : spec_classification success total =
                 if Qle_bool (9 # 10) ratio then UP
                 else if Qle_bool (5 # 10) ratio then DEGRADED
                 else DOWN).
    { unfold spec_classification. rewrite Hne. reflexivity. }
    rewrite HS, HC.
    assert (H59 : (5 # 10 < 9 # 10)%Q) by reflexivity.
    split; [|split].
    + intros H. apply Qle_bool_iff in H. rewrite H. split; reflexivity.
    + intros [H5 H9]. apply Qle_bool_false in H9. apply Qle_bool_iff in H5.
      rewrite H9, H5. split; reflexivity.
    + intros H.
      assert (H9 : Qle_bool (9 # 10) ratio = false).
      { apply Qle_bool_false. eapply Qlt_trans; [exact H | exact H59]. }
      apply Qle_bool_false in H. rewrite H9, H. split; reflexivity.
  - vm_compute. repeat split.
  - vm_compute. repeat split.
  - intros ->. reflexivity.
Qed.

Lemma health_classification_witness :
  0 < 10 /\ (9 # 10 <= inject_Z 9 / inject_Z 10)%Q
  /\ segment_class {| b_ok := 9; b_total := 10 |} = "success"%string
  /\ segment_class {| b_ok := 3; b_total := 0 |} = "warning"%string.
Proof.
  assert (H1 : 0 < 10) by lia.
  assert (H2 : (9 # 10 <= inject_Z 9 / inject_Z 10)%Q) by (vm_compute; discriminate).
  split; [exact H1|]. split; [exact H2|]. split.
  - exact (proj1 (proj1 (proj1 (health_classification 9 10) H1) H2)).
  - exact (proj2 (proj2 (proj2 (health_classification 3 0))) eq_refl).
Defined.

(** C1 (as stated) fails on the dashboard at a bucket without samples:
    the specification gives it a state of its own, apart from DEGRADED,
    and [renderTimeline] gives it the class of a DEGRADED bucket. *)
Lemma no_samples_painted_degraded :
  spec_classification 0 0 = NO_DATA
  /\ spec_classification 5 10 = DEGRADED
  /\ segment_class {| b_ok := 0; b_total := 0 |}
     = segment_class {| b_ok := 5; b_total := 10 |}.
Proof. vm_compute. repeat split. Qed.

(** A timeline bucket without samples is painted with the warning class. *)
Lemma segment_class_no_samples (ok : Z) :
  segment_class {| b_ok := ok; b_total := 0 |} = "warning"%string.
Proof. reflexivity. Qed.

(** The buckets [buildAggregatedTimeline] hands to [renderTimeline]. *)
Lemma fold_left_invariant {X Y : Type} (P : X -> Prop) (f : X -> Y -> X)
    (l : list Y) (x : X) :
  (forall x y, P x -> P (f x y)) -> P x -> P (fold_left f l x).
Proof.
  intros Hf. revert x. induction l as [|y l IH]; intros x Hx; simpl.
  - exact Hx.
  - apply IH, Hf, Hx.
Qed.

Lemma add_entry_ok (start : Z) (m : gmap string (list bucket)) (e : ping_row) :
  buckets_ok m -> buckets_ok (add_entry start m e).
Proof.
  intros Hm. unfold add_entry.
  destruct (_ || _); [exact Hm|].
  intros t l. rewrite lookup_alter. case_decide as Ht.
  - subst t. destruct (m !! p_target e) as [l0|] eqn:E; [|discriminate].
    intros H. injection H as <-. destruct (Hm _ _ E) as [Hl Hf].
    split; [rewrite length_alter; exact Hl|].
    apply Forall_alter; [exact Hf|].
    intros b _ Hb. unfold count_entry; simpl.
    destruct (entry_alive_is_1 e); lia.
  - apply Hm.
Qed.

Lemma empty_buckets_ok (row : list bucket) (entries : list ping_row) :
  List.length row = Z.to_nat timeline_minutes ->
  Forall (fun b => 0 <= b_ok b <= b_total b) row ->
  buckets_ok (fold_left (fun m e => <[p_target e := row]> m) entries ∅).
Proof.
  intros Hl Hf. apply fold_left_invariant.
  - intros m e Hm t l. rewrite lookup_insert. case_decide as Ht.
    + intros H. injection H as <-. split; assumption.
    + apply Hm.
  - intros t l H. rewrite lookup_empty in H. discriminate.
Qed.

Lemma buildAggregatedTimeline_ok (now : Z) (entries : list ping_row) :
  buckets_ok (buildAggregatedTimeline now entries).
Proof.
  unfold buildAggregatedTimeline. cbv zeta.
  apply fold_left_invariant; [intros m e; apply add_entry_ok|].
  apply empty_buckets_ok.
  - apply repeat_length.
  - apply Forall_forall. intros b Hb. apply repeat_spec in Hb. subst b.
    simpl. lia.
Qed.

(** On every pair of counts up to 64 samples per bucket, dividing and
    comparing in binary64 gives the same class as comparing the exact
    ratios. *)
Lemma binary64_agrees : Binary64.agree_upto 64 = true.
Proof. vm_compute. reflexivity. Qed.

(** ** Query API: [/api/pings] *)

Lemma js_int_sub (a b : Z) : js_eq (js_sub (js_int a) (js_int b)) (js_int (a - b)).
Proof.
  unfold js_int, js_sub, js_eq, inject_Z, Qeq, Qminus, Qplus, Qopp; simpl. lia.
Qed.

Lemma js_eq_refl (a : jsnum) : js_eq a a.
Proof. destruct a; simpl; auto. reflexivity. Qed.

Lemma js_eq_sym (a b : jsnum) : js_eq a b -> js_eq b a.
Proof. destruct a, b; simpl; auto. intros H. symmetry. exact H. Qed.

Lemma js_eq_trans (a b c : jsnum) : js_eq a b -> js_eq b c -> js_eq a c.
Proof.
  destruct a, b, c; simpl; auto; try contradiction.
  intros H1 H2. rewrite H1. exact H2.
Qed.

Lemma default_hours : hours_of None = js_int 24.
Proof. reflexivity. Qed.

Lemma default_since (now : Z) :
  js_eq (since_of now None) (js_int (now - 24 * 3600000)).
Proof.
  unfold since_of. rewrite default_hours.
  replace (window_ms (js_int 24)) with (js_int (24 * 3600000)) by reflexivity.
  apply js_int_sub.
Qed.

Lemma window_below_one (h : jsnum) :
  below_one h -> truthy h = true -> window_ms (js_or h (js_int 24)) = js_int 3600000.
Proof.
  intros Hb Ht. unfold js_or. rewrite Ht.
  destruct h as [| | |q]; simpl in Hb; try contradiction.
  - reflexivity.
  - unfold window_ms, js_max, js_int at 1.
    assert (E : Qle_bool (inject_Z 1) q = false).
    { apply Qle_bool_false. exact Hb. }
    rewrite E. reflexivity.
Qed.

Lemma since_below_one (now : Z) (s : string) :
  below_one (parseFloat s) -> truthy (parseFloat s) = true ->
  js_eq (since_of now (Some s)) (js_int (now - 3600000)).
Proof.
  intros Hb Ht. unfold since_of, hours_of, parseFloat_param.
  rewrite (window_below_one _ Hb Ht). apply js_int_sub.
Qed.

Lemma since_one_hour (now : Z) :
  js_eq (since_of now (Some "1"%string)) (js_int (now - 3600000)).
Proof.
  unfold since_of.
  replace (window_ms (hours_of (Some "1"%string))) with (Fin (3600000 # 1)) by reflexivity.
  unfold js_int, js_sub, js_eq, inject_Z, Qeq, Qminus, Qplus, Qopp; simpl. lia.
Qed.

Lemma pings_answer_inv (db : database) (now : Z) (q_hours q_limit : option string)
    (since : jsnum) (rows : list ping_row) :
  pings_answer db now q_hours q_limit since rows ->
  since = since_of now q_hours
  /\ exists n, limit_value (pings_limit_of q_limit) = Some n
     /\ rows = sql_limit n (order_by ts_asc
                 (filter (fun p => ts_ge (p_ts p) since) (db_pings db))).
Proof.
  unfold pings_answer, Sqlite3Server.get_api_pings,
    BetterSqlite3Server.get_api_pings, select_pings.
  destruct (db_fault db _) as [m|]; [intros [H | H]; discriminate|].
  destruct (limit_value (pings_limit_of q_limit)) as [n|];
    [|intros [H | H]; discriminate].
  intros [H | H]; injection H as H1 H2; subst; (split; [reflexivity|]);
    exists n; split; reflexivity.
Qed.

Lemma limit_value_int (n : Z) : limit_value (js_int n) = Some n.
Proof.
  unfold limit_value, js_int, inject_Z; simpl.
  rewrite Z.mod_1_r, Z.div_1_r. reflexivity.
Qed.

(** C5 (as amended).  A successful answer of [/api/pings], from either
    server: the rows are stored rows with [ts >= since], in ascending
    order of [ts]; with a non-negative limit there are at most [limit]
    of them, and an absent [limit] is 200000; an absent [hours] gives the
    24-hour window; an [hours] value below 1 other than zero gives the
    window of [hours=1]. *)
Theorem api_pings_contract (db : database) (now : Z)
    (q_hours q_limit : option string) (since : jsnum) (rows : list ping_row) :
  pings_answer db now q_hours q_limit since rows ->
  StronglySorted (fun a b => p_ts a <= p_ts b) rows
  /\ (forall r, In r rows -> In r (db_pings db) /\ ts_ge (p_ts r) since = true)
  /\ (forall n, pings_limit_of q_limit = js_int n -> 0 <= n ->
        Z.of_nat (List.length rows) <= n)
  /\ (q_limit = None ->
        pings_limit_of q_limit = js_int 200000
        /\ Z.of_nat (List.length rows) <= 200000)
  /\ (q_hours = None -> js_eq since (js_int (now - 24 * 3600000)))
  /\ (forall s, q_hours = Some s ->
        below_one (parseFloat s) -> truthy (parseFloat s) = true ->
        js_eq since (js_int (now - 3600000))
        /\ js_eq since (since_of now (Some "1"%string))).
Proof.
  intros H. apply pings_answer_inv in H.
  destruct H as [Hs [n [Hn Hr]]].
  assert (Hcap : forall k, pings_limit_of q_limit = js_int k -> 0 <= k ->
                 Z.of_nat (List.length rows) <= k).
  { intros k Hk Hk0. rewrite Hk, limit_value_int in Hn.
    injection Hn as <-. rewrite Hr. apply sql_limit_length, Hk0. }
  split; [|split; [|split; [|split; [|split]]]].
  - rewrite Hr. apply sql_limit_sorted, ts_asc_sorted.
  - intros r Hin. rewrite Hr in Hin. apply sql_limit_In in Hin.
    apply order_by_In in Hin. apply filter_In in Hin. exact Hin.
  - exact Hcap.
  - intros ->. split; [reflexivity|]. apply Hcap; [reflexivity | lia].
  - intros ->. rewrite Hs. apply default_since.
  - intros s -> Hb Ht. rewrite Hs. split.
    + apply since_below_one; assumption.
    + eapply js_eq_trans; [apply since_below_one; assumption|].
      apply js_eq_sym, since_one_hour.
Qed.

Lemma api_pings_contract_witness :
  let rows := [ demo_row 1699999998000 "1.1.1.1" 0 None;
                demo_row 1699999999000 "8.8.8.8" 1 (Some (12 # 1)) ] in
  pings_answer demo_db 1700000000000 (Some "0.5"%string) None
    (since_of 1700000000000 (Some "0.5"%string)) rows
  /\ StronglySorted (fun a b => p_ts a <= p_ts b) rows.
Proof.
  intros rows.
  assert (H : pings_answer demo_db 1700000000000 (Some "0.5"%string) None
                (since_of 1700000000000 (Some "0.5"%string)) rows).
  { left. vm_compute. reflexivity. }
  split; [exact H|].
  exact (proj1 (api_pings_contract _ _ _ _ _ _ H)).
Defined.

(** C5 (as stated) fails at [hours=0]: zero is below 1, yet the window is
    the 24-hour default and not the window of [hours=1]. *)
Lemma hours_zero_counterexample :
  below_one (parseFloat "0")
  /\ js_eq (since_of 1700000000000 (Some "0"%string))
           (js_int (1700000000000 - 24 * 3600000))
  /\ ~ js_eq (since_of 1700000000000 (Some "0"%string))
             (since_of 1700000000000 (Some "1"%string)).
Proof.
  split; [|split].
  - vm_compute. reflexivity.
  - vm_compute. reflexivity.
  - vm_compute. discriminate.
Qed.

(** An [hours] numeral too small for a double reads as zero, and zero
    takes the default: [hours=1e-400] gives the 24-hour window. *)
Example hours_underflow_default :
  parseFloat "1e-400" = Fin 0
  /\ truthy (parseFloat "1e-400") = false
  /\ since_of 1700000000000 (Some "1e-400"%string) = since_of 1700000000000 None.
Proof. vm_compute. repeat split. Qed.

(** A negative [limit] lifts the cap: every row in the window comes back. *)
Lemma negative_limit_uncapped :
  pings_limit_of (Some "-1"%string) = js_int (-1)
  /\ exists since rows,
       Sqlite3Server.get_api_pings demo_db 1700000000000 None (Some "-1"%string)
       = res_json (PingsBody since rows)
       /\ List.length rows = 2%nat.
Proof.
  split; [reflexivity|].
  eexists _, _. split; [vm_compute; reflexivity | reflexivity].
Qed.

(** ** Query API: failing queries *)

(** A non-numeric [limit] makes the statement fail. *)
Lemma malformed_limit_fails (db : database) (since : jsnum) :
  db_fault db (SelectPings since (pings_limit_of (Some "abc"%string))) = None ->
  select_pings db since (pings_limit_of (Some "abc"%string))
  = Failed "datatype mismatch".
Proof.
  intros H. unfold select_pings. rewrite H. reflexivity.
Qed.

(** C4 (as amended).  In the sqlite3 server, a failing query of
    [/api/pings] or [/api/traceroutes] is answered with the body
    [{ok:false, err}] carrying the engine's message, under status 200;
    the handler returns normally. *)
Theorem query_failure_surfaced (db : database) (now : Z)
    (q_hours q_limit : option string) (m : string) :
  (select_pings db (since_of now q_hours) (pings_limit_of q_limit) = Failed m ->
     let r := Sqlite3Server.get_api_pings db now q_hours q_limit in
     r = res_json (ErrorBody m)
     /\ ok (res_body r) = false /\ err (res_body r) = Some m /\ status r = 200)
  /\ (select_traces db (traces_limit_of q_limit) = Failed m ->
     let r := Sqlite3Server.get_api_traceroutes db q_limit in
     r = res_json (ErrorBody m)
     /\ ok (res_body r) = false /\ err (res_body r) = Some m /\ status r = 200).
Proof.
  split; intros H r; subst r.
  - unfold Sqlite3Server.get_api_pings. rewrite H. repeat split.
  - unfold Sqlite3Server.get_api_traceroutes. rewrite H. repeat split.
Qed.

(** In the better-sqlite3 server the same failures are exceptions that
    leave the handler. *)
Lemma better_sqlite3_failure_throws (db : database) (now : Z)
    (q_hours q_limit : option string) (m : string) :
  (select_pings db (since_of now q_hours) (pings_limit_of q_limit) = Failed m ->
     BetterSqlite3Server.get_api_pings db now q_hours q_limit
     = BetterSqlite3Server.Threw m)
  /\ (select_traces db (traces_limit_of q_limit) = Failed m ->
     BetterSqlite3Server.get_api_traceroutes db q_limit
     = BetterSqlite3Server.Threw m).
Proof.
  split; intros H.
  - unfold BetterSqlite3Server.get_api_pings. rewrite H. reflexivity.
  - unfold BetterSqlite3Server.get_api_traceroutes. rewrite H. reflexivity.
Qed.

Lemma query_failure_surfaced_witness :
  select_pings broken_db (since_of 1700000000000 None) (pings_limit_of None)
  = Failed "database is locked"
  /\ Sqlite3Server.get_api_pings broken_db 1700000000000 None None
     = res_json (ErrorBody "database is locked")
  /\ select_traces broken_db (traces_limit_of None) = Failed "database is locked"
  /\ Sqlite3Server.get_api_traceroutes broken_db None
     = res_json (ErrorBody "database is locked").
Proof.
  pose proof (query_failure_surfaced broken_db 1700000000000 None None
                "database is locked") as [Hp Ht].
  split; [reflexivity|]. split; [apply Hp; reflexivity|].
  split; [reflexivity|]. apply Ht; reflexivity.
Defined.

(** Without a failure both servers answer with [ok:true]. *)
Lemma query_success_ok (db : database) (now : Z)
    (q_hours q_limit : option string) (rows : list ping_row) :
  select_pings db (since_of now q_hours) (pings_limit_of q_limit) = Rows rows ->
  Sqlite3Server.get_api_pings db now q_hours q_limit
  = res_json (PingsBody (since_of now q_hours) rows)
  /\ BetterSqlite3Server.get_api_pings db now q_hours q_limit
     = BetterSqlite3Server.Responded (res_json (PingsBody (since_of now q_hours) rows)).
Proof.
  intros H. unfold Sqlite3Server.get_api_pings, BetterSqlite3Server.get_api_pings.
  rewrite H. split; reflexivity.
Qed.

(** C4 (as stated) fails.  With every statement failing: the sqlite3
    server's [/api/status] answers once, with [ok:true]; and no handler of
    the better-sqlite3 server writes a body at all. *)
Lemma failure_not_surfaced_counterexample :
  (exists latest,
      Sqlite3Server.sent (Sqlite3Server.get_api_status broken_db TARGETS)
      = [res_json (StatusBody TARGETS latest)]
      /\ ok (StatusBody TARGETS latest) = true
      /\ err (StatusBody TARGETS latest) = None)
  /\ BetterSqlite3Server.get_api_pings broken_db 1700000000000 None None
     = BetterSqlite3Server.Threw "database is locked"
  /\ BetterSqlite3Server.get_api_status broken_db
     = BetterSqlite3Server.Threw "database is locked"
  /\ BetterSqlite3Server.get_api_traceroutes broken_db None
     = BetterSqlite3Server.Threw "database is locked".
Proof.
  split; [|repeat split].
  eexists. split; [reflexivity | split; reflexivity].
Qed.

(** ** Query API: [/api/status] of the sqlite3 server *)

Lemma status_step (db : database) (l : list string) (x : string) :
  Sqlite3Server.get_api_status db (l ++ [x])
  = Sqlite3Server.status_callback db (Sqlite3Server.get_api_status db l) x.
Proof. unfold Sqlite3Server.get_api_status. rewrite fold_left_app. reflexivity. Qed.

Lemma status_run (db : database) (l : list string) :
  let st := Sqlite3Server.get_api_status db l in
  Sqlite3Server.processed st = Z.of_nat (List.length l)
  /\ (forall t, In t l ->
        Sqlite3Server.latest st !! t = Some (row_or_null (select_latest db t)))
  /\ (forall t, ~ In t l -> Sqlite3Server.latest st !! t = None)
  /\ ((List.length l < List.length TARGETS)%nat -> Sqlite3Server.sent st = [])
  /\ (List.length l = List.length TARGETS ->
        Sqlite3Server.sent st
        = [res_json (StatusBody TARGETS (Sqlite3Server.latest st))]).
Proof.
  induction l as [|x l IH] using rev_ind.
  - simpl. repeat split; try reflexivity.
    + intros t [].
    + intros H. discriminate H.
  - destruct IH as (Hp & Hin & Hout & Hlt & _).
    rewrite status_step.
    set (st := Sqlite3Server.get_api_status db l) in *.
    unfold Sqlite3Server.status_callback; simpl.
    rewrite length_app; simpl.
    split; [rewrite Hp; lia|].
    split; [|split; [|split]].
    + intros t Ht. destruct (String.eqb_spec x t) as [->|Hne].
      * apply lookup_insert_eq.
      * rewrite lookup_insert_ne by exact Hne. apply Hin.
        apply in_app_or in Ht. destruct Ht as [Ht | [Ht | []]];
          [exact Ht | contradiction].
    + intros t Ht. rewrite lookup_insert_ne.
      * apply Hout. intros C. apply Ht, in_or_app. left. exact C.
      * intros ->. apply Ht, in_or_app. right. left. reflexivity.
    + intros Hl. rewrite Hp.
      destruct (_ =? _) eqn:E.
      * apply Z.eqb_eq in E. simpl in *. exfalso. lia.
      * apply Hlt. simpl in *. lia.
    + intros Hl. rewrite Hp.
      destruct (_ =? _) eqn:E.
      * rewrite Hlt by (simpl in *; lia). reflexivity.
      * apply Z.eqb_neq in E. simpl in *. exfalso. lia.
Qed.

(** C10.  One [/api/status] request of the sqlite3 server, the five
    [db.get] callbacks completing in any order: exactly one response is
    written, it has [ok:true] and its [latest] object has exactly the
    configured targets as keys; a target whose read failed has the same
    entry, [null], as a target without rows; nothing is written before
    the last callback, and nothing written is an error body. *)
Theorem status_always_ok (db : database) (completion : list string) :
  Permutation completion TARGETS ->
  let st := Sqlite3Server.get_api_status db completion in
  Sqlite3Server.sent st = [res_json (StatusBody TARGETS (Sqlite3Server.latest st))]
  /\ ok (StatusBody TARGETS (Sqlite3Server.latest st)) = true
  /\ dom (Sqlite3Server.latest st) = list_to_set TARGETS
  /\ (forall t, In t TARGETS ->
        Sqlite3Server.latest st !! t = Some (row_or_null (select_latest db t)))
  /\ (forall t m, db_fault db (SelectLatest t) = Some m ->
        row_or_null (select_latest db t) = None)
  /\ (forall t, db_fault db (SelectLatest t) = None ->
        (forall p, In p (db_pings db) -> p_target p <> t) ->
        row_or_null (select_latest db t) = None)
  /\ (forall pre suf, completion = pre ++ suf -> suf <> [] ->
        Sqlite3Server.sent (Sqlite3Server.get_api_status db pre) = [])
  /\ (forall pre suf r, completion = pre ++ suf ->
        In r (Sqlite3Server.sent (Sqlite3Server.get_api_status db pre)) ->
        ok (res_body r) = true).
Proof.
  intros Hperm st.
  pose proof (Permutation_length Hperm) as Hlen.
  destruct (status_run db completion) as (_ & Hin & Hout & _ & Hsent).
  fold st in Hin, Hout, Hsent.
  assert (Hpre : forall pre suf, completion = pre ++ suf ->
            (suf <> [] -> Sqlite3Server.sent (Sqlite3Server.get_api_status db pre) = [])
            /\ (suf = [] -> pre = completion)).
  { intros pre suf E. split.
    - intros Hs. apply (status_run db pre).
      rewrite <- Hlen, E, length_app.
      destruct suf; [contradiction | simpl; lia].
    - intros ->. rewrite E, app_nil_r. reflexivity. }
  split; [apply Hsent, Hlen|].
  split; [reflexivity|].
  split; [|split; [|split; [|split; [|split]]]].
  - apply set_eq. intros t. rewrite elem_of_dom, elem_of_list_to_set, list_elem_of_In.
    split.
    + intros [v Hv]. destruct (in_dec string_dec t completion) as [Hi | Hni].
      * eapply Permutation_in; eassumption.
      * rewrite (Hout t Hni) in Hv. discriminate.
    + intros Ht. eexists. apply Hin.
      eapply Permutation_in; [apply Permutation_sym|]; eassumption.
  - intros t Ht. apply Hin.
    eapply Permutation_in; [apply Permutation_sym|]; eassumption.
  - intros t m Hf. unfold select_latest. rewrite Hf. reflexivity.
  - intros t Hf Hnone. unfold select_latest. rewrite Hf.
    assert (E : filter (fun p => String.eqb (p_target p) t) (db_pings db) = []).
    { induction (db_pings db) as [|p l IH]; [reflexivity|]. simpl.
      destruct (String.eqb_spec (p_target p) t) as [E | E].
      - exfalso. apply (Hnone p); [left; reflexivity | exact E].
      - apply IH. intros q Hq. apply Hnone. right. exact Hq. }
    rewrite E. reflexivity.
  - intros pre suf E Hs. apply (Hpre pre suf E), Hs.
  - intros pre suf r E Hr. destruct suf as [|y suf].
    + rewrite (proj2 (Hpre pre [] E) eq_refl) in Hr. fold st in Hr.
      rewrite (Hsent Hlen) in Hr. destruct Hr as [<- | []]. reflexivity.
    + rewrite (proj1 (Hpre pre (y :: suf) E)) in Hr by discriminate.
      destruct Hr.
Qed.

Lemma status_always_ok_witness :
  let order := ["1.1.1.1"; "192.168.2.1"; "google.com"; "frontier.com"; "8.8.8.8"]%string in
  Permutation order TARGETS
  /\ exists latest,
       Sqlite3Server.sent (Sqlite3Server.get_api_status broken_db order)
       = [res_json (StatusBody TARGETS latest)]
       /\ dom latest = list_to_set TARGETS.
Proof.
  intros order.
  assert (H : Permutation order TARGETS).
  { unfold order, TARGETS.
    apply Permutation_sym.
    apply (Permutation_cons_app ["1.1.1.1"; "192.168.2.1"]%string ["frontier.com"; "8.8.8.8"]%string).
    apply (Permutation_cons_app ["1.1.1.1"; "192.168.2.1"; "frontier.com"]%string []).
    apply perm_skip.
    apply (Permutation_cons_app ["192.168.2.1"]%string []).
    apply Permutation_refl. }
  split; [exact H|].
  destruct (status_always_ok broken_db order H) as (Hs & _ & Hd & _).
  eexists. split; [exact Hs | exact Hd].
Defined.

(** ** Lists and strings *)

Lemma filter_filter {X : Type} (f g : X -> bool) (l : list X) :
  filter f (filter g l) = filter (fun x => g x && f x) l.
Proof.
  induction l as [|x l IH]; simpl; [reflexivity|].
  destruct (g x); simpl; [destruct (f x)|]; rewrite IH; reflexivity.
Qed.

Lemma append_length (s t : string) :
  String.length (s ++ t) = (String.length s + String.length t)%nat.
Proof. induction s as [|c s IH]; simpl; [reflexivity | rewrite IH; reflexivity]. Qed.

Lemma all_chars_append (f : ascii -> bool) (s t : string) :
  all_chars f (s ++ t) = all_chars f s && all_chars f t.
Proof.
  induction s as [|c s IH]; simpl; [reflexivity|].
  rewrite IH, andb_assoc. reflexivity.
Qed.

Lemma digits_val_append (acc : Z) (s t : string) :
  digits_val acc (s ++ t) = digits_val (digits_val acc s) t.
Proof.
  revert acc. induction s as [|c s IH]; intros acc; simpl; [reflexivity|].
  apply IH.
Qed.

Lemma digits_val_shift (acc : Z) (s : string) :
  digits_val acc s = acc * 10 ^ Z.of_nat (String.length s) + digits_val 0 s.
Proof.
  revert acc. induction s as [|c s IH]; intros acc.
  - simpl. lia.
  - cbn [digits_val String.length]. rewrite IH, (IH (10 * 0 + digit_val c)).
    rewrite Nat2Z.inj_succ, Z.pow_succ_r by lia. lia.
Qed.

(** ** Daily export: the script stops at [read] *)

Lemma string_of_uint_digits (u : Decimal.uint) :
  all_chars is_digit (NilEmpty.string_of_uint u) = true.
Proof. induction u; simpl; try reflexivity; exact IHu. Qed.

Lemma int_digits_digits (n : Z) : all_chars is_digit (int_digits n) = true.
Proof.
  unfold int_digits, NilZero.string_of_uint.
  destruct (N.to_uint (Z.to_N n)) eqn:E; try reflexivity;
    rewrite <- E; apply string_of_uint_digits.
Qed.

Lemma all_chars_weaken (f g : ascii -> bool) (s : string) :
  (forall c, f c = true -> g c = true) ->
  all_chars f s = true -> all_chars g s = true.
Proof.
  intros H. induction s as [|c s IH]; simpl; [reflexivity|].
  intros Hs. apply andb_true_iff in Hs. destruct Hs as [Hc Hs].
  rewrite (H c Hc), (IH Hs). reflexivity.
Qed.

Lemma digit_not_nul (c : ascii) : is_digit c = true -> negb (is_nul c) = true.
Proof.
  unfold is_digit, is_nul. intros H. apply andb_true_iff in H.
  rewrite !Z.leb_le in H. apply negb_true_iff, Z.eqb_neq. lia.
Qed.

Lemma dec_no_nul (n : Z) : all_chars (fun c => negb (is_nul c)) (dec n) = true.
Proof.
  unfold dec. destruct (n <? 0); [cbn [all_chars]; apply andb_true_iff; split;
                                    [reflexivity|]|];
    apply (all_chars_weaken is_digit _ _ digit_not_nul), int_digits_digits.
Qed.

Lemma unlines_all_chars (f : ascii -> bool) (ls : list string) :
  f newline = true -> Forall (fun l => all_chars f l = true) ls ->
  all_chars f (unlines ls) = true.
Proof.
  intros Hn H. induction H as [|l ls Hl _ IH]; [reflexivity|].
  cbn [unlines]. rewrite all_chars_append, Hl. cbn [all_chars andb].
  rewrite Hn, IH. reflexivity.
Qed.

(** No expansion puts a NUL in the here-document. *)
Lemma export_sql_no_nul (start_ms end_ms : Z) :
  all_chars (fun c => negb (is_nul c)) (export_sql start_ms end_ms) = true.
Proof.
  unfold export_sql. apply unlines_all_chars; [reflexivity|].
  repeat (apply Forall_cons; [rewrite ?all_chars_append, ?dec_no_nul; reflexivity|]).
  apply Forall_nil.
Qed.

(** [read -d ''] meets the end of an input without NUL, and fails. *)
Lemma read_d_nul_eof (input : string) :
  all_chars (fun c => negb (is_nul c)) input = true -> fst (read_d_nul input) = 1.
Proof.
  intros H. unfold read_d_nul. cbn [fst].
  assert (E : drop_while (fun c => negb (is_nul c)) input = EmptyString).
  { induction input as [|c r IH]; [reflexivity|].
    simpl in H. apply andb_true_iff in H. destruct H as [Hc Hr].
    cbn [drop_while]. rewrite Hc. apply IH, Hr. }
  rewrite E. reflexivity.
Qed.

Lemma export_stops_at_read (sqlite3_csv : string -> list ping_row -> Z * string)
    (start_s : Z) (pings : list ping_row) :
  export_daily_csv sqlite3_csv start_s pings
  = {| se_status := 1; se_outfile := None |}.
Proof.
  unfold export_daily_csv.
  pose proof (read_d_nul_eof _ (export_sql_no_nul (start_s * 1000)
                                  ((start_s + 24 * 60 * 60) * 1000))) as H.
  destruct (read_d_nul _) as [rc SQL]. cbn [fst] in H. subst rc. reflexivity.
Qed.

(** C3.  Whatever the day, the stored samples and the behaviour of
    [sqlite3], the export script ends with status 1 at its [read] and
    writes no report: its data rows are none, not the 1440 rows per
    target the script's header and the specification announce. *)
Theorem export_writes_no_row (sqlite3_csv : string -> list ping_row -> Z * string)
    (start_s : Z) (pings : list ping_row) :
  let e := export_daily_csv sqlite3_csv start_s pings in
  se_status e = 1
  /\ se_outfile e = None
  /\ data_rows e = []
  /\ List.length (data_rows e) <> (1440 * List.length TARGETS)%nat.
Proof.
  intros e. subst e. rewrite export_stops_at_read.
  repeat split. discriminate.
Qed.

(** C8.  On a day whose first minute holds three samples of one target,
    two of them with a latency, the export leaves no row, hence no
    average latency and no success ratio for that minute. *)
Theorem average_latency_not_exported
    (sqlite3_csv : string -> list ping_row -> Z * string) :
  (exists p q, In p demo_pings /\ p_time_ms p = Some (Fin q))
  /\ forall row,
       ~ In row (data_rows (export_daily_csv sqlite3_csv 1700006400 demo_pings)).
Proof.
  split.
  - eexists _, _. split; [left; reflexivity | reflexivity].
  - intros row. rewrite export_stops_at_read. intros [].
Qed.

(** C9.  On a day without samples every slot is empty, and the export
    leaves no row for any of them: no line of the report reads
    [no_data], as no line is written. *)
Theorem empty_slot_not_exported
    (sqlite3_csv : string -> list ping_row -> Z * string) :
  let e := export_daily_csv sqlite3_csv 1700006400 [] in
  se_outfile e = None /\ forall row, ~ In row (data_rows e).
Proof.
  intros e. subst e. rewrite export_stops_at_read.
  split; [reflexivity | intros row []].
Qed.
(** ** Failure report *)

Lemma exists_near_iff (tol : Z) (pings : list ping_row) (ts0 : Z) (o : string) (v : Z) :
  exists_near tol pings ts0 o v = true <->
  exists p, In p pings /\ p_target p = o /\ Z.abs (p_ts p - ts0) <= tol
            /\ p_alive p = Some v.
Proof.
  unfold exists_near. rewrite existsb_exists. split.
  - intros [p [Hin H]]. exists p.
    apply andb_true_iff in H. destruct H as [H Ha].
    apply andb_true_iff in H. destruct H as [Ht Hw].
    apply String.eqb_eq in Ht. unfold within_tol in Hw.
    apply andb_true_iff in Hw. destruct Hw as [H1 H2].
    apply Z.leb_le in H1. apply Z.leb_le in H2.
    unfold alive_is in Ha. destruct (p_alive p) as [a|]; [|discriminate].
    apply Z.eqb_eq in Ha. subst a.
    repeat split; try assumption. lia.
  - intros [p (Hin & Ht & Hw & Ha)]. exists p. split; [exact Hin|].
    unfold within_tol, alive_is. rewrite Ha, Z.eqb_refl.
    rewrite (proj2 (String.eqb_eq _ _) Ht).
    assert (H1 : (ts0 - tol <=? p_ts p) = true) by (apply Z.leb_le; lia).
    assert (H2 : (p_ts p <=? ts0 + tol) = true) by (apply Z.leb_le; lia).
    rewrite H1, H2. reflexivity.
Qed.

Lemma other_targets (o : string) :
  In o TARGETS -> o <> TARGET_KEY -> In o TARGETS_OTHER.
Proof.
  unfold TARGETS, TARGET_KEY, TARGETS_OTHER. simpl.
  intros H Hne. intuition congruence.
Qed.

Lemma is_key_failure_iff (start_ms end_ms : Z) (f : ping_row) :
  is_key_failure start_ms end_ms f = true <->
  p_target f = TARGET_KEY /\ p_alive f = Some 0 /\ start_ms <= p_ts f < end_ms.
Proof.
  unfold is_key_failure, alive_is.
  rewrite !andb_true_iff, String.eqb_eq, Z.leb_le, Z.ltb_lt.
  destruct (p_alive f) as [a|].
  - rewrite Z.eqb_eq. split.
    + intros [[[H1 ->] H3] H4]. auto.
    + intros (H1 & H2 & H3 & H4). injection H2 as ->. auto.
  - split; [intros [[[_ C] _] _]; discriminate | intros (_ & C & _); discriminate].
Qed.

(** C2.  On a table whose rows were written by the ping loop ([alive] is
    0 or 1): the report has one row per failure sample of the key target
    in the window, in ascending order of timestamp; and in the row of a
    failure [f], the column of every other configured target [o] reads
    "success" when a sample of [o] within the tolerance of [f] is alive,
    else "fail" when a sample of [o] lies within the tolerance at all,
    else "no_data". *)
Theorem failure_correlation (tol start_ms end_ms : Z) (pings : list ping_row) :
  (forall p, In p pings -> p_alive p = Some 0 \/ p_alive p = Some 1) ->
  exists fs,
    failures_select tol start_ms end_ms pings = map (failure_columns tol pings) fs
    /\ Permutation fs (filter (is_key_failure start_ms end_ms) pings)
    /\ (forall f, In f fs <->
          In f pings /\ p_target f = TARGET_KEY /\ p_alive f = Some 0
          /\ start_ms <= p_ts f < end_ms)
    /\ StronglySorted (fun a b => p_ts a <= p_ts b) fs
    /\ forall f, In f fs ->
         f_key (failure_columns tol pings f) = "fail"%string
         /\ map fst (f_others (failure_columns tol pings f)) = TARGETS_OTHER
         /\ forall o, In o TARGETS -> o <> TARGET_KEY ->
              exists v,
                In (o, v) (f_others (failure_columns tol pings f))
                /\ ((exists p, In p pings /\ p_target p = o
                               /\ Z.abs (p_ts p - p_ts f) <= tol
                               /\ p_alive p = Some 1) ->
                    v = "success"%string)
                /\ (~ (exists p, In p pings /\ p_target p = o
                                 /\ Z.abs (p_ts p - p_ts f) <= tol
                                 /\ p_alive p = Some 1) ->
                    (exists p, In p pings /\ p_target p = o
                               /\ Z.abs (p_ts p - p_ts f) <= tol) ->
                    v = "fail"%string)
                /\ (~ (exists p, In p pings /\ p_target p = o
                                 /\ Z.abs (p_ts p - p_ts f) <= tol) ->
                    v = "no_data"%string).
Proof.
  intros Hrec.
  exists (order_by ts_asc (filter (is_key_failure start_ms end_ms) pings)).
  split; [reflexivity|].
  split; [apply Permutation_sym, order_by_perm|].
  split.
  { intros f. rewrite order_by_In, filter_In, is_key_failure_iff. tauto. }
  split; [apply ts_asc_sorted|].
  intros f _. split; [reflexivity|].
  split; [reflexivity|].
  intros o Ho Hne.
  exists (other_case tol pings (p_ts f) o).
  split.
  { unfold failure_columns. cbn [f_others].
    apply (in_map (fun t => (t, other_case tol pings (p_ts f) t))).
    apply other_targets; assumption. }
  unfold other_case.
  destruct (exists_near tol pings (p_ts f) o 1) eqn:E1.
  - split; [reflexivity|]. split.
    + intros Hno. exfalso. apply Hno, exists_near_iff, E1.
    + intros Hno. exfalso. apply Hno.
      apply exists_near_iff in E1. destruct E1 as [p (H1 & H2 & H3 & _)].
      exists p. auto.
  - assert (Hno1 : ~ exists p, In p pings /\ p_target p = o
                     /\ Z.abs (p_ts p - p_ts f) <= tol /\ p_alive p = Some 1).
    { intros C. apply exists_near_iff in C. congruence. }
    split; [intros C; contradiction|].
    destruct (exists_near tol pings (p_ts f) o 0) eqn:E0.
    + split; [reflexivity|].
      intros Hno. exfalso. apply Hno.
      apply exists_near_iff in E0. destruct E0 as [p (H1 & H2 & H3 & _)].
      exists p. auto.
    + split; [|reflexivity].
      intros _ [p (H1 & H2 & H3)]. exfalso.
      destruct (Hrec p H1) as [Ha | Ha].
      * assert (C : exists_near tol pings (p_ts f) o 0 = true).
        { apply exists_near_iff. exists p. auto. }
        congruence.
      * apply Hno1. exists p. auto.
Qed.

Lemma failure_correlation_witness :
  (forall p, In p precedence_pings -> p_alive p = Some 0 \/ p_alive p = Some 1)
  /\ generate_failures_report 1700006400 precedence_pings
     = [ {| f_datetime := 1700006401; f_key := "fail";
            f_others := [("8.8.8.8", "no_data"); ("google.com", "fail");
                         ("frontier.com", "no_data"); ("192.168.2.1", "no_data")]%string |};
         {| f_datetime := 1700006405; f_key := "fail";
            f_others := [("8.8.8.8", "success"); ("google.com", "no_data");
                         ("frontier.com", "no_data"); ("192.168.2.1", "no_data")]%string |} ]
  /\ exists fs,
       generate_failures_report 1700006400 precedence_pings
       = map (failure_columns TOL_MS precedence_pings) fs
       /\ StronglySorted (fun a b => p_ts a <= p_ts b) fs.
Proof.
  assert (Hrec : forall p, In p precedence_pings ->
                   p_alive p = Some 0 \/ p_alive p = Some 1).
  { intros p Hp. unfold precedence_pings in Hp. simpl in Hp.
    repeat (destruct Hp as [<- | Hp]; [simpl; auto|]). destruct Hp. }
  split; [exact Hrec|]. split; [vm_compute; reflexivity|].
  destruct (failure_correlation TOL_MS (1700006400 * 1000)
              ((1700006400 + 24 * 60 * 60) * 1000) precedence_pings Hrec)
    as (fs & Hsel & _ & _ & Hsorted & _).
  exists fs. split; [exact Hsel | exact Hsorted].
Defined.

(** * Part II, continued. Further properties *)

(** ** Store: the latest sample of a target *)

Lemma ts_desc_sorted (l : list ping_row) :
  StronglySorted (fun a b => p_ts b <= p_ts a) (order_by ts_desc l).
Proof.
  eapply StronglySorted_weaken; [| apply (order_by_sorted ts_desc)].
  - intros a b H. apply Z.leb_le, H.
  - intros x y. unfold ts_desc. rewrite !Z.leb_le. lia.
  - intros x y z. unfold ts_desc. rewrite !Z.leb_le. lia.
Qed.

Lemma head_limit_1 {A : Type} (l : list A) : head (sql_limit 1 l) = head l.
Proof. destruct l; reflexivity. Qed.

Lemma select_latest_spec (db : database) (t : string) :
  db_fault db (SelectLatest t) = None ->
  exists o, select_latest db t = Rows o
    /\ match o with
       | Some r =>
           In r (db_pings db) /\ p_target r = t
           /\ forall r', In r' (db_pings db) -> p_target r' = t -> p_ts r' <= p_ts r
       | None => forall r', In r' (db_pings db) -> p_target r' <> t
       end.
Proof.
  intros Hf. unfold select_latest. rewrite Hf, head_limit_1.
  set (l := filter (fun p => String.eqb (p_target p) t) (db_pings db)).
  pose proof (ts_desc_sorted l) as Hs.
  pose proof (order_by_In ts_desc) as Hin.
  destruct (order_by ts_desc l) as [|r s] eqn:E.
  - exists None. split; [reflexivity|].
    intros r' Hr' Ht.
    assert (C : In r' (order_by ts_desc l)).
    { apply order_by_In. apply filter_In. split; [exact Hr'|].
      apply String.eqb_eq, Ht. }
    rewrite E in C. destruct C.
  - exists (Some r). split; [reflexivity|].
    assert (Hr : In r l).
    { apply (order_by_In ts_desc). rewrite E. left. reflexivity. }
    apply filter_In in Hr. destruct Hr as [Hr1 Hr2].
    apply String.eqb_eq in Hr2.
    split; [exact Hr1|]. split; [exact Hr2|].
    intros r' Hr' Ht.
    assert (C : In r' (order_by ts_desc l)).
    { apply order_by_In. apply filter_In. split; [exact Hr'|].
      apply String.eqb_eq, Ht. }
    rewrite E in C. apply StronglySorted_inv in Hs. destruct Hs as [_ Hall].
    destruct C as [<- | C]; [lia|].
    rewrite Forall_forall in Hall. apply Hall, C.
Qed.



(** ** Store: what the ping loop writes *)

Lemma next_id_above (tbl : list ping_row) (r : ping_row) :
  In r tbl -> p_id r < next_id tbl.
Proof.
  unfold next_id. induction tbl as [|x l IH]; simpl; [intros []|].
  intros [<- | H]; [lia|]. specialize (IH H). lia.
Qed.

Lemma ping_tick_ids (tbl : list ping_row) (ts : Z) (target out err : string) :
  NoDup (map p_id tbl) -> NoDup (map p_id (ping_tick tbl ts target out err)).
Proof.
  intros H. unfold ping_tick, insert_ping. rewrite map_app. simpl.
  apply NoDup_app; [exact H | repeat constructor; intros [] |].
  intros i Hi [<- | []]. apply in_map_iff in Hi. destruct Hi as [r [E Hr]].
  apply next_id_above in Hr. simpl in E. lia.
Qed.

Lemma run_ticks_app (tbl : list ping_row) (ticks : list tick) :
  exists added,
    run_ticks tbl ticks = tbl ++ added
    /\ map (fun r => (p_ts r, p_target r, p_raw r)) added
       = map (fun k => (k_ts k, k_target k, (k_stdout k ++ k_stderr k)%string)) ticks.
Proof.
  revert tbl. induction ticks as [|k ticks IH]; intros tbl.
  - exists []. simpl. rewrite app_nil_r. split; reflexivity.
  - destruct (IH (ping_tick tbl (k_ts k) (k_target k) (k_stdout k) (k_stderr k)))
      as [added [E1 E2]].
    change (run_ticks tbl (k :: ticks))
      with (run_ticks (ping_tick tbl (k_ts k) (k_target k) (k_stdout k) (k_stderr k))
                      ticks).
    rewrite E1. unfold ping_tick, insert_ping. rewrite <- app_assoc.
    eexists. split; [reflexivity|].
    cbn [map app]. rewrite E2. reflexivity.
Qed.

(** X2.  Whatever probes complete, in whatever order, the ping loop of
    [server.js] only appends: the rows already stored stay as they are
    and in place, one row is added per stored probe with the probe's
    timestamp, target and raw output; every stored row has [alive] 0 or
    1, no latency when [alive] is 0, and an [id] no other row has. *)
Theorem ping_loop_store (tbl : list ping_row) (ticks : list tick) :
  Forall row_invariant tbl -> NoDup (map p_id tbl) ->
  Forall row_invariant (run_ticks tbl ticks)
  /\ NoDup (map p_id (run_ticks tbl ticks))
  /\ exists added,
       run_ticks tbl ticks = tbl ++ added
       /\ map (fun r => (p_ts r, p_target r, p_raw r)) added
          = map (fun k => (k_ts k, k_target k, (k_stdout k ++ k_stderr k)%string)) ticks.
Proof.
  intros Hi Hn. split; [|split; [|apply run_ticks_app]].
  - revert tbl Hi Hn. induction ticks as [|k ticks IH]; intros tbl Hi Hn; [exact Hi|].
    change (run_ticks tbl (k :: ticks))
      with (run_ticks (ping_tick tbl (k_ts k) (k_target k) (k_stdout k) (k_stderr k))
                      ticks).
    apply IH; [apply ping_tick_invariant, Hi | apply ping_tick_ids, Hn].
  - revert tbl Hi Hn. induction ticks as [|k ticks IH]; intros tbl Hi Hn; [exact Hn|].
    change (run_ticks tbl (k :: ticks))
      with (run_ticks (ping_tick tbl (k_ts k) (k_target k) (k_stdout k) (k_stderr k))
                      ticks).
    apply IH; [apply ping_tick_invariant, Hi | apply ping_tick_ids, Hn].
Qed.

Lemma ping_loop_store_witness :
  Forall row_invariant [] /\ NoDup (map p_id [])
  /\ Forall row_invariant (run_ticks [] demo_ticks)
  /\ map p_alive (run_ticks [] demo_ticks) = [Some 1; Some 0]
  /\ map p_id (run_ticks [] demo_ticks) = [1; 2].
Proof.
  assert (H1 : Forall row_invariant []) by constructor.
  assert (H2 : NoDup (map p_id [])) by constructor.
  split; [exact H1|]. split; [exact H2|].
  split; [exact (proj1 (ping_loop_store [] demo_ticks H1 H2))|].
  split; reflexivity.
Defined.

(** X3.  In [server.js], a probe stamped later than every stored sample
    of its target is, once stored, the row [/api/status] reads for that
    target. *)
Theorem tick_becomes_latest (db : database) (ts : Z) (t out err : string) :
  db_fault db (SelectLatest t) = None ->
  (forall r, In r (db_pings db) -> p_target r = t -> p_ts r < ts) ->
  let db' := {| db_pings := ping_tick (db_pings db) ts t out err;
                db_traceroutes := db_traceroutes db;
                db_fault := db_fault db |} in
  exists r,
    select_latest db' t = Rows (Some r)
    /\ p_ts r = ts /\ p_target r = t
    /\ p_alive r = Some (pr_alive (runPingCommand out err))
    /\ p_time_ms r = bind_number (pr_time_ms (runPingCommand out err))
    /\ p_raw r = (out ++ err)%string.
Proof.
  intros Hf Hnew db'.
  destruct (select_latest_spec db' t Hf) as [o [E Ho]].
  set (new := {| p_id := next_id (db_pings db); p_ts := ts; p_target := t;
                 p_alive := Some (pr_alive (runPingCommand out err));
                 p_time_ms := bind_number (pr_time_ms (runPingCommand out err));
                 p_ttl := bind_number (pr_ttl (runPingCommand out err));
                 p_raw := pr_raw (runPingCommand out err) |}).
  assert (Hin : In new (db_pings db')).
  { unfold db'; simpl. unfold ping_tick, insert_ping. apply in_or_app.
    right. left. reflexivity. }
  destruct o as [r|].
  - destruct Ho as (H1 & H2 & H3). exists r. split; [exact E|].
    unfold db' in H1; simpl in H1. unfold ping_tick, insert_ping in H1.
    apply in_app_or in H1. destruct H1 as [H1 | [<- | []]].
    + specialize (H3 new Hin eq_refl). specialize (Hnew r H1 H2).
      simpl in H3. lia.
    + repeat split.
  - exfalso. exact (Ho new Hin eq_refl).
Qed.

Lemma tick_becomes_latest_witness :
  db_fault demo_db (SelectLatest "8.8.8.8") = None
  /\ (forall r, In r (db_pings demo_db) -> p_target r = "8.8.8.8"%string ->
        p_ts r < 1700000000000)
  /\ exists r,
       select_latest
         {| db_pings := ping_tick (db_pings demo_db) 1700000000000 "8.8.8.8"
                          "Request timeout" EmptyString;
            db_traceroutes := db_traceroutes demo_db;
            db_fault := db_fault demo_db |} "8.8.8.8" = Rows (Some r)
       /\ p_ts r = 1700000000000.
Proof.
  assert (H : forall r, In r (db_pings demo_db) -> p_target r = "8.8.8.8"%string ->
                p_ts r < 1700000000000).
  { intros r Hr _. simpl in Hr. destruct Hr as [<- | [<- | []]]; simpl; lia. }
  split; [reflexivity|]. split; [exact H|].
  destruct (tick_becomes_latest demo_db 1700000000000 "8.8.8.8" "Request timeout"
              EmptyString eq_refl H) as [r (E & Hts & _)].
  exists r. split; [exact E | exact Hts].
Defined.

(** ** Probe executor: what the captures hold *)

Lemma first_match_leftmost {A : Type} (m : string -> option A) (s : string) (a : A) :
  first_match m s = Some a <->
  exists pre suf,
    s = (pre ++ suf)%string /\ m suf = Some a
    /\ forall pre' suf', s = (pre' ++ suf')%string ->
         (String.length pre' < String.length pre)%nat -> m suf' = None.
Proof.
  split.
  - induction s as [|c s IH].
    + simpl. destruct (m EmptyString) eqn:E; [|discriminate].
      intros H. injection H as ->. exists EmptyString, EmptyString.
      split; [reflexivity|]. split; [exact E|]. intros pre' suf' _ Hl.
      simpl in Hl. lia.
    + cbn [first_match]. destruct (m (String c s)) eqn:E.
      * intros H. injection H as ->. exists EmptyString, (String c s).
        split; [reflexivity|]. split; [exact E|]. intros pre' suf' _ Hl.
        simpl in Hl. lia.
      * intros H. destruct (IH H) as [pre [suf (Hs & Hm & Hleft)]].
        exists (String c pre), suf. split; [simpl; rewrite Hs; reflexivity|].
        split; [exact Hm|]. intros pre' suf' Hs' Hl.
        destruct pre' as [|c' pre']; simpl in Hs'.
        -- subst suf'. exact E.
        -- injection Hs' as -> Hs'. apply (Hleft pre' suf' Hs').
           simpl in Hl. lia.
  - intros [pre [suf (Hs & Hm & Hleft)]]. revert s Hs Hleft.
    induction pre as [|c pre IH]; intros s Hs Hleft.
    + simpl in Hs. subst s. destruct suf; simpl; rewrite Hm; reflexivity.
    + simpl in Hs. subst s. cbn [first_match].
      rewrite (Hleft EmptyString (String c (pre ++ suf)) eq_refl) by (simpl; lia).
      apply IH; [reflexivity|]. intros pre' suf' Hs' Hl.
      apply (Hleft (String c pre') suf'); [simpl; rewrite Hs'; reflexivity|].
      simpl. lia.
Qed.


Lemma digit_or_dot_char (c : ascii) :
  is_digit_or_dot c = true ->
  is_space c = false /\ (code c =? 45) = false /\ (code c =? 43) = false
  /\ Ascii.eqb "I"%char c = false.
Proof.
  destruct c as [[] [] [] [] [] [] [] []]; cbv; intros H;
    try discriminate H; repeat split.
Qed.

Lemma digit_char_range (c : ascii) : is_digit c = true -> 0 <= digit_val c <= 9.
Proof.
  unfold is_digit, digit_val. intros H. apply andb_true_iff in H.
  rewrite !Z.leb_le in H. lia.
Qed.

Lemma digit_is_digit_or_dot (c : ascii) : is_digit c = true -> is_digit_or_dot c = true.
Proof. unfold is_digit_or_dot. intros ->. reflexivity. Qed.

Lemma digits_val_nonneg (acc : Z) (s : string) :
  all_chars is_digit s = true -> 0 <= acc -> 0 <= digits_val acc s.
Proof.
  revert acc. induction s as [|c s IH]; intros acc Hs Ha; simpl; [exact Ha|].
  simpl in Hs. apply andb_true_iff in Hs. destruct Hs as [Hc Hs].
  apply IH; [exact Hs|]. pose proof (digit_char_range c Hc). lia.
Qed.

Lemma pow10_pos (e : Z) : (0 < pow10 e)%Q.
Proof.
  unfold pow10. destruct (e <? 0) eqn:E.
  - assert (H : 0 < 10 ^ (- e)) by (apply Z.pow_pos_nonneg; lia).
    destruct (10 ^ (- e)) as [|p|p]; try lia. reflexivity.
  - assert (H : 0 < 10 ^ e) by (apply Z.pow_pos_nonneg; apply Z.ltb_ge in E; lia).
    unfold Qlt, inject_Z; simpl. lia.
Qed.

Lemma parseFloat_digits (g : string) :
  g <> EmptyString -> all_chars is_digit_or_dot g = true ->
  parseFloat g = NaN \/ parseFloat g = PosInf
  \/ exists q, parseFloat g = Fin q /\ (0 <= q)%Q.
Proof.
  intros Hg Hall. destruct g as [|c g]; [contradiction|].
  simpl in Hall. apply andb_true_iff in Hall. destruct Hall as [Hc _].
  destruct (digit_or_dot_char c Hc) as (Hsp & H45 & H43 & HI).
  unfold parseFloat. cbn [drop_while]. rewrite Hsp.
  unfold read_sign. rewrite H45, H43. cbn [strip]. rewrite HI.
  set (s := String c g).
  set (ip := take_while is_digit s).
  set (r1 := drop_while is_digit s).
  assert (Hip : all_chars is_digit ip = true) by apply take_drop_while.
  assert (Hfp : exists fp r2,
            match r1 with
            | String c0 r' =>
                if code c0 =? 46
                then (take_while is_digit r', drop_while is_digit r')
                else (EmptyString, r1)
            | EmptyString => (EmptyString, r1)
            end = (fp, r2) /\ all_chars is_digit fp = true).
  { destruct r1 as [|c0 r'].
    - exists EmptyString, EmptyString. split; reflexivity.
    - destruct (code c0 =? 46).
      + eexists _, _. split; [reflexivity | apply take_drop_while].
      + eexists _, _. split; [reflexivity | reflexivity]. }
  destruct Hfp as [fp [r2 [E Hfp]]]. rewrite E.
  destruct (is_empty ip && is_empty fp); [left; reflexivity|].
  right. apply to_double_nonneg.
  apply Qmult_le_0_compat.
  - assert (H : 0 <= digits_val 0 (ip ++ fp)).
    { apply digits_val_nonneg; [|lia].
      rewrite all_chars_append, Hip, Hfp. reflexivity. }
    unfold Qle, inject_Z; simpl. lia.
  - apply Qlt_le_weak, pow10_pos.
Qed.

Lemma parseInt10_digits (g : string) :
  g <> EmptyString -> all_chars is_digit g = true ->
  parseInt10 g = to_double (inject_Z (digits_val 0 g)) /\ 0 <= digits_val 0 g.
Proof.
  intros Hg Hall. split; [|apply digits_val_nonneg; [exact Hall | lia]].
  destruct g as [|c g]; [contradiction|].
  pose proof Hall as Hall'.
  simpl in Hall. apply andb_true_iff in Hall. destruct Hall as [Hc Hrest].
  destruct (digit_or_dot_char c (digit_is_digit_or_dot c Hc)) as (Hsp & H45 & H43 & _).
  unfold parseInt10. cbn [drop_while]. rewrite Hsp.
  unfold read_sign. rewrite H45, H43.
  destruct (span_append is_digit (String c g) EmptyString Hall' I) as [Et _].
  assert (Ea : (String c g ++ EmptyString)%string = String c g).
  { clear. generalize (String c g). intros s.
    induction s as [|x s IH]; simpl; [reflexivity | rewrite IH; reflexivity]. }
  rewrite Ea in Et. rewrite Et. reflexivity.
Qed.

Lemma digits_val_below (acc : Z) (s : string) :
  all_chars is_digit s = true -> 0 <= acc ->
  digits_val acc s < (acc + 1) * 10 ^ Z.of_nat (String.length s).
Proof.
  revert acc. induction s as [|c s IH]; intros acc Hs Ha.
  - simpl. lia.
  - simpl in Hs. apply andb_true_iff in Hs. destruct Hs as [Hc Hs].
    pose proof (digit_char_range c Hc) as Hd.
    cbn [digits_val String.length]. rewrite Nat2Z.inj_succ, Z.pow_succ_r by lia.
    specialize (IH (10 * acc + digit_val c) Hs ltac:(lia)).
    assert (Hp : 0 < 10 ^ Z.of_nat (String.length s)) by (apply Z.pow_pos_nonneg; lia).
    nia.
Qed.

Lemma ttl_at_digits (s g : string) :
  ttl_at s = Some g -> g <> EmptyString /\ all_chars is_digit g = true.
Proof.
  unfold ttl_at. destruct (ci_strip "ttl" s) as [[|c r]|]; try discriminate.
  destruct (_ || _); [|discriminate].
  destruct (is_empty (take_while is_digit (drop_while is_space r))) eqn:E;
    [discriminate|].
  intros H. injection H as <-. split.
  - intros C. rewrite C in E. discriminate.
  - apply take_drop_while.
Qed.

Lemma first_match_some {A : Type} (m : string -> option A) (s : string) (a : A) :
  first_match m s = Some a -> exists suf, m suf = Some a.
Proof.
  intros H. apply first_match_leftmost in H.
  destruct H as [pre [suf (_ & Hm & _)]]. exists suf. exact Hm.
Qed.

(** X5.  Whatever [ping] wrote: a parsed latency is NaN, [Infinity] or a
    number that is not negative; a parsed TTL is [Infinity] or a number
    that is not negative, and a TTL of at most 15 digits is the integer
    written.  NaN is stored as NULL, hence the stored latency is NULL,
    [Infinity] or not negative; the stored TTL is the parsed one. *)
Theorem parsed_fields_range (stdout stderr : string) :
  let res := runPingCommand stdout stderr in
  (pr_time_ms res = None \/ pr_time_ms res = Some NaN
   \/ pr_time_ms res = Some PosInf
   \/ exists q, pr_time_ms res = Some (Fin q) /\ (0 <= q)%Q)
  /\ (pr_ttl res = None \/ pr_ttl res = Some PosInf
      \/ exists q, pr_ttl res = Some (Fin q) /\ (0 <= q)%Q)
  /\ (forall g, ttlMatch (stdout ++ stderr) = Some g ->
        (String.length g <= 15)%nat ->
        pr_ttl res = Some (js_int (digits_val 0 g)))
  /\ (bind_number (pr_time_ms res) = None
      \/ bind_number (pr_time_ms res) = Some PosInf
      \/ exists q, bind_number (pr_time_ms res) = Some (Fin q) /\ (0 <= q)%Q)
  /\ bind_number (pr_ttl res) = pr_ttl res.
Proof.
  intros res.
  assert (Ht : pr_time_ms res = None \/ pr_time_ms res = Some NaN
               \/ pr_time_ms res = Some PosInf
               \/ exists q, pr_time_ms res = Some (Fin q) /\ (0 <= q)%Q).
  { subst res. unfold runPingCommand. cbn [pr_time_ms].
    destruct (timeMatch (stdout ++ stderr)) as [g|] eqn:E; [|left; reflexivity].
    right. unfold timeMatch in E. apply first_match_some in E.
    destruct E as [suf E]. apply time_at_spec in E.
    destruct E as [rest (kw & sep & ws1 & ws2 & u & _ & _ & _ & _ & Hg & Hnum & _)].
    destruct (parseFloat_digits g Hg Hnum) as [-> | [-> | [q [-> Hq]]]].
    - left. reflexivity.
    - right. left. reflexivity.
    - right. right. exists q. split; [reflexivity | exact Hq]. }
  assert (Hl : pr_ttl res = None \/ pr_ttl res = Some PosInf
               \/ exists q, pr_ttl res = Some (Fin q) /\ (0 <= q)%Q).
  { subst res. unfold runPingCommand. cbn [pr_ttl].
    destruct (ttlMatch (stdout ++ stderr)) as [g|] eqn:E; [|left; reflexivity].
    right. unfold ttlMatch in E. apply first_match_some in E.
    destruct E as [suf E]. apply ttl_at_digits in E. destruct E as [Hg Hd].
    destruct (parseInt10_digits g Hg Hd) as [-> Hn].
    assert (Hq : (0 <= inject_Z (digits_val 0 g))%Q).
    { change 0%Q with (inject_Z 0). rewrite <- Zle_Qle. exact Hn. }
    destruct (to_double_nonneg _ Hq) as [-> | [q [-> Hq']]].
    - left. reflexivity.
    - right. exists q. split; [reflexivity | exact Hq']. }
  split; [exact Ht|]. split; [exact Hl|]. split; [|split].
  - intros g Hm Hlen. subst res. unfold runPingCommand. cbn [pr_ttl]. rewrite Hm.
    unfold ttlMatch in Hm. apply first_match_some in Hm.
    destruct Hm as [suf E]. apply ttl_at_digits in E. destruct E as [Hg Hd].
    destruct (parseInt10_digits g Hg Hd) as [-> Hn]. f_equal.
    apply to_double_int.
    pose proof (digits_val_below 0 g Hd ltac:(lia)) as Hb.
    assert (Hp : 10 ^ Z.of_nat (String.length g) <= 10 ^ 15)
      by (apply Z.pow_le_mono_r; lia).
    assert (H53 : 10 ^ 15 < 2 ^ 53) by reflexivity.
    rewrite Z.abs_eq by exact Hn. lia.
  - destruct Ht as [E | [E | [E | [q [E Hq]]]]]; rewrite E.
    + left. reflexivity.
    + left. reflexivity.
    + right. left. reflexivity.
    + right. right. exists q. split; [reflexivity | exact Hq].
  - destruct Hl as [E | [E | [q [E Hq]]]]; rewrite E; reflexivity.
Qed.

Lemma parsed_fields_range_witness :
  ttlMatch ("64 bytes from 8.8.8.8: icmp_seq=1 ttl=117 time=9.87 ms" ++ EmptyString)
  = Some "117"%string
  /\ (String.length "117" <= 15)%nat
  /\ pr_ttl (runPingCommand "64 bytes from 8.8.8.8: icmp_seq=1 ttl=117 time=9.87 ms"
                            EmptyString)
     = Some (js_int 117).
Proof.
  assert (H1 : ttlMatch ("64 bytes from 8.8.8.8: icmp_seq=1 ttl=117 time=9.87 ms"
                         ++ EmptyString) = Some "117"%string) by reflexivity.
  assert (H2 : (String.length "117" <= 15)%nat) by (simpl; lia).
  split; [exact H1|]. split; [exact H2|].
  exact (proj1 (proj2 (proj2 (parsed_fields_range _ _))) _ H1 H2).
Defined.

(** ** Query API: [/api/status] of the better-sqlite3 server *)

Lemma status_loop_ok (db : database) (targets : list string)
    (init : gmap string (option ping_row)) :
  (forall t, In t targets -> db_fault db (SelectLatest t) = None) ->
  exists result,
    BetterSqlite3Server.status_loop db targets init = Rows result
    /\ (forall t, In t targets ->
          result !! t = Some (row_or_null (select_latest db t)))
    /\ (forall t, ~ In t targets -> result !! t = init !! t).
Proof.
  revert init. induction targets as [|x targets IH]; intros init Hok.
  - exists init. split; [reflexivity|]. split; [intros t []|].
    intros t _. reflexivity.
  - cbn [BetterSqlite3Server.status_loop].
    assert (Hx : db_fault db (SelectLatest x) = None) by (apply Hok; left; reflexivity).
    destruct (select_latest db x) as [row|m] eqn:E.
    2:{ unfold select_latest in E. rewrite Hx in E. discriminate. }
    destruct (IH (<[x := row_or_null (Rows row)]> init)) as [result (E1 & E2 & E3)].
    { intros t Ht. apply Hok. right. exact Ht. }
    exists result. split; [exact E1|]. split.
    + intros t [<- | Ht].
      * destruct (in_dec string_dec x targets) as [Hi | Hni]; [apply E2, Hi|].
        rewrite (E3 x Hni), E. apply lookup_insert_eq.
      * apply E2, Ht.
    + intros t Ht. rewrite E3 by (intros C; apply Ht; right; exact C).
      apply lookup_insert_ne. intros ->. apply Ht. left. reflexivity.
Qed.

Lemma status_loop_fails (db : database) (pre post : list string) (t m : string)
    (init : gmap string (option ping_row)) :
  (forall t', In t' pre -> db_fault db (SelectLatest t') = None) ->
  db_fault db (SelectLatest t) = Some m ->
  BetterSqlite3Server.status_loop db (pre ++ t :: post) init = Failed m.
Proof.
  revert init. induction pre as [|x pre IH]; intros init Hpre Ht.
  - simpl. unfold select_latest. rewrite Ht. reflexivity.
  - cbn [app BetterSqlite3Server.status_loop].
    assert (Hx : db_fault db (SelectLatest x) = None) by (apply Hpre; left; reflexivity).
    destruct (select_latest db x) as [row|m'] eqn:E.
    2:{ unfold select_latest in E. rewrite Hx in E. discriminate. }
    apply IH; [|exact Ht]. intros t' Ht'. apply Hpre. right. exact Ht'.
Qed.

(** X6.  [/api/status] of the better-sqlite3 server.  When no read
    fails it answers [ok:true] with exactly the configured targets as
    keys of [latest], each holding the target's newest row or [null],
    and the sqlite3 server writes the very same answer whatever the order
    of its callbacks.  When a read fails, the exception of the first
    failing target leaves the handler and nothing is answered. *)
Theorem status_both_servers (db : database) :
  ((forall t, In t TARGETS -> db_fault db (SelectLatest t) = None) ->
   exists latest,
     BetterSqlite3Server.get_api_status db
     = BetterSqlite3Server.Responded (res_json (StatusBody TARGETS latest))
     /\ dom latest = list_to_set TARGETS
     /\ (forall t, In t TARGETS ->
           latest !! t = Some (row_or_null (select_latest db t)))
     /\ (forall completion, Permutation completion TARGETS ->
           Sqlite3Server.sent (Sqlite3Server.get_api_status db completion)
           = [res_json (StatusBody TARGETS latest)]))
  /\ (forall pre t post m,
        TARGETS = pre ++ t :: post ->
        (forall t', In t' pre -> db_fault db (SelectLatest t') = None) ->
        db_fault db (SelectLatest t) = Some m ->
        BetterSqlite3Server.get_api_status db = BetterSqlite3Server.Threw m).
Proof.
  split.
  - intros Hok. unfold BetterSqlite3Server.get_api_status.
    destruct (status_loop_ok db TARGETS ∅ Hok) as [latest (E1 & E2 & E3)].
    rewrite E1. exists latest. split; [reflexivity|].
    split; [|split; [exact E2|]].
    + apply set_eq. intros t.
      rewrite elem_of_dom, elem_of_list_to_set, list_elem_of_In. split.
      * intros [v Hv]. destruct (in_dec string_dec t TARGETS) as [Hi | Hni];
          [exact Hi|]. rewrite (E3 t Hni), lookup_empty in Hv. discriminate.
      * intros Ht. eexists. apply E2, Ht.
    + intros completion Hperm.
      destruct (status_run db completion) as (_ & Hin & Hout & _ & Hsent).
      rewrite (Hsent (Permutation_length Hperm)). f_equal. f_equal. f_equal.
      apply map_eq. intros t.
      destruct (in_dec string_dec t TARGETS) as [Hi | Hni].
      * rewrite (E2 t Hi). apply Hin.
        eapply Permutation_in; [apply Permutation_sym|]; eassumption.
      * rewrite (E3 t Hni), lookup_empty. apply Hout. intros C. apply Hni.
        eapply Permutation_in; eassumption.
  - intros pre t post m E Hpre Ht. unfold BetterSqlite3Server.get_api_status.
    rewrite E, (status_loop_fails db pre post t m ∅ Hpre Ht). reflexivity.
Qed.

Lemma status_both_servers_witness :
  (forall t, In t TARGETS -> db_fault demo_db (SelectLatest t) = None)
  /\ exists latest,
       BetterSqlite3Server.get_api_status demo_db
       = BetterSqlite3Server.Responded (res_json (StatusBody TARGETS latest))
       /\ dom latest = list_to_set TARGETS.
Proof.
  assert (H : forall t, In t TARGETS -> db_fault demo_db (SelectLatest t) = None).
  { intros t _. reflexivity. }
  split; [exact H|].
  destruct (proj1 (status_both_servers demo_db) H) as [latest (E & Hd & _)].
  exists latest. split; [exact E | exact Hd].
Defined.

(** ** Query API: what LIMIT cuts off *)

Lemma sql_limit_split {A : Type} (n : Z) (l : list A) :
  exists dropped,
    l = sql_limit n l ++ dropped
    /\ (n < 0 \/ Z.of_nat (List.length l) <= n -> dropped = []).
Proof.
  unfold sql_limit. destruct (n <? 0) eqn:E.
  - exists []. rewrite app_nil_r. split; [reflexivity | intros _; reflexivity].
  - exists (skipn (Z.to_nat n) l). split; [symmetry; apply firstn_skipn|].
    apply Z.ltb_ge in E. intros [H | H]; [lia|].
    apply skipn_all2. lia.
Qed.

Lemma StronglySorted_app_cross {A : Type} (R : A -> A -> Prop) (l1 l2 : list A) :
  StronglySorted R (l1 ++ l2) ->
  forall x y, In x l1 -> In y l2 -> R x y.
Proof.
  induction l1 as [|a l1 IH]; intros H x y Hx Hy; [destruct Hx|].
  simpl in H. apply StronglySorted_inv in H. destruct H as [Hs Hall].
  destruct Hx as [<- | Hx].
  - rewrite Forall_forall in Hall. apply Hall, in_or_app. right. exact Hy.
  - apply IH; assumption.
Qed.

(** X7.  When [/api/pings] has more rows in its window than [limit], the
    rows it returns are the oldest ones: every row of the window that is
    left out is at least as recent as every row returned; nothing is left
    out when the window holds at most [limit] rows or the limit is
    negative. *)
Theorem pings_limit_keeps_oldest (db : database) (now : Z)
    (q_hours q_limit : option string) (since : jsnum) (rows : list ping_row) :
  pings_answer db now q_hours q_limit since rows ->
  exists n dropped,
    limit_value (pings_limit_of q_limit) = Some n
    /\ Permutation (rows ++ dropped)
         (filter (fun p => ts_ge (p_ts p) since) (db_pings db))
    /\ (forall r d, In r rows -> In d dropped -> p_ts r <= p_ts d)
    /\ (n < 0 \/ Z.of_nat (List.length
                   (filter (fun p => ts_ge (p_ts p) since) (db_pings db))) <= n ->
        dropped = []).
Proof.
  intros H. apply pings_answer_inv in H. destruct H as [_ [n [Hn Hr]]].
  set (w := filter (fun p => ts_ge (p_ts p) since) (db_pings db)) in *.
  destruct (sql_limit_split n (order_by ts_asc w)) as [dropped [E Hd]].
  exists n, dropped. rewrite <- Hr in E.
  split; [exact Hn|].
  split; [rewrite <- E; apply Permutation_sym, order_by_perm|].
  split.
  - intros r d Hr' Hd'. pose proof (ts_asc_sorted w) as Hs. rewrite E in Hs.
    exact (StronglySorted_app_cross _ _ _ Hs r d Hr' Hd').
  - intros Hc. apply Hd. rewrite order_by_length. exact Hc.
Qed.

Lemma pings_limit_keeps_oldest_witness :
  let kept := [demo_row 1699999998000 "1.1.1.1" 0 None] in
  pings_answer demo_db 1700000000000 None (Some "1"%string)
    (since_of 1700000000000 None) kept
  /\ exists n dropped,
       limit_value (pings_limit_of (Some "1"%string)) = Some n
       /\ (forall r d, In r kept -> In d dropped -> p_ts r <= p_ts d).
Proof.
  intros kept.
  assert (H : pings_answer demo_db 1700000000000 None (Some "1"%string)
                (since_of 1700000000000 None) kept).
  { left. vm_compute. reflexivity. }
  split; [exact H|].
  destruct (pings_limit_keeps_oldest _ _ _ _ _ _ H) as [n [dropped (E & _ & Ho & _)]].
  exists n, dropped. split; [exact E | exact Ho].
Defined.

(** ** Query API: [/api/traceroutes] *)

Lemma tr_desc_sorted (l : list trace_row) :
  StronglySorted (fun a b => t_ts b <= t_ts a) (order_by tr_desc l).
Proof.
  eapply StronglySorted_weaken; [| apply (order_by_sorted tr_desc)].
  - intros a b H. apply Z.leb_le, H.
  - intros x y. unfold tr_desc. rewrite !Z.leb_le. lia.
  - intros x y z. unfold tr_desc. rewrite !Z.leb_le. lia.
Qed.

Lemma traces_answer_inv (db : database) (q_limit : option string)
    (rows : list trace_row) :
  traces_answer db q_limit rows ->
  exists n, limit_value (traces_limit_of q_limit) = Some n
    /\ rows = sql_limit n (order_by tr_desc (db_traceroutes db)).
Proof.
  unfold traces_answer, Sqlite3Server.get_api_traceroutes,
    BetterSqlite3Server.get_api_traceroutes, select_traces.
  destruct (db_fault db _) as [m|]; [intros [H | H]; discriminate|].
  destruct (limit_value (traces_limit_of q_limit)) as [n|];
    [|intros [H | H]; discriminate].
  intros [H | H]; injection H as H; subst; exists n; split; reflexivity.
Qed.

(** X8.  A successful answer of [/api/traceroutes], from either server:
    the rows are stored traces, newest first; with a non-negative limit
    there are at most [limit] of them, and an absent or empty [limit] is
    10; every trace left out is at most as recent as every trace
    returned. *)
Theorem api_traceroutes_contract (db : database) (q_limit : option string)
    (rows : list trace_row) :
  traces_answer db q_limit rows ->
  StronglySorted (fun a b => t_ts b <= t_ts a) rows
  /\ (forall n, traces_limit_of q_limit = js_int n -> 0 <= n ->
        Z.of_nat (List.length rows) <= n)
  /\ (q_limit = None \/ q_limit = Some EmptyString ->
        traces_limit_of q_limit = js_int 10
        /\ Z.of_nat (List.length rows) <= 10)
  /\ exists dropped,
       Permutation (rows ++ dropped) (db_traceroutes db)
       /\ forall r d, In r rows -> In d dropped -> t_ts d <= t_ts r.
Proof.
  intros H. apply traces_answer_inv in H. destruct H as [n [Hn Hr]].
  assert (Hcap : forall k, traces_limit_of q_limit = js_int k -> 0 <= k ->
                 Z.of_nat (List.length rows) <= k).
  { intros k Hk Hk0. rewrite Hk, limit_value_int in Hn.
    injection Hn as <-. rewrite Hr. apply sql_limit_length, Hk0. }
  split; [rewrite Hr; apply sql_limit_sorted, tr_desc_sorted|].
  split; [exact Hcap|].
  split.
  { intros [-> | ->]; (split; [reflexivity | apply Hcap; [reflexivity | lia]]). }
  destruct (sql_limit_split n (order_by tr_desc (db_traceroutes db)))
    as [dropped [E _]].
  exists dropped. rewrite <- Hr in E. split.
  - rewrite <- E. apply Permutation_sym, order_by_perm.
  - intros r d Hr' Hd'. pose proof (tr_desc_sorted (db_traceroutes db)) as Hs.
    rewrite E in Hs. exact (StronglySorted_app_cross _ _ _ Hs r d Hr' Hd').
Qed.

Lemma api_traceroutes_contract_witness :
  traces_answer traces_db None
    [ {| t_id := 2; t_ts := 1700000300000; t_target := "1.1.1.1"; t_raw := "b" |};
      {| t_id := 1; t_ts := 1700000000000; t_target := "1.1.1.1"; t_raw := "a" |} ]
  /\ traces_limit_of None = js_int 10.
Proof.
  assert (H : traces_answer traces_db None
    [ {| t_id := 2; t_ts := 1700000300000; t_target := "1.1.1.1"; t_raw := "b" |};
      {| t_id := 1; t_ts := 1700000000000; t_target := "1.1.1.1"; t_raw := "a" |} ]).
  { left. vm_compute. reflexivity. }
  split; [exact H|].
  destruct (api_traceroutes_contract _ _ _ H) as (_ & _ & Hd & _).
  exact (proj1 (Hd (or_introl eq_refl))).
Defined.

(** ** Query API: the window of [/api/pings] *)

Lemma hours_default_on_NaN (s : string) :
  parseFloat s = NaN -> hours_of (Some s) = hours_of None.
Proof. intros H. unfold hours_of, parseFloat_param. rewrite H. reflexivity. Qed.

(** X9.  The window of [/api/pings].  Whatever [hours] is, the window
    reaches back at least one hour: a sample stamped [now - 3600000] or
    later satisfies [ts >= since].  An [hours] text that is no number
    gives the window of an absent [hours]; and [since] is never NaN, so
    the comparison [ts >= since] is never void. *)
Theorem pings_window (now : Z) :
  (forall q_hours ts, now - 3600000 <= ts ->
     ts_ge ts (since_of now q_hours) = true)
  /\ (forall s, parseFloat s = NaN -> since_of now (Some s) = since_of now None)
  /\ (forall q_hours, since_of now q_hours <> NaN).
Proof.
  split; [|split].
  - intros q_hours ts Hts.
    assert (Hq : (inject_Z now - 3600000 <= inject_Z ts)%Q).
    { rewrite Zle_Qle in Hts. eapply Qle_trans; [|exact Hts].
      unfold Qle, Qminus, Qplus, Qopp, inject_Z; simpl. lia. }
    assert (Hwin : forall m, (1 <= m)%Q ->
              ts_ge ts (js_sub (js_int now)
                          (js_mul (js_mul (js_mul (Fin m) (js_int 60)) (js_int 60))
                                  (js_int 1000))) = true).
    { intros m Hm. cbn [js_mul js_sub js_int ts_ge]. apply Qle_bool_iff.
      change (inject_Z 60) with 60%Q. change (inject_Z 1000) with 1000%Q. lra. }
    unfold since_of, window_ms, hours_of, js_or.
    destruct (parseFloat_param q_hours) as [| | |q]; cbn [truthy].
    + apply (Hwin (inject_Z 24)). discriminate.
    + apply (Hwin (inject_Z 1)). discriminate.
    + reflexivity.
    + destruct (negb (Qeq_bool q 0)).
      * cbn [js_max js_int]. destruct (Qle_bool (inject_Z 1) q) eqn:E.
        -- apply Hwin. apply Qle_bool_iff in E. exact E.
        -- apply (Hwin (inject_Z 1)). discriminate.
      * apply (Hwin (inject_Z 24)). discriminate.
  - intros s Hs. unfold since_of. rewrite (hours_default_on_NaN s Hs). reflexivity.
  - intros q_hours. unfold since_of, hours_of, js_or.
    destruct (parseFloat_param q_hours) as [| | |q]; simpl; try discriminate.
    destruct (negb (Qeq_bool q 0)); [|discriminate].
    unfold window_ms, js_max, js_int.
    destruct (Qle_bool (inject_Z 1) q); discriminate.
Qed.

Lemma pings_window_witness :
  1700000000000 - 3600000 <= 1699996400000
  /\ ts_ge 1699996400000 (since_of 1700000000000 (Some "0.25"%string)) = true
  /\ parseFloat "soon" = NaN
  /\ since_of 1700000000000 (Some "soon"%string) = since_of 1700000000000 None.
Proof.
  assert (H1 : 1700000000000 - 3600000 <= 1699996400000) by lia.
  assert (H2 : parseFloat "soon" = NaN) by reflexivity.
  split; [exact H1|].
  split; [exact (proj1 (pings_window 1700000000000) (Some "0.25"%string) _ H1)|].
  split; [exact H2|].
  exact (proj1 (proj2 (pings_window 1700000000000)) "soon"%string H2).
Defined.

(** ** Dashboard: the failure list *)

Lemma StronglySorted_filter {A : Type} (R : A -> A -> Prop) (f : A -> bool) (l : list A) :
  StronglySorted R l -> StronglySorted R (filter f l).
Proof.
  induction 1 as [|x l Hs IH Hall]; simpl; [constructor|].
  destruct (f x); [|exact IH]. constructor; [exact IH|].
  rewrite Forall_forall in *. intros y Hy. apply filter_In in Hy.
  apply Hall, Hy.
Qed.

Lemma StronglySorted_app {A : Type} (R : A -> A -> Prop) (l1 l2 : list A) :
  StronglySorted R l1 -> StronglySorted R l2 ->
  (forall x y, In x l1 -> In y l2 -> R x y) ->
  StronglySorted R (l1 ++ l2).
Proof.
  intros H1 H2 Hc. induction H1 as [|x l Hs IH Hall]; simpl; [exact H2|].
  constructor.
  - apply IH. intros a b Ha Hb. apply Hc; [right; exact Ha | exact Hb].
  - apply Forall_app. split; [exact Hall|].
    apply Forall_forall. intros y Hy. apply Hc; [left; reflexivity | exact Hy].
Qed.

Lemma StronglySorted_rev {A : Type} (R : A -> A -> Prop) (l : list A) :
  StronglySorted R l -> StronglySorted (fun a b => R b a) (rev l).
Proof.
  induction 1 as [|x l Hs IH Hall]; simpl; [constructor|].
  apply StronglySorted_app; [exact IH | repeat constructor|].
  intros a b Ha [<- | []]. rewrite Forall_forall in Hall.
  apply Hall, in_rev, Ha.
Qed.

Lemma slice_last_split {A : Type} (n : nat) (l : list A) :
  exists older, l = older ++ slice_last n l
    /\ (List.length (slice_last n l) <= n)%nat
    /\ ((List.length l <= n)%nat -> older = []).
Proof.
  unfold slice_last. exists (firstn (List.length l - n) l).
  split; [symmetry; apply firstn_skipn|]. split.
  - rewrite length_skipn. lia.
  - intros H. replace (List.length l - n)%nat with 0%nat by lia. reflexivity.
Qed.

Lemma substring_length (n : nat) (s : string) :
  (String.length (String.substring 0 n s) <= n)%nat.
Proof.
  revert s. induction n as [|n IH]; intros s.
  - destruct s; simpl; lia.
  - destruct s as [|c s]; simpl; [lia|]. specialize (IH s). lia.
Qed.

Lemma failures_shown_newest (entries : list ping_row) :
  StronglySorted (fun a b => p_ts a <= p_ts b) entries ->
  StronglySorted (fun a b => p_ts b <= p_ts a) (failures_shown entries)
  /\ exists older,
       filter entry_alive_is_0 entries = older ++ rev (failures_shown entries)
       /\ forall o s, In o older -> In s (failures_shown entries) -> p_ts o <= p_ts s.
Proof.
  intros Hs. unfold failures_shown.
  set (fs := filter entry_alive_is_0 entries).
  destruct (slice_last_split 50 fs) as [older (E & _ & _)].
  assert (Hfs : StronglySorted (fun a b => p_ts a <= p_ts b) fs)
    by (apply StronglySorted_filter, Hs).
  split.
  - apply (StronglySorted_rev (fun a b => p_ts a <= p_ts b)).
    rewrite E in Hfs. clear - Hfs.
    induction older as [|x older IH]; [exact Hfs|].
    apply IH. simpl in Hfs. apply StronglySorted_inv in Hfs. apply Hfs.
  - exists older. rewrite rev_involutive. split; [exact E|].
    intros o s Ho Hsh. apply in_rev in Hsh. rewrite E in Hfs.
    exact (StronglySorted_app_cross _ _ _ Hfs o s Ho Hsh).
Qed.

Lemma failures_shown_In (entries : list ping_row) (f : ping_row) :
  In f (failures_shown entries) -> In f entries /\ p_alive f = Some 0.
Proof.
  unfold failures_shown, slice_last. intros Hf. apply in_rev in Hf.
  assert (Hfs : In f (filter entry_alive_is_0 entries)).
  { rewrite <- (firstn_skipn (List.length (filter entry_alive_is_0 entries) - 50)).
    apply in_or_app. right. exact Hf. }
  apply filter_In in Hfs. destruct Hfs as [H1 H2]. split; [exact H1|].
  unfold entry_alive_is_0 in H2. destruct (p_alive f) as [a|]; [|discriminate].
  apply Z.eqb_eq in H2. subst a. reflexivity.
Qed.

(** X10.  The failure list of the dashboard shows at most 50 entries, all
    of them entries with [alive === 0], each with at most 800 characters
    of raw output; the placeholder is shown exactly when no entry has
    [alive === 0].  On entries in ascending order of timestamp, as
    [/api/pings] returns them, the list is newest first and shows the
    most recent failures: a failure left out is at most as recent as
    every failure shown. *)
Theorem failure_list_shows_latest (entries : list ping_row) :
  (List.length (failures_shown entries) <= 50)%nat
  /\ (forall f, In f (failures_shown entries) ->
        In f entries /\ p_alive f = Some 0
        /\ (String.length (fi_raw (failure_item_of f)) <= 800)%nat)
  /\ (renderFailures entries = NoFailures <->
      forall e, In e entries -> p_alive e <> Some 0)
  /\ (renderFailures entries <> NoFailures ->
      renderFailures entries
      = FailureItems (map failure_item_of (failures_shown entries)))
  /\ (StronglySorted (fun a b => p_ts a <= p_ts b) entries ->
      StronglySorted (fun a b => p_ts b <= p_ts a) (failures_shown entries)
      /\ exists older,
           filter entry_alive_is_0 entries = older ++ rev (failures_shown entries)
           /\ forall o s, In o older -> In s (failures_shown entries) ->
                          p_ts o <= p_ts s).
Proof.
  unfold renderFailures, failures_shown.
  set (fs := filter entry_alive_is_0 entries).
  destruct (slice_last_split 50 fs) as [older (E & Hlen & Hall)].
  assert (Hzero : forall e, entry_alive_is_0 e = true <-> p_alive e = Some 0).
  { intros e. unfold entry_alive_is_0. destruct (p_alive e) as [a|].
    - rewrite Z.eqb_eq. split; [intros ->; reflexivity | intros H; injection H; auto].
    - split; discriminate. }
  split; [rewrite length_rev; exact Hlen|].
  split.
  { intros f Hf. apply in_rev in Hf.
    assert (Hfs : In f fs) by (rewrite E; apply in_or_app; right; exact Hf).
    apply filter_In in Hfs. destruct Hfs as [H1 H2].
    split; [exact H1|]. split; [apply Hzero, H2 | apply substring_length]. }
  split.
  { split.
    - intros H e He C.
      assert (Hfs : In e fs) by (apply filter_In; split; [exact He | apply Hzero, C]).
      destruct (rev (slice_last 50 fs)) as [|x l] eqn:Er; [|discriminate].
      assert (Es : slice_last 50 fs = []).
      { rewrite <- (rev_involutive (slice_last 50 fs)), Er. reflexivity. }
      assert (L : List.length (slice_last 50 fs) = 0%nat) by (rewrite Es; reflexivity).
      unfold slice_last in L. rewrite length_skipn in L.
      destruct fs as [|x0 l0]; [destruct Hfs | simpl in L; lia].
    - intros H.
      assert (Efs : fs = []).
      { destruct fs as [|x l] eqn:Ef; [reflexivity|]. exfalso.
        assert (Hx : In x (filter entry_alive_is_0 entries))
          by (fold fs; rewrite Ef; left; reflexivity).
        apply filter_In in Hx. destruct Hx as [H1 H2].
        exact (H x H1 (proj1 (Hzero x) H2)). }
      rewrite Efs. reflexivity. }
  split.
  { destruct (rev (slice_last 50 fs)); [intros C; contradiction | reflexivity]. }
  intros Hs.
  assert (Hfs : StronglySorted (fun a b => p_ts a <= p_ts b) fs)
    by (apply StronglySorted_filter, Hs).
  split.
  - apply (StronglySorted_rev (fun a b => p_ts a <= p_ts b)).
    rewrite E in Hfs. clear - Hfs.
    induction older as [|x older IH]; [exact Hfs|].
    apply IH. simpl in Hfs. apply StronglySorted_inv in Hfs. apply Hfs.
  - exists older. rewrite rev_involutive. split; [exact E|].
    intros o s Ho Hsh. apply in_rev in Hsh. rewrite E in Hfs.
    exact (StronglySorted_app_cross _ _ _ Hfs o s Ho Hsh).
Qed.

Lemma failure_list_shows_latest_witness :
  let entries := [ demo_row 1699999998000 "1.1.1.1" 0 None;
                   demo_row 1699999999000 "8.8.8.8" 1 (Some (12 # 1));
                   demo_row 1700000000000 "1.1.1.1" 0 None ] in
  StronglySorted (fun a b => p_ts a <= p_ts b) entries
  /\ StronglySorted (fun a b => p_ts b <= p_ts a) (failures_shown entries)
  /\ map p_ts (failures_shown entries) = [1700000000000; 1699999998000].
Proof.
  intros entries.
  assert (H : StronglySorted (fun a b => p_ts a <= p_ts b) entries).
  { unfold entries. repeat constructor; simpl; lia. }
  split; [exact H|].
  destruct (failure_list_shows_latest entries) as (_ & _ & _ & _ & Hs).
  split; [exact (proj1 (Hs H)) | reflexivity].
Defined.

(** ** Dashboard: the global indicator *)

Lemma indicator_fold (values : list (option ping_row)) (st : indicator) :
  0 <= lastTs st ->
  let i := fold_left indicator_step values st in
  anyDown i = (anyDown st || existsb is_down values)%bool
  /\ lastTs st <= lastTs i
  /\ (forall row, In (Some row) values -> p_ts row <= lastTs i)
  /\ (lastTs i = lastTs st \/ exists row, In (Some row) values /\ lastTs i = p_ts row).
Proof.
  revert st. induction values as [|r values IH]; intros st H0.
  - simpl. rewrite orb_false_r. repeat split; [lia | intros row [] | left; reflexivity].
  - cbn [fold_left existsb].
    assert (H1 : 0 <= lastTs (indicator_step st r)).
    { destruct r as [row|]; simpl; [|exact H0].
      destruct (_ && _) eqn:E; [|exact H0].
      apply andb_true_iff in E. destruct E as [_ E]. apply Z.ltb_lt in E. lia. }
    assert (H2 : lastTs st <= lastTs (indicator_step st r)).
    { destruct r as [row|]; simpl; [|lia].
      destruct (_ && _) eqn:E; [|lia].
      apply andb_true_iff in E. destruct E as [_ E]. apply Z.ltb_lt in E. lia. }
    destruct (IH (indicator_step st r) H1) as (Ha & Hb & Hc & Hd).
    split; [|split; [|split]].
    + rewrite Ha. destruct r as [row|]; simpl.
      * destruct (entry_alive_is_0 row); simpl;
          [rewrite orb_true_r; reflexivity | reflexivity].
      * rewrite orb_true_r. reflexivity.
    + lia.
    + intros row [E | Hin]; [|apply Hc, Hin]. subst r.
      assert (Hrow : p_ts row <= lastTs (indicator_step st (Some row))).
      { unfold indicator_step. cbn [lastTs].
        destruct (negb (p_ts row =? 0) && (lastTs st <? p_ts row)) eqn:E; [lia|].
        apply andb_false_iff in E. destruct E as [E | E].
        - apply negb_false_iff, Z.eqb_eq in E. lia.
        - apply Z.ltb_ge in E. lia. }
      lia.
    + assert (Hstep : lastTs (indicator_step st r) = lastTs st
                      \/ exists row, r = Some row
                                     /\ lastTs (indicator_step st r) = p_ts row).
      { destruct r as [row|]; [|left; reflexivity].
        unfold indicator_step. cbn [lastTs].
        destruct (negb (p_ts row =? 0) && (lastTs st <? p_ts row));
          [right; exists row; split; reflexivity | left; reflexivity]. }
      destruct Hd as [Hd | [row [Hin Hd]]].
      * destruct Hstep as [Hs | [row [-> Hs]]].
        -- left. rewrite Hd. exact Hs.
        -- right. exists row. split; [left; reflexivity | rewrite Hd; exact Hs].
      * right. exists row. split; [right; exact Hin | exact Hd].
Qed.

Lemma is_down_iff (r : option ping_row) :
  is_down r = true <-> r = None \/ exists row, r = Some row /\ p_alive row = Some 0.
Proof.
  destruct r as [row|]; simpl.
  - unfold entry_alive_is_0. destruct (p_alive row) as [a|] eqn:E.
    + rewrite Z.eqb_eq. split.
      * intros ->. right. exists row. split; [reflexivity | exact E].
      * intros [C | [row' [H1 H2]]]; [discriminate|]. injection H1 as <-.
        rewrite E in H2. injection H2; auto.
    + split; [discriminate|]. intros [C | [row' [H1 H2]]]; [discriminate|].
      injection H1 as <-. rewrite E in H2. discriminate.
  - split; [intros _; left; reflexivity | reflexivity].
Qed.

Lemma any_down_iff (values : list (option ping_row)) :
  anyDown (renderGlobalIndicator values) = true <->
  exists r, In r values
            /\ (r = None \/ exists row, r = Some row /\ p_alive row = Some 0).
Proof.
  unfold renderGlobalIndicator.
  destruct (indicator_fold values {| anyDown := false; lastTs := 0 |} ltac:(simpl; lia))
    as (Ha & _).
  simpl in Ha. rewrite Ha, existsb_exists.
  split; intros [r [H1 H2]]; exists r; (split; [exact H1 | apply is_down_iff, H2]).
Qed.

(** X11.  The global indicator reads DOWN exactly when some entry of
    [latest] is [null] or has [alive === 0], and UP otherwise (also for an
    empty [latest]); the time it shows is the greatest timestamp among
    the entries, or none when no entry has a positive timestamp. *)
Theorem global_indicator (values : list (option ping_row)) :
  let i := renderGlobalIndicator values in
  (indicator_text i = "Internet: DOWN"%string <->
   exists r, In r values
             /\ (r = None \/ exists row, r = Some row /\ p_alive row = Some 0))
  /\ (indicator_text i = "Internet: UP"%string <->
      forall r, In r values -> exists row, r = Some row /\ p_alive row <> Some 0)
  /\ (forall row, In (Some row) values -> p_ts row <= lastTs i)
  /\ (lastTs i = 0 \/ exists row, In (Some row) values /\ lastTs i = p_ts row).
Proof.
  intros i. subst i. unfold renderGlobalIndicator.
  destruct (indicator_fold values {| anyDown := false; lastTs := 0 |} ltac:(simpl; lia))
    as (Ha & _ & Hc & Hd).
  simpl in Ha, Hd.
  assert (Hex : existsb is_down values = true <->
                exists r, In r values
                  /\ (r = None \/ exists row, r = Some row /\ p_alive row = Some 0)).
  { rewrite existsb_exists. split; intros [r [H1 H2]]; exists r;
      (split; [exact H1 | apply is_down_iff, H2]). }
  unfold indicator_text. rewrite Ha.
  split; [|split; [|split; [exact Hc | exact Hd]]].
  - destruct (existsb is_down values) eqn:E.
    + split; [intros _; apply Hex; reflexivity | reflexivity].
    + split; [discriminate|]. intros H. apply Hex in H. discriminate.
  - destruct (existsb is_down values) eqn:E.
    + split; [discriminate|]. intros H. exfalso.
      destruct (proj1 Hex eq_refl) as [r [H1 H2]].
      destruct (H r H1) as [row [-> Hrow]].
      destruct H2 as [C | [row' [C1 C2]]]; [discriminate|].
      injection C1 as <-. contradiction.
    + split; [|reflexivity]. intros _ r Hr.
      destruct r as [row|].
      * exists row. split; [reflexivity|]. intros C.
        assert (X : false = true).
        { apply Hex. exists (Some row). split; [exact Hr|]. right.
          exists row. split; [reflexivity | exact C]. }
        discriminate X.
      * assert (X : false = true).
        { apply Hex. exists None. split; [exact Hr | left; reflexivity]. }
        discriminate X.
Qed.

Lemma Object_values_In (latest : gmap string (option ping_row)) (v : option ping_row) :
  In v (Object_values latest) <-> exists t, latest !! t = Some v.
Proof.
  unfold Object_values. rewrite in_map_iff. split.
  - intros [[t v'] [E H]]. simpl in E. subst v'. exists t.
    apply elem_of_map_to_list. apply list_elem_of_In. exact H.
  - intros [t H]. exists (t, v). split; [reflexivity|].
    apply list_elem_of_In, elem_of_map_to_list. exact H.
Qed.

(** X12.  With the sqlite3 server, a target whose read failed, or that
    has no stored sample, turns the dashboard's indicator to DOWN: the
    [null] the status answer holds for it counts as an outage. *)
Theorem read_error_shows_down (db : database) (completion : list string) (t : string) :
  Permutation completion TARGETS -> In t TARGETS ->
  (db_fault db (SelectLatest t) <> None
   \/ forall p, In p (db_pings db) -> p_target p <> t) ->
  indicator_text
    (renderGlobalIndicator
       (Object_values (Sqlite3Server.latest
                         (Sqlite3Server.get_api_status db completion))))
  = "Internet: DOWN"%string.
Proof.
  intros Hperm Ht Hbad.
  unfold indicator_text.
  match goal with
  | |- (if anyDown ?i then _ else _) = _ =>
      assert (Hd : anyDown i = true); [|rewrite Hd; reflexivity]
  end.
  apply any_down_iff.
  exists None. split; [|left; reflexivity].
  apply Object_values_In. exists t.
  destruct (status_run db completion) as (_ & Hin & _).
  rewrite Hin by (eapply Permutation_in; [apply Permutation_sym|]; eassumption).
  f_equal. unfold select_latest.
  destruct (db_fault db (SelectLatest t)) as [m|] eqn:Ef; [reflexivity|].
  destruct Hbad as [C | Hnone]; [contradiction|].
  assert (E : filter (fun p => String.eqb (p_target p) t) (db_pings db) = []).
  { induction (db_pings db) as [|p l IH]; [reflexivity|]. simpl.
    destruct (String.eqb_spec (p_target p) t) as [E | E].
    - exfalso. apply (Hnone p); [left; reflexivity | exact E].
    - apply IH. intros q Hq. apply Hnone. right. exact Hq. }
  rewrite E. reflexivity.
Qed.

Lemma read_error_shows_down_witness :
  Permutation TARGETS TARGETS /\ In "1.1.1.1"%string TARGETS
  /\ db_fault broken_db (SelectLatest "1.1.1.1") <> None
  /\ indicator_text
       (renderGlobalIndicator
          (Object_values (Sqlite3Server.latest
                            (Sqlite3Server.get_api_status broken_db TARGETS))))
     = "Internet: DOWN"%string.
Proof.
  assert (H1 : Permutation TARGETS TARGETS) by apply Permutation_refl.
  assert (H2 : In "1.1.1.1"%string TARGETS) by (simpl; auto).
  assert (H3 : db_fault broken_db (SelectLatest "1.1.1.1") <> None) by discriminate.
  split; [exact H1|]. split; [exact H2|]. split; [exact H3|].
  exact (read_error_shows_down broken_db TARGETS "1.1.1.1" H1 H2 (or_introl H3)).
Defined.

(** ** Dashboard: what the timeline buckets count *)

Lemma count_if_cons {A : Type} (f : A -> bool) (x : A) (l : list A) :
  count_if f (x :: l) = (if f x then 1 else 0) + count_if f l.
Proof.
  unfold count_if. simpl. destruct (f x); simpl; lia.
Qed.

Lemma in_bucket_range (start : Z) (t : string) (i : nat) (e : ping_row) :
  in_bucket start t i e = true <->
  p_target e = t
  /\ start + bucketSize * Z.of_nat i <= p_ts e < start + bucketSize * (Z.of_nat i + 1).
Proof.
  unfold in_bucket, bucket_index, bucketSize.
  rewrite andb_true_iff, String.eqb_eq, Z.eqb_eq.
  change (60 * 1000) with 60000.
  pose proof (Z.div_mod (p_ts e - start) 60000 ltac:(lia)) as Hd.
  pose proof (Z.mod_pos_bound (p_ts e - start) 60000 ltac:(lia)) as Hm.
  split; intros [H1 H2]; (split; [exact H1|]).
  - lia.
  - assert (Hq : Z.of_nat i <= (p_ts e - start) / 60000)
      by (apply Z.div_le_lower_bound; lia).
    assert (Hq' : (p_ts e - start) / 60000 < Z.of_nat i + 1)
      by (apply Z.div_lt_upper_bound; lia).
    lia.
Qed.

Lemma add_entry_effect (start : Z) (m : gmap string (list bucket)) (e : ping_row)
    (t : string) (l : list bucket) :
  m !! t = Some l -> List.length l = Z.to_nat timeline_minutes ->
  exists l',
    add_entry start m e !! t = Some l'
    /\ List.length l' = List.length l
    /\ forall (i : nat) b, l !! i = Some b ->
         l' !! i = Some (if in_bucket start t i e then count_entry e b else b).
Proof.
  intros Hm Hl. unfold add_entry.
  change ((p_ts e - start) / bucketSize) with (bucket_index start e).
  set (idx := bucket_index start e).
  destruct ((idx <? 0) || (timeline_minutes <=? idx)) eqn:Er.
  - exists l. split; [exact Hm|]. split; [reflexivity|].
    intros i b Hi. rewrite Hi. f_equal.
    assert (Hlt : (i < List.length l)%nat) by (eapply lookup_lt_Some; exact Hi).
    unfold in_bucket. fold idx.
    assert (E : (idx =? Z.of_nat i) = false).
    { apply Z.eqb_neq. apply orb_true_iff in Er.
      rewrite Z.ltb_lt, Z.leb_le in Er. rewrite Hl in Hlt. lia. }
    rewrite E, andb_false_r. reflexivity.
  - apply orb_false_iff in Er. rewrite Z.ltb_ge, Z.leb_gt in Er.
    rewrite lookup_alter. case_decide as Ht.
    + subst t. rewrite Hm. simpl.
      eexists. split; [reflexivity|]. split; [apply length_alter|].
      intros i b Hi. unfold in_bucket. fold idx. rewrite String.eqb_refl. simpl.
      destruct (Z.eqb_spec idx (Z.of_nat i)) as [E | E].
      * replace (Z.to_nat idx) with i by lia.
        rewrite list_lookup_alter. case_decide as Hd; [|contradiction].
        rewrite Hi. reflexivity.
      * rewrite list_lookup_alter. case_decide as Hd; [lia | exact Hi].
    + exists l. split; [exact Hm|]. split; [reflexivity|].
      intros i b Hi. rewrite Hi. unfold in_bucket.
      destruct (String.eqb_spec (p_target e) t) as [C | _]; [contradiction|].
      reflexivity.
Qed.

Lemma add_entry_absent (start : Z) (m : gmap string (list bucket)) (e : ping_row)
    (t : string) :
  m !! t = None -> add_entry start m e !! t = None.
Proof.
  intros Hm. unfold add_entry. destruct (_ || _); [exact Hm|].
  rewrite lookup_alter. case_decide as Ht; [subst t; rewrite Hm; reflexivity | exact Hm].
Qed.

Lemma fold_add_entries (start : Z) (entries : list ping_row) :
  forall (m : gmap string (list bucket)) (t : string) (l : list bucket),
    m !! t = Some l -> List.length l = Z.to_nat timeline_minutes ->
    exists l',
      fold_left (add_entry start) entries m !! t = Some l'
      /\ forall (i : nat) b, l !! i = Some b ->
           l' !! i
           = Some {| b_ok := b_ok b + count_if (fun e => in_bucket start t i e
                                                        && entry_alive_is_1 e) entries;
                     b_total := b_total b + count_if (in_bucket start t i) entries |}.
Proof.
  induction entries as [|e entries IH]; intros m t l Hm Hl.
  - exists l. split; [exact Hm|]. intros i b Hi. rewrite Hi.
    unfold count_if. simpl. rewrite !Z.add_0_r. destruct b; reflexivity.
  - destruct (add_entry_effect start m e t l Hm Hl) as [l1 (E1 & L1 & H1)].
    destruct (IH (add_entry start m e) t l1 E1 ltac:(lia)) as [l' (E' & H')].
    exists l'. split; [exact E'|].
    intros i b Hi. rewrite (H' i _ (H1 i b Hi)). rewrite !count_if_cons.
    f_equal. unfold count_entry.
    destruct (in_bucket start t i e); destruct (entry_alive_is_1 e);
      simpl; f_equal; lia.
Qed.

Lemma fold_add_absent (start : Z) (entries : list ping_row) :
  forall (m : gmap string (list bucket)) (t : string),
    m !! t = None -> fold_left (add_entry start) entries m !! t = None.
Proof.
  induction entries as [|e entries IH]; intros m t Hm; [exact Hm|].
  simpl. apply IH, add_entry_absent, Hm.
Qed.

Lemma init_buckets_lookup (row : list bucket) (entries : list ping_row) :
  forall (m : gmap string (list bucket)) (t : string),
    fold_left (fun m e => <[p_target e := row]> m) entries m !! t
    = if in_dec string_dec t (map p_target entries) then Some row else m !! t.
Proof.
  induction entries as [|e entries IH]; intros m t; [reflexivity|].
  cbn [fold_left map]. rewrite IH.
  destruct (in_dec string_dec t (map p_target entries)) as [Hi | Hni].
  - destruct (in_dec string_dec t (p_target e :: map p_target entries)) as [_ | C];
      [reflexivity | exfalso; apply C; right; exact Hi].
  - destruct (in_dec string_dec t (p_target e :: map p_target entries)) as [Hi' | Hni'].
    + destruct Hi' as [<- | C]; [apply lookup_insert_eq | contradiction].
    + apply lookup_insert_ne. intros E. apply Hni'. left. exact E.
Qed.

Lemma repeat_lookup_lt {A : Type} (x : A) (n i : nat) :
  (i < n)%nat -> repeat x n !! i = Some x.
Proof.
  revert i. induction n as [|n IH]; intros i Hi; [lia|].
  destruct i as [|i]; simpl; [reflexivity | apply IH; lia].
Qed.

(** X13.  The timeline has a row of buckets for exactly the targets that
    occur among the entries.  Bucket number [i] of target [t] covers the
    minute that starts [720 - i] minutes before [now]: its [total] is the
    number of entries of [t] stamped within that minute, its [ok] the
    number of those with [alive === 1].  Entries stamped at [now] or
    later, or more than 12 hours before, are in no bucket. *)
Theorem timeline_counts (now : Z) (entries : list ping_row) (t : string) (i : nat) :
  (i < 720)%nat ->
  let start := now - timeline_minutes * bucketSize in
  (In t (map p_target entries) ->
     exists l,
       buildAggregatedTimeline now entries !! t = Some l
       /\ l !! i = Some {| b_ok := count_if (fun e => in_bucket start t i e
                                                     && entry_alive_is_1 e) entries;
                           b_total := count_if (in_bucket start t i) entries |})
  /\ (~ In t (map p_target entries) -> buildAggregatedTimeline now entries !! t = None)
  /\ (forall e, in_bucket start t i e = true <->
        p_target e = t
        /\ now - 60000 * (720 - Z.of_nat i) <= p_ts e
           < now - 60000 * (720 - Z.of_nat i) + 60000).
Proof.
  intros Hi start. unfold buildAggregatedTimeline. cbv zeta. fold start.
  set (row := repeat {| b_ok := 0; b_total := 0 |} (Z.to_nat timeline_minutes)).
  set (m0 := fold_left (fun m e => <[p_target e := row]> m) entries ∅).
  assert (Hm0 : m0 !! t = if in_dec string_dec t (map p_target entries)
                          then Some row else None).
  { unfold m0. rewrite init_buckets_lookup, lookup_empty. reflexivity. }
  split; [|split].
  - intros Ht. destruct (in_dec string_dec t (map p_target entries)); [|contradiction].
    destruct (fold_add_entries start entries m0 t row Hm0 (repeat_length _ _))
      as [l (E & H)].
    exists l. split; [exact E|].
    assert (Hrow : row !! i = Some {| b_ok := 0; b_total := 0 |}).
    { unfold row. apply repeat_lookup_lt. unfold timeline_minutes. lia. }
    rewrite (H i _ Hrow). reflexivity.
  - intros Ht. destruct (in_dec string_dec t (map p_target entries)); [contradiction|].
    apply fold_add_absent, Hm0.
  - intros e. rewrite in_bucket_range. unfold start, timeline_minutes, bucketSize.
    split; intros [H1 H2]; (split; [exact H1 | lia]).
Qed.

Lemma timeline_counts_witness :
  let entries := [ demo_row 1699999940000 "8.8.8.8" 1 None;
                   demo_row 1699999941000 "8.8.8.8" 0 None;
                   demo_row 1700000000000 "8.8.8.8" 1 None ] in
  (719 < 720)%nat /\ In "8.8.8.8"%string (map p_target entries)
  /\ exists l,
       buildAggregatedTimeline 1700000000000 entries !! "8.8.8.8"%string = Some l
       /\ l !! 719%nat = Some {| b_ok := 1; b_total := 2 |}.
Proof.
  intros entries.
  assert (H1 : (719 < 720)%nat) by lia.
  assert (H2 : In "8.8.8.8"%string (map p_target entries)) by (left; reflexivity).
  split; [exact H1|]. split; [exact H2|].
  destruct (proj1 (timeline_counts 1700000000000 entries "8.8.8.8" 719 H1) H2)
    as [l (E & Hl)].
  exists l. split; [exact E|]. rewrite Hl. reflexivity.
Defined.

(** ** Failure report: the tolerance *)

Lemma exists_near_mono (tol tol' : Z) (pings : list ping_row) (ts0 : Z)
    (o : string) (v : Z) :
  tol <= tol' ->
  exists_near tol pings ts0 o v = true -> exists_near tol' pings ts0 o v = true.
Proof.
  intros Hle H. apply exists_near_iff in H. apply exists_near_iff.
  destruct H as [p (H1 & H2 & H3 & H4)]. exists p. repeat split; try assumption. lia.
Qed.

(** X16.  Widening the tolerance never loses evidence in the failure
    report: a cell that reads "success" keeps reading "success", a cell
    that reads "fail" reads "fail" or "success"; the rows themselves do
    not depend on the tolerance. *)
Theorem tolerance_monotone (tol tol' start_ms end_ms : Z) (pings : list ping_row) :
  tol <= tol' ->
  (forall ts0 o, cell_rank (other_case tol pings ts0 o)
                 <= cell_rank (other_case tol' pings ts0 o))
  /\ (forall ts0 o, other_case tol pings ts0 o = "success"%string ->
                    other_case tol' pings ts0 o = "success"%string)
  /\ map f_datetime (failures_select tol start_ms end_ms pings)
     = map f_datetime (failures_select tol' start_ms end_ms pings).
Proof.
  intros Hle.
  assert (Hm : forall ts0 o v, exists_near tol pings ts0 o v = true ->
                               exists_near tol' pings ts0 o v = true).
  { intros ts0 o v. apply exists_near_mono, Hle. }
  split; [|split].
  - intros ts0 o. unfold other_case.
    destruct (exists_near tol pings ts0 o 1) eqn:E1.
    + rewrite (Hm _ _ _ E1). reflexivity.
    + destruct (exists_near tol pings ts0 o 0) eqn:E0.
      * rewrite (Hm _ _ _ E0).
        destruct (exists_near tol' pings ts0 o 1); vm_compute; discriminate.
      * destruct (exists_near tol' pings ts0 o 1);
          [|destruct (exists_near tol' pings ts0 o 0)]; vm_compute; discriminate.
  - intros ts0 o. unfold other_case.
    destruct (exists_near tol pings ts0 o 1) eqn:E1.
    + rewrite (Hm _ _ _ E1). reflexivity.
    + destruct (exists_near tol pings ts0 o 0); discriminate.
  - unfold failures_select. rewrite !map_map. reflexivity.
Qed.

Lemma tolerance_monotone_witness :
  1500 <= 2500
  /\ other_case 1500 precedence_pings 1700006401000 "8.8.8.8" = "no_data"%string
  /\ other_case 2500 precedence_pings 1700006401000 "8.8.8.8" = "no_data"%string
  /\ cell_rank (other_case 1500 precedence_pings 1700006405000 "google.com")
     <= cell_rank (other_case 2500 precedence_pings 1700006405000 "google.com").
Proof.
  assert (H : 1500 <= 2500) by lia.
  split; [exact H|]. split; [reflexivity|]. split; [reflexivity|].
  exact (proj1 (tolerance_monotone 1500 2500 0 0 precedence_pings H) _ _).
Defined.

(** ** Failure report: the retry loop *)

Lemma retry_loop_spec (f : nat -> attempt_outcome) (n : nat) :
  forall (i0 : nat) (slept : Z), 0 <= slept ->
  let a := Z.of_nat i0 + 1 in
  let attempt k := f (Z.to_nat (k - 1)) in
  match retry_loop a (map f (seq i0 n)) slept with
  | Published k content slept' =>
      a <= k < a + Z.of_nat n
      /\ o_rc (attempt k) = 0 /\ content = o_stdout (attempt k)
      /\ (forall j, a <= j < k -> retried (attempt j))
      /\ slept <= slept' <= slept + (k * (k - 1) - a * (a - 1))
  | Aborted rc slept' =>
      exists k,
        a <= k < a + Z.of_nat n
        /\ rc = o_rc (attempt k) /\ rc <> 0
        /\ says_locked (o_stderr (attempt k)) = false
        /\ o_stderr (attempt k) <> EmptyString
        /\ (forall j, a <= j < k -> retried (attempt j))
        /\ slept <= slept' <= slept + (k * (k - 1) - a * (a - 1))
  | GaveUp slept' =>
      (forall j, a <= j < a + Z.of_nat n -> retried (attempt j))
      /\ slept <= slept'
         <= slept + ((a + Z.of_nat n) * (a + Z.of_nat n - 1) - a * (a - 1))
  end.
Proof.
  induction n as [|n IH]; intros i0 slept Hs a attempt.
  - simpl. split; [intros j Hj; exfalso; lia | lia].
  - assert (Ha : attempt a = f i0).
    { unfold attempt, a. f_equal. lia. }
    assert (Hstep : forall (P : attempt_outcome -> Prop) k,
               P (f i0) -> (forall j, a + 1 <= j < k -> P (attempt j)) ->
               forall j, a <= j < k -> P (attempt j)).
    { intros P k H0 Hrest j Hj. destruct (Z.eq_dec j a) as [-> | Hne].
      - rewrite Ha. exact H0.
      - apply Hrest. lia. }
    rewrite Nat2Z.inj_succ. cbn [seq map retry_loop].
    specialize (IH (S i0)). cbv zeta in IH.
    replace (Z.of_nat (S i0) + 1) with (a + 1) in IH by (unfold a; lia).
    fold attempt in IH.
    destruct (o_rc (f i0) =? 0) eqn:Erc.
    + apply Z.eqb_eq in Erc. rewrite Ha.
      split; [lia|]. split; [exact Erc|]. split; [reflexivity|].
      split; [intros j Hj; exfalso; lia | lia].
    + apply Z.eqb_neq in Erc.
      destruct (says_locked (o_stderr (f i0))) eqn:El.
      * specialize (IH (slept + a * 2) ltac:(unfold a; lia)).
        assert (Hr : retried (f i0)) by (split; [exact Erc | left; exact El]).
        destruct (retry_loop (a + 1) (map f (seq (S i0) n)) (slept + a * 2))
          as [k c s'|rc s'|s'].
        -- destruct IH as (Hk & H0 & Hc & Hf & Hsl).
           split; [lia|]. split; [exact H0|]. split; [exact Hc|].
           split; [apply Hstep; [exact Hr | intros j' Hj'; apply Hf; lia] | nia].
        -- destruct IH as (k & Hk & Hrc & Hrc0 & Hl & He & Hf & Hsl).
           exists k. split; [lia|]. split; [exact Hrc|]. split; [exact Hrc0|].
           split; [exact Hl|]. split; [exact He|].
           split; [apply Hstep; [exact Hr | intros j' Hj'; apply Hf; lia] | nia].
        -- destruct IH as (Hf & Hsl). split; [apply Hstep; [exact Hr | intros j' Hj'; apply Hf; lia] | nia].
      * destruct (is_empty (o_stderr (f i0))) eqn:Ee; cbn [negb].
        -- assert (Hem : o_stderr (f i0) = EmptyString)
             by (destruct (o_stderr (f i0)); [reflexivity | discriminate]).
           specialize (IH slept Hs).
           assert (Hr : retried (f i0)) by (split; [exact Erc | right; exact Hem]).
           assert (Ha1 : 1 <= a) by (unfold a; lia).
           destruct (retry_loop (a + 1) (map f (seq (S i0) n)) slept)
             as [k c s'|rc s'|s'].
           ++ destruct IH as (Hk & H0 & Hc & Hf & Hsl).
              split; [lia|]. split; [exact H0|]. split; [exact Hc|].
              split; [apply Hstep; [exact Hr | intros j' Hj'; apply Hf; lia] | nia].
           ++ destruct IH as (k & Hk & Hrc & Hrc0 & Hl & He & Hf & Hsl).
              exists k. split; [lia|]. split; [exact Hrc|]. split; [exact Hrc0|].
              split; [exact Hl|]. split; [exact He|].
              split; [apply Hstep; [exact Hr | intros j' Hj'; apply Hf; lia] | nia].
           ++ destruct IH as (Hf & Hsl). split; [apply Hstep; [exact Hr | intros j' Hj'; apply Hf; lia] | nia].
        -- exists a. rewrite Ha. split; [lia|]. split; [reflexivity|].
           split; [exact Erc|]. split; [exact El|].
           split; [intros C; rewrite C in Ee; discriminate|].
           split; [intros j Hj; exfalso; lia | lia].
Qed.

(** X17.  The retry loop of the failure-report script runs [sqlite3] at
    most five times and sleeps at most 30 seconds in all.  The report is
    moved in place only with the output of an attempt that exited 0,
    every attempt before it having failed on a lock or without an error
    text; the loop stops at the first failed attempt whose error text
    does not name a lock.  Otherwise the previous report file stays as it
    was, and the exit status is 0 exactly when the report was replaced. *)
Theorem report_retry (outcome_of : nat -> attempt_outcome) (before : option string) :
  let attempt k := outcome_of (Z.to_nat (k - 1)) in
  let e := run_report outcome_of in
  match e with
  | Published k content slept =>
      1 <= k <= 5
      /\ o_rc (attempt k) = 0 /\ content = o_stdout (attempt k)
      /\ (forall j, 1 <= j < k -> retried (attempt j))
      /\ 0 <= slept <= k * (k - 1)
      /\ report_file before e = Some content /\ exit_status e = 0
  | Aborted rc slept =>
      (exists k,
         1 <= k <= 5
         /\ rc = o_rc (attempt k)
         /\ says_locked (o_stderr (attempt k)) = false
         /\ o_stderr (attempt k) <> EmptyString
         /\ (forall j, 1 <= j < k -> retried (attempt j))
         /\ 0 <= slept <= k * (k - 1))
      /\ report_file before e = before /\ exit_status e <> 0
  | GaveUp slept =>
      (forall j, 1 <= j <= 5 -> retried (attempt j))
      /\ 0 <= slept <= 30
      /\ report_file before e = before /\ exit_status e <> 0
  end.
Proof.
  intros attempt e. subst e. unfold run_report.
  pose proof (retry_loop_spec outcome_of ATTEMPTS 0 0 ltac:(lia)) as H.
  cbv zeta in H. fold attempt in H.
  change (Z.of_nat 0 + 1) with 1 in H. change (Z.of_nat ATTEMPTS) with 5 in H.
  destruct (retry_loop 1 (map outcome_of (seq 0 ATTEMPTS)) 0) as [k c s|rc s|s].
  - destruct H as (Hk & H0 & Hc & Hf & Hs).
    split; [lia|]. split; [exact H0|]. split; [exact Hc|]. split; [exact Hf|].
    split; [lia|]. split; reflexivity.
  - destruct H as (k & Hk & Hrc & Hrc0 & Hl & He & Hf & Hs).
    split; [|split; [reflexivity | exact Hrc0]].
    exists k. split; [lia|]. split; [exact Hrc|]. split; [exact Hl|].
    split; [exact He|]. split; [exact Hf | lia].
  - destruct H as (Hf & Hs).
    split; [intros j Hj; apply Hf; lia|]. split; [lia|].
    split; [reflexivity | discriminate].
Qed.

(** A lock that clears at the third attempt: two sleeps, of 2 s and 4 s. *)
Example lock_clears_published :
  run_report lock_clears = Published 3 "datetime,1.1.1.1" 6.
Proof. reflexivity. Qed.

(** ** Retention *)

Lemma in_prune_pings (now_s : Z) (pings : list ping_row) (p : ping_row) :
  In p (prune_pings now_s pings) <->
  In p pings /\ (now_s - 7 * 24 * 60 * 60) * 1000 <= p_ts p.
Proof.
  unfold prune_pings. rewrite filter_In, negb_true_iff, Z.ltb_ge. reflexivity.
Qed.

Lemma exists_near_pruned (now_s tol : Z) (pings : list ping_row) (ts0 : Z)
    (o : string) (v : Z) :
  (now_s - 7 * 24 * 60 * 60) * 1000 + tol <= ts0 ->
  exists_near tol (prune_pings now_s pings) ts0 o v = exists_near tol pings ts0 o v.
Proof.
  intros H. apply eq_true_iff_eq. rewrite !exists_near_iff. split.
  - intros [p (H1 & H2)]. exists p. apply in_prune_pings in H1.
    split; [apply H1 | exact H2].
  - intros [p (H1 & H2 & H3 & H4)]. exists p.
    split; [apply in_prune_pings; split; [exact H1 | lia]|].
    repeat split; assumption.
Qed.

Lemma failures_select_pruned (now_s tol start_ms end_ms : Z) (pings : list ping_row) :
  (now_s - 7 * 24 * 60 * 60) * 1000 + tol <= start_ms -> 0 <= tol ->
  failures_select tol start_ms end_ms (prune_pings now_s pings)
  = failures_select tol start_ms end_ms pings.
Proof.
  intros H Ht. unfold failures_select.
  assert (E : filter (is_key_failure start_ms end_ms) (prune_pings now_s pings)
              = filter (is_key_failure start_ms end_ms) pings).
  { unfold prune_pings. rewrite filter_filter. apply filter_ext. intros p.
    unfold is_key_failure.
    destruct (start_ms <=? p_ts p) eqn:E1;
      [|rewrite andb_false_r, andb_false_l, andb_false_r; reflexivity].
    apply Z.leb_le in E1.
    assert (Hk : (p_ts p <? (now_s - 7 * 24 * 60 * 60) * 1000) = false)
      by (apply Z.ltb_ge; lia).
    rewrite Hk. reflexivity. }
  rewrite E. apply map_ext_in. intros f Hf.
  apply order_by_In in Hf. apply filter_In in Hf. destruct Hf as [_ Hf].
  unfold is_key_failure in Hf.
  apply andb_true_iff in Hf. destruct Hf as [Hf _].
  apply andb_true_iff in Hf. destruct Hf as [_ Hf]. apply Z.leb_le in Hf.
  unfold failure_columns. f_equal. apply map_ext. intros t.
  unfold other_case. rewrite !exists_near_pruned by lia. reflexivity.
Qed.

Lemma since_of_hours (now : Z) (s : string) (h : Q) :
  parseFloat s = Fin h -> (1 <= h)%Q ->
  since_of now (Some s) = Fin (inject_Z now - h * inject_Z 60 * inject_Z 60 * inject_Z 1000).
Proof.
  intros Hs Hq. unfold since_of, hours_of, parseFloat_param. rewrite Hs.
  assert (Ht : truthy (Fin h) = true).
  { simpl. apply negb_true_iff. destruct (Qeq_bool h 0) eqn:E; [|reflexivity].
    apply Qeq_bool_iff in E. rewrite E in Hq. exfalso.
    apply (Qlt_not_le 0 1); [reflexivity | exact Hq]. }
  unfold js_or. rewrite Ht. unfold window_ms.
  change (js_max (js_int 1) (Fin h))
    with (if Qle_bool (inject_Z 1) h then Fin h else Fin (inject_Z 1)).
  assert (Hm : Qle_bool (inject_Z 1) h = true) by (apply Qle_bool_iff; exact Hq).
  rewrite Hm. reflexivity.
Qed.

Lemma select_pings_pruned (found : bool) (now_p now_t : Z) (db : database)
    (since limit : jsnum) :
  (forall ts, ts_ge ts since = true -> (now_p - 7 * 24 * 60 * 60) * 1000 <= ts) ->
  select_pings (prune_sh found now_p now_t db) since limit = select_pings db since limit.
Proof.
  intros H. destruct found; [|reflexivity]. unfold select_pings, prune_sh.
  cbn [db_fault db_pings].
  destruct (db_fault db (SelectPings since limit)); [reflexivity|].
  destruct (limit_value limit); [|reflexivity].
  f_equal. f_equal. f_equal. unfold prune_pings. rewrite filter_filter.
  apply filter_ext. intros p.
  destruct (ts_ge (p_ts p) since) eqn:E; [|apply andb_false_r].
  apply H in E.
  assert (Hk : (p_ts p <? (now_p - 7 * 24 * 60 * 60) * 1000) = false)
    by (apply Z.ltb_ge; lia).
  rewrite Hk. reflexivity.
Qed.

(** X18.  Pruning keeps what is read of the last seven days.  Whether or
    not [prune.sh] finds the database file: the failure report of a day
    that starts at least two seconds after the retention limit is the
    same before and after; so is the answer of [/api/pings], from either
    server, for a window of [hours >= 1] that reaches back no further
    than the limit. *)
Theorem prune_keeps_reports (found : bool) (now_p now_t : Z) (db : database) :
  let db' := prune_sh found now_p now_t db in
  (forall start_s,
      now_p - 7 * 24 * 60 * 60 + 2 <= start_s ->
      generate_failures_report start_s (db_pings db')
      = generate_failures_report start_s (db_pings db))
  /\ (forall now s h q_limit,
        parseFloat s = Fin h -> (1 <= h)%Q ->
        (inject_Z ((now_p - 7 * 24 * 60 * 60) * 1000)
         <= inject_Z now - h * inject_Z 3600000)%Q ->
        Sqlite3Server.get_api_pings db' now (Some s) q_limit
        = Sqlite3Server.get_api_pings db now (Some s) q_limit
        /\ BetterSqlite3Server.get_api_pings db' now (Some s) q_limit
           = BetterSqlite3Server.get_api_pings db now (Some s) q_limit).
Proof.
  intros db'. split.
  - intros start_s H2. subst db'. destruct found; [|reflexivity].
    cbn [prune_sh db_pings]. unfold generate_failures_report.
    apply failures_select_pruned; unfold TOL_MS; lia.
  - intros now s h q_limit Hs Hh Hw.
    assert (E : select_pings db' (since_of now (Some s)) (pings_limit_of q_limit)
                = select_pings db (since_of now (Some s)) (pings_limit_of q_limit)).
    { apply select_pings_pruned. intros ts Hts.
      rewrite (since_of_hours now s h Hs Hh) in Hts. cbn [ts_ge] in Hts.
      apply Qle_bool_iff in Hts.
      assert (Hq : (inject_Z ((now_p - 7 * 24 * 60 * 60) * 1000) <= inject_Z ts)%Q).
      { eapply Qle_trans; [exact Hw|]. eapply Qle_trans; [|exact Hts].
        apply Qle_lteq. right.
        change (inject_Z 3600000) with (inject_Z 60 * inject_Z 60 * inject_Z 1000)%Q.
        ring. }
      rewrite <- Zle_Qle in Hq. exact Hq. }
    unfold Sqlite3Server.get_api_pings, BetterSqlite3Server.get_api_pings.
    cbv zeta. rewrite E. split; reflexivity.
Qed.

Lemma prune_keeps_reports_witness :
  1700611198 - 7 * 24 * 60 * 60 + 2 <= 1700006400
  /\ generate_failures_report 1700006400
       (db_pings (prune_sh true 1700611198 1700611198
                    {| db_pings := edge_pings; db_traceroutes := [];
                       db_fault := healthy |}))
     = generate_failures_report 1700006400 edge_pings.
Proof.
  assert (H2 : 1700611198 - 7 * 24 * 60 * 60 + 2 <= 1700006400) by lia.
  split; [exact H2|].
  exact (proj1 (prune_keeps_reports true 1700611198 1700611198
                  {| db_pings := edge_pings; db_traceroutes := [];
                     db_fault := healthy |}) 1700006400 H2).
Defined.

(** At the very edge the failure report does change: pruning at the
    start of the day removes the sample of another target taken one
    second before, and the cell turns from "success" to "no_data". *)
Example prune_edge_of_retention :
  map f_others (generate_failures_report 1700006400 edge_pings)
  <> map f_others (generate_failures_report 1700006400
                     (prune_pings (1700006400 + 7 * 24 * 60 * 60) edge_pings)).
Proof. vm_compute. discriminate. Qed.

(** ** Dashboard: what [refreshAll] shows of the store *)

Lemma ts_ge_12h (now ts : Z) :
  ts_ge ts (since_of now (Some "12"%string)) = (now - twelve_hours <=? ts).
Proof.
  assert (H : exists h, parseFloat "12" = Fin h /\ (h == 12)%Q).
  { eexists. split; [vm_compute; reflexivity | reflexivity]. }
  destruct H as [h [Hp Hh]].
  rewrite (since_of_hours now "12" h Hp) by (rewrite Hh; discriminate).
  cbn [ts_ge]. apply eq_true_iff_eq. rewrite Qle_bool_iff, Z.leb_le.
  rewrite Hh. unfold twelve_hours, Qle, Qminus, Qplus, Qopp, Qmult, inject_Z.
  simpl. lia.
Qed.

Lemma refresh_entries_spec (db : database) (now : Z) :
  refresh_entries db now
  = match db_fault db (SelectPings (since_of now (Some "12"%string))
                                   (pings_limit_of None)) with
    | Some _ => []
    | None => sql_limit 200000 (order_by ts_asc (refresh_window db now))
    end.
Proof.
  unfold refresh_entries, Sqlite3Server.get_api_pings, select_pings. cbv zeta.
  destruct (db_fault db _); [reflexivity|].
  change (limit_value (pings_limit_of None)) with (Some 200000).
  cbn [res_json res_body rows_or_empty]. f_equal. f_equal.
  unfold refresh_window. apply filter_ext. intros p. apply ts_ge_12h.
Qed.

(** X19.  What the failure list of the dashboard shows of the store, with
    the sqlite3 server.  Every failure shown is a stored sample of the last
    twelve hours with [alive = 0]; the list is newest first.  When the
    read fails the list shows the placeholder, as if there had been no
    failure.  When the read succeeds and the window holds at most 200000
    samples, the failures shown are the most recent ones of the window;
    with more samples, the newest of the window are not looked at. *)
Theorem dashboard_failures (db : database) (now : Z) :
  let shown := failures_shown (refresh_entries db now) in
  let fault := db_fault db (SelectPings (since_of now (Some "12"%string))
                                        (pings_limit_of None)) in
  (forall f, In f shown ->
     In f (db_pings db) /\ p_alive f = Some 0 /\ now - twelve_hours <= p_ts f)
  /\ StronglySorted (fun a b => p_ts b <= p_ts a) shown
  /\ (fault <> None -> renderFailures (refresh_entries db now) = NoFailures)
  /\ (fault = None ->
      Z.of_nat (List.length (refresh_window db now)) <= 200000 ->
      forall f s, In f (refresh_window db now) -> p_alive f = Some 0 ->
                  ~ In f shown -> In s shown -> p_ts f <= p_ts s)
  /\ (fault = None ->
      forall r d, In r (refresh_entries db now) -> In d (refresh_window db now) ->
                  ~ In d (refresh_entries db now) -> p_ts r <= p_ts d).
Proof.
  intros shown fault. subst shown.
  pose proof (refresh_entries_spec db now) as E. fold fault in E.
  set (w := refresh_window db now) in *.
  assert (Hsorted : StronglySorted (fun a b => p_ts a <= p_ts b) (refresh_entries db now)).
  { rewrite E. destruct fault; [constructor|].
    apply sql_limit_sorted, ts_asc_sorted. }
  assert (Hin : forall f, In f (refresh_entries db now) -> In f w).
  { intros f Hf. rewrite E in Hf. destruct fault; [destruct Hf|].
    apply sql_limit_In in Hf. apply order_by_In in Hf. exact Hf. }
  destruct (failures_shown_newest _ Hsorted) as [Hdesc [older [Eo Ho]]].
  split; [|split; [exact Hdesc|split; [|split]]].
  - intros f Hf. apply failures_shown_In in Hf. destruct Hf as [H1 H2].
    apply Hin in H1. unfold w, refresh_window in H1. apply filter_In in H1.
    destruct H1 as [H1 H3]. apply Z.leb_le in H3.
    split; [exact H1|]. split; [exact H2 | exact H3].
  - intros Hf. rewrite E. destruct fault; [reflexivity | contradiction].
  - intros Hf Hlen f s Hfw Ha Hns Hs.
    assert (Hall : refresh_entries db now = order_by ts_asc w).
    { rewrite E, Hf.
      destruct (sql_limit_split 200000 (order_by ts_asc w)) as [dropped [Ed Hd]].
      assert (Hl : 200000 < 0 \/ Z.of_nat (List.length (order_by ts_asc w)) <= 200000)
        by (right; rewrite order_by_length; exact Hlen).
      rewrite (Hd Hl), app_nil_r in Ed.
      symmetry. exact Ed. }
    assert (Hfe : In f (filter entry_alive_is_0 (refresh_entries db now))).
    { apply filter_In. split; [rewrite Hall; apply order_by_In; exact Hfw|].
      unfold entry_alive_is_0. rewrite Ha. reflexivity. }
    rewrite Eo in Hfe. apply in_app_or in Hfe. destruct Hfe as [Hfe | Hfe].
    + apply Ho; assumption.
    + exfalso. apply Hns. apply in_rev. exact Hfe.
  - intros Hf r d Hr Hd Hnd. rewrite E, Hf in Hr, Hnd.
    destruct (sql_limit_split 200000 (order_by ts_asc w)) as [dropped [Ed Hdr]].
    pose proof (ts_asc_sorted w) as Hs. rewrite Ed in Hs.
    apply (StronglySorted_app_cross _ _ _ Hs r d Hr).
    assert (Hd' : In d (order_by ts_asc w)) by (apply order_by_In; exact Hd).
    rewrite Ed in Hd'. apply in_app_or in Hd'. destruct Hd' as [C | Hd']; [|exact Hd'].
    contradiction.
Qed.

Lemma dashboard_failures_witness :
  db_fault broken_db (SelectPings (since_of 1700000000000 (Some "12"%string))
                                  (pings_limit_of None)) <> None
  /\ renderFailures (refresh_entries broken_db 1700000000000) = NoFailures
  /\ db_fault demo_db (SelectPings (since_of 1700000000000 (Some "12"%string))
                                   (pings_limit_of None)) = None
  /\ map p_ts (failures_shown (refresh_entries demo_db 1700000000000))
     = [1699999998000].
Proof.
  assert (H : db_fault broken_db
                (SelectPings (since_of 1700000000000 (Some "12"%string))
                             (pings_limit_of None)) <> None) by discriminate.
  split; [exact H|].
  split; [exact (proj1 (proj2 (proj2 (dashboard_failures broken_db 1700000000000))) H)|].
  split; reflexivity.
Defined.
